(** * Hyperlink thumbnailer: a shallow embedding of [20250304.py]

    The program reads a spreadsheet, groups the hyperlinked cells by row,
    gives every link a target column to the right of the row's last
    hyperlink, downloads each link, turns it into thumbnails and anchors
    them in the sheet, and finally sets uniform column widths and row
    heights.

    Python values are modelled as follows: [int] is [Z]; [str] is a list
    of characters with code points below 256; the worksheet's cell
    dictionary and dimension holders are finite maps; the
    insertion-ordered [row_hyperlinks] dict is an association list;
    everything outside the process (network, file system, the PDF
    rasteriser, the image decoder) is an explicit [World] of outcomes,
    and the code runs in a state-and-exception monad whose state
    survives a raised exception, as a Python object does. *)

From Stdlib Require Import ZArith Lia List Ascii String DecimalString DecimalZ.
From stdpp Require Import gmap list sorting.

Open Scope string_scope.
Open Scope list_scope.
Open Scope Z_scope.

(** ** Python strings *)

Definition str := list ascii.
Coercion py (s : string) : str := list_ascii_of_string s.

Module Py.

(** [c in s] *)
Definition contains (c : ascii) (s : str) : bool :=
  existsb (Ascii.eqb c) s.

(** [s.find(c)] counted from offset [i]: index of the first
    occurrence, [-1] when there is none. *)
Fixpoint find_from (c : ascii) (s : str) (i : Z) : Z :=
  match s with
  | [] => -1
  | x :: s' => if Ascii.eqb x c then i else find_from c s' (i + 1)
  end.

Definition find (c : ascii) (s : str) : Z := find_from c s 0.

(** [s.find(c, start)] for [0 <= start] *)
Definition find_at (c : ascii) (s : str) (start : Z) : Z :=
  find_from c (drop (Z.to_nat start) s) start.

(** [s.rfind(c)]: index of the last occurrence, [-1] when none. *)
Fixpoint rfind_from (c : ascii) (s : str) (i : Z) : Z :=
  match s with
  | [] => -1
  | x :: s' =>
      let r := rfind_from c s' (i + 1) in
      if 0 <=? r then r else if Ascii.eqb x c then i else -1
  end.

Definition rfind (c : ascii) (s : str) : Z := rfind_from c s 0.

(** Slices [s[:i]], [s[i:]] and [s[i:j]] for non-negative bounds. *)
Definition upto (s : str) (i : Z) : str := take (Z.to_nat i) s.
Definition from (s : str) (i : Z) : str := drop (Z.to_nat i) s.
Definition slice (s : str) (i j : Z) : str := upto (from s i) (j - i).

(** [s.lstrip(chars)] with the character set given as a predicate *)
Fixpoint lstrip (p : ascii -> bool) (s : str) : str :=
  match s with
  | [] => []
  | x :: s' => if p x then lstrip p s' else s
  end.

(** [s.replace(c, "")] *)
Definition remove_char (c : ascii) (s : str) : str :=
  List.filter (fun x => negb (Ascii.eqb x c)) s.

Definition is_upper (c : ascii) : bool :=
  let n := N_of_ascii c in (65 <=? n)%N && (n <=? 90)%N.
Definition is_lower (c : ascii) : bool :=
  let n := N_of_ascii c in (97 <=? n)%N && (n <=? 122)%N.
Definition is_digit (c : ascii) : bool :=
  let n := N_of_ascii c in (48 <=? n)%N && (n <=? 57)%N.
Definition is_alpha (c : ascii) : bool := is_upper c || is_lower c.

(** The capital letters above [Z]: the code points 192 to 222 except the
    multiplication sign, 215. *)
Definition is_latin1_upper (c : ascii) : bool :=
  let n := N_of_ascii c in (192 <=? n)%N && (n <=? 222)%N && negb (n =? 215)%N.

Definition lower_char (c : ascii) : ascii :=
  if is_upper c || is_latin1_upper c
  then ascii_of_N (N_of_ascii c + 32) else c.

(** [s.lower()] *)
Definition lower (s : str) : str := map lower_char s.

(** [s.split(c, 1)] when [c in s]: the parts before and after the first
    occurrence. *)
Definition split1 (c : ascii) (s : str) : str * str :=
  let i := find c s in (upto s i, from s (i + 1)).

(** [str(n)], also what an f-string prints for an [int] *)
Definition str_of_int (n : Z) : str :=
  list_ascii_of_string (NilZero.string_of_int (Z.to_int n)).

Definition str_eqb (a b : str) : bool := bool_decide (a = b).

(** [s.partition(c)]: the text before the first [c], whether there is
    one, and the text after it. *)
Fixpoint partition (c : ascii) (s : str) : str * bool * str :=
  match s with
  | [] => ([], false, [])
  | x :: s' =>
      if Ascii.eqb x c then ([], true, s')
      else let '(a, found, b) := partition c s' in (x :: a, found, b)
  end.

(** [s.rpartition(c)[2]]: the text after the last [c], all of [s] when
    there is none. *)
Fixpoint after_last (c : ascii) (s : str) : str :=
  match s with
  | [] => []
  | x :: s' =>
      if contains c s' then after_last c s'
      else if Ascii.eqb x c then s' else x :: s'
  end.

(** [s.split(c)] *)
Fixpoint split (c : ascii) (s : str) : list str :=
  match s with
  | [] => [[]]
  | x :: s' =>
      if Ascii.eqb x c then [] :: split c s'
      else match split c s' with
           | p :: ps => (x :: p) :: ps
           | [] => [[x]]
           end
  end.

(** The longest prefix of characters in [p], and what follows it *)
Fixpoint take_while (p : ascii -> bool) (s : str) : str :=
  match s with
  | [] => []
  | x :: s' => if p x then x :: take_while p s' else []
  end.

Fixpoint drop_while (p : ascii -> bool) (s : str) : str :=
  match s with
  | [] => []
  | x :: s' => if p x then drop_while p s' else s
  end.

(** [int(s)] for a text of decimal digits *)
Definition int_of_digits (s : str) : Z :=
  fold_left (fun n c => 10 * n + (Z.of_N (N_of_ascii c) - 48)) s 0.

End Py.

(** ** Exceptions and results *)

Inductive exn :=
| RequestException (msg : str)   (* requests.exceptions.RequestException and its subclasses *)
| FileNotFoundError (msg : str)
| OSError (msg : str)
| ValueError (msg : str)
| OtherException (msg : str).    (* any other subclass of Exception *)

Inductive result (A : Type) :=
| Ok (a : A)
| Raise (e : exn).
Arguments Ok {A} a.
Arguments Raise {A} e.

(** ** [ipaddress]: which texts are addresses *)

Module IpAddress.
Import Py.

Definition is_hex_digit (c : ascii) : bool :=
  is_digit c
  || (let n := N_of_ascii c in (65 <=? n)%N && (n <=? 70)%N)
  || (let n := N_of_ascii c in (97 <=? n)%N && (n <=? 102)%N).

(** [_BaseV4._parse_octet] returns: decimal digits, at most three, no
    leading zero, at most 255. *)
Definition _parse_octet (octet_str : str) : bool :=
  negb (str_eqb octet_str [])
  && forallb is_digit octet_str
  && (length octet_str <=? 3)%nat
  && negb (negb (str_eqb octet_str "0")
           && match octet_str with c :: _ => Ascii.eqb c "0" | [] => false end)
  && (int_of_digits octet_str <=? 255).

(** [IPv4Address(address)] returns *)
Definition IPv4Address (address : str) : bool :=
  negb (contains "/" address)
  && negb (str_eqb address [])
  && (let octets := split "." address in
      (length octets =? 4)%nat && forallb _parse_octet octets).

(** [_BaseV6._parse_hextet] returns: one to four hexadecimal digits
    ([int('', 16)] raises). *)
Definition _parse_hextet (hextet_str : str) : bool :=
  forallb is_hex_digit hextet_str
  && (length hextet_str <=? 4)%nat
  && negb (str_eqb hextet_str []).

(** [_BaseV6._split_scope_id] returns: the address part. *)
Definition _split_scope_id (ip_str : str) : option str :=
  let '(addr, sep, scope_id) := partition "%" ip_str in
  if sep && (str_eqb scope_id [] || contains "%" scope_id) then None
  else Some addr.

(** The indices from 1 to [len(parts) - 2] of the empty parts: where a
    [::] stands. *)
Definition skips (parts : list str) : list nat :=
  List.filter
    (fun i => match parts !! i with Some p => str_eqb p [] | None => false end)
    (seq 1 (length parts - 2)).

(** [_BaseV6._ip_int_from_string] returns. An IPv4 suffix that parses
    stands for two hextets. *)
Definition _ip_int_from_string (ip_str : str) : bool :=
  negb (str_eqb ip_str [])
  && (let parts := split ":" ip_str in
      (3 <=? length parts)%nat
      && (let last_part := List.last parts [] in
          let suffix_ok :=
            if contains "." last_part then IPv4Address last_part else true in
          let parts :=
            if contains "." last_part
            then removelast parts ++ [ "0" : str; "0" : str ]
            else parts in
          suffix_ok
          && (length parts <=? 9)%nat
          && (let first_empty :=
                match parts with p :: _ => str_eqb p [] | [] => false end in
              let last_empty := str_eqb (List.last parts []) [] in
              match skips parts with
              | [] =>
                  (length parts =? 8)%nat
                  && negb first_empty && negb last_empty
                  && forallb _parse_hextet parts
              | [ skip_index ] =>
                  let parts_hi := skip_index in
                  let parts_lo := (length parts - skip_index - 1)%nat in
                  let hi_ok :=
                    if first_empty then (parts_hi - 1 =? 0)%nat else true in
                  let parts_hi :=
                    if first_empty then (parts_hi - 1)%nat else parts_hi in
                  let lo_ok :=
                    if last_empty then (parts_lo - 1 =? 0)%nat else true in
                  let parts_lo :=
                    if last_empty then (parts_lo - 1)%nat else parts_lo in
                  hi_ok && lo_ok
                  && (parts_hi + parts_lo <=? 7)%nat
                  && forallb _parse_hextet (take parts_hi parts)
                  && forallb _parse_hextet (drop (length parts - parts_lo) parts)
              | _ :: _ :: _ => false
              end))).

(** [IPv6Address(address)] returns *)
Definition IPv6Address (address : str) : bool :=
  negb (contains "/" address)
  && match _split_scope_id address with
     | Some addr => _ip_int_from_string addr
     | None => false
     end.

Inductive version := V4 | V6.

(** [ipaddress.ip_address(address)] *)
Definition ip_address (address : str) : result version :=
  if IPv4Address address then Ok V4
  else if IPv6Address address then Ok V6
  else Raise (ValueError
                (address ++ py " does not appear to be an IPv4 or IPv6 address")).

End IpAddress.

(** ** [urllib.parse.urlparse], the part that yields [.path] *)

Module UrlParse.
Import Py.

Definition c0_control_or_space (c : ascii) : bool :=
  (N_of_ascii c <=? 32)%N.

Definition scheme_char (c : ascii) : bool :=
  is_alpha c || is_digit c
  || Ascii.eqb c "+" || Ascii.eqb c "-" || Ascii.eqb c ".".

Definition uses_params : list str :=
  [ "" : str; "ftp" : str; "hdl" : str; "prospero" : str; "http" : str;
    "imap" : str; "https" : str; "shttp" : str; "rtsp" : str;
    "rtspu" : str; "sip" : str; "sips" : str; "mms" : str; "sftp" : str;
    "tel" : str ].

(** [_splitnetloc(url, start)] *)
Definition _splitnetloc (url : str) (start : Z) : str * str :=
  let step (delim : Z) (c : ascii) :=
    let wdelim := find_at c url start in
    if 0 <=? wdelim then Z.min delim wdelim else delim in
  let delim := fold_left step ["/"; "?"; "#"]%char (Z.of_nat (length url)) in
  (slice url start delim, from url delim).

Record SplitResult := {
  scheme : str; netloc : str; path : str; query : str; fragment : str
}.

(** The steps of [urlsplit], in its order: leading control characters
    and spaces are stripped and tabs and line breaks removed; a scheme is
    split off at the first colon when only scheme characters come before
    it; a network location is split off after [//] and checked; then the
    fragment and the query are split off. *)
Definition clean (url : str) : str :=
  remove_char "010" (remove_char "013" (remove_char "009"
    (lstrip c0_control_or_space url))).

Definition split_scheme (url : str) : str * str :=
  let i := find ":" url in
  if (0 <? i)
     && match url with c :: _ => is_alpha c | [] => false end
     && forallb scheme_char (upto url i)
  then (lower (upto url i), from url (i + 1))
  else ([], url).

Definition split_netloc (url : str) : str * str :=
  if str_eqb (upto url 2) "//" then _splitnetloc url 2 else ([], url).

Definition split_fragment (url : str) : str * str :=
  if contains "#" url then split1 "#" url else (url, []).

Definition split_query (url : str) : str * str :=
  if contains "?" url then split1 "?" url else (url, []).

(** [re.match(r"\Av[a-fA-F0-9]+\..+\Z", hostname)] for a [hostname] that
    starts with [v] *)
Definition ipvfuture (hostname : str) : bool :=
  match hostname with
  | _ :: rest =>
      let digits := take_while IpAddress.is_hex_digit rest in
      let rest := drop_while IpAddress.is_hex_digit rest in
      negb (str_eqb digits [])
      && match rest with
         | dot :: tail =>
             Ascii.eqb dot "."
             && negb (str_eqb tail [])
             && negb (contains "010" tail)
         | [] => false
         end
  | [] => false
  end.

Definition _check_bracketed_host (hostname : str) : result unit :=
  if match hostname with c :: _ => Ascii.eqb c "v" | [] => false end then
    if ipvfuture hostname then Ok tt
    else Raise (ValueError "IPvFuture address is invalid")
  else
    match IpAddress.ip_address hostname with
    | Ok IpAddress.V4 =>
        Raise (ValueError "An IPv4 address cannot be in brackets")
    | Ok IpAddress.V6 => Ok tt
    | Raise e => Raise e
    end.

Definition _check_bracketed_netloc (netloc : str) : result unit :=
  let hostname_and_port := after_last "@" netloc in
  let '(before_bracket, have_open_br, bracketed) :=
    partition "[" hostname_and_port in
  if have_open_br then
    if negb (str_eqb before_bracket [])
    then Raise (ValueError "Invalid IPv6 URL")
    else
      let '(hostname, _, port) := partition "]" bracketed in
      if negb (str_eqb port [])
         && negb (match port with c :: _ => Ascii.eqb c ":" | [] => false end)
      then Raise (ValueError "Invalid IPv6 URL")
      else _check_bracketed_host hostname
  else
    let '(hostname, _, port) := partition ":" hostname_and_port in
    _check_bracketed_host hostname.

(** The checks [urlsplit] makes of the network location it has split
    off: a bracket without its partner, and what stands in and around a
    pair of brackets. (Without [//] the network location is empty and
    passes. The last check, [_checknetloc], looks for one of [/?#@:] in
    the compatibility normal form of the network location: no character
    below 256 brings one, so it returns.) *)
Definition check_netloc (netloc : str) : result unit :=
  if (contains "[" netloc && negb (contains "]" netloc))
     || (contains "]" netloc && negb (contains "[" netloc))
  then Raise (ValueError "Invalid IPv6 URL")
  else if contains "[" netloc && contains "]" netloc
  then _check_bracketed_netloc netloc
  else Ok tt.

Definition urlsplit (url : str) : result SplitResult :=
  let url := clean url in
  let '(scheme, url) := split_scheme url in
  let '(netloc, url) := split_netloc url in
  match check_netloc netloc with
  | Raise e => Raise e
  | Ok _ =>
      let '(url, fragment) := split_fragment url in
      let '(url, query) := split_query url in
      Ok {| scheme := scheme; netloc := netloc; path := url;
            query := query; fragment := fragment |}
  end.

(** [_splitparams(url)] *)
Definition _splitparams (url : str) : str * str :=
  if contains "/" url then
    let i := find_at ";" url (rfind "/" url) in
    if i <? 0 then (url, []) else (upto url i, from url (i + 1))
  else
    let i := find ";" url in (upto url i, from url (i + 1)).

(** [urlparse(url).path] *)
Definition urlparse_path (url : str) : result str :=
  match urlsplit url with
  | Raise e => Raise e
  | Ok r =>
      Ok (if existsb (str_eqb (scheme r)) uses_params && contains ";" (path r)
          then fst (_splitparams (path r))
          else path r)
  end.

(** What [urlsplit] and [urlparse] cut a URL into, whether or not the
    network location passes the checks: the result when they return. *)
Definition components (url : str) : SplitResult :=
  let url := clean url in
  let '(scheme, url) := split_scheme url in
  let '(netloc, url) := split_netloc url in
  let '(url, fragment) := split_fragment url in
  let '(url, query) := split_query url in
  {| scheme := scheme; netloc := netloc; path := url;
     query := query; fragment := fragment |}.

Definition path_of (url : str) : str :=
  let r := components url in
  if existsb (str_eqb (scheme r)) uses_params && contains ";" (path r)
  then fst (_splitparams (path r))
  else path r.

End UrlParse.

(** ** [os.path] *)

Inductive os_flavour := posix | nt.

Module OsPath.
Import Py.

Definition sep (os : os_flavour) : ascii :=
  match os with posix => "/" | nt => "\" end%char.
Definition altsep (os : os_flavour) : option ascii :=
  match os with posix => None | nt => Some "/"%char end.
Definition extsep : ascii := "."%char.

Definition is_sep (os : os_flavour) (c : ascii) : bool :=
  Ascii.eqb c (sep os)
  || match altsep os with Some a => Ascii.eqb c a | None => false end.

(** The [while filenameIndex < dotIndex] loop of [genericpath._splitext];
    [n] counts the iterations that remain, [dotIndex - filenameIndex].
    [true] stands for the [return] inside the loop. *)
Fixpoint _splitext_loop (p : str) (n : nat) (filenameIndex : Z) : bool :=
  match n with
  | O => false
  | S n' =>
      if negb (str_eqb (slice p filenameIndex (filenameIndex + 1)) [extsep])
      then true
      else _splitext_loop p n' (filenameIndex + 1)
  end.

(** [genericpath._splitext(p, sep, altsep, extsep)] *)
Definition _splitext (p : str) (sep : ascii) (altsep : option ascii)
    (extsep : ascii) : str * str :=
  let sepIndex := rfind sep p in
  let sepIndex :=
    match altsep with
    | Some a => Z.max sepIndex (rfind a p)
    | None => sepIndex
    end in
  let dotIndex := rfind extsep p in
  if (sepIndex <? dotIndex)
     && _splitext_loop p (Z.to_nat (dotIndex - (sepIndex + 1))) (sepIndex + 1)
  then (upto p dotIndex, from p dotIndex)
  else (p, []).

Definition splitext (os : os_flavour) (p : str) : str * str :=
  _splitext p (sep os) (altsep os) extsep.

(** [ntpath.splitdrive] for a drive letter; POSIX paths have no drive.
    (Network shares and device paths, which start with two separators,
    are not told apart from plain directories: for them [join] below may
    put a separator where [ntpath.join] puts none.) *)
Definition splitdrive (os : os_flavour) (p : str) : str * str :=
  match os, p with
  | nt, a :: c :: rest =>
      if Ascii.eqb c ":" then ([a; c], rest) else ([], p)
  | _, _ => ([], p)
  end.

(** [os.path.join(a, b)] for a relative [b] without a drive: a separator
    is put in between unless the directory part of [a] is empty or ends
    with one. *)
Definition join (os : os_flavour) (a b : str) : str :=
  let '(drive, path) := splitdrive os a in
  match last path with
  | None => drive ++ b
  | Some c =>
      if is_sep os c then drive ++ path ++ b
      else drive ++ path ++ sep os :: b
  end.

End OsPath.

(** ** [_get_file_extension] *)

Section Extension.
Variable os : os_flavour.

Definition _get_file_extension (url : str) : result str :=
  match UrlParse.urlparse_path url with
  | Raise e => Raise e
  | Ok parsed_path =>
      Ok (Py.lower (Py.lstrip (Ascii.eqb ".")
                      (snd (OsPath.splitext os parsed_path))))
  end.

(** What [_get_file_extension] returns when [urlparse] does. *)
Definition extension_of (url : str) : str :=
  Py.lower (Py.lstrip (Ascii.eqb ".")
              (snd (OsPath.splitext os (UrlParse.path_of url)))).

End Extension.

(** ** openpyxl: the worksheet *)

Module Cell.
(** What the program reads of a cell: [c.row], [c.column] and the target
    of [c.hyperlink] when the cell has one. *)
Record t := { row : Z; column : Z; hyperlink : option str }.
End Cell.

Module Image.
(** [openpyxl.drawing.image.Image] *)
Record t := { path : str; width : Z; height : Z; anchor : str }.
End Image.

Module Openpyxl.

Record Worksheet := {
  _cells : gmap (positive * positive) (option str);
    (* (row, column), both from 1, to the cell's hyperlink target *)
  _images : list Image.t;
  column_dimensions : gmap str Z;      (* column letter to width *)
  row_dimensions : gmap Z Z            (* row to height *)
}.

Definition max_of (l : list positive) : Z :=
  match l with
  | [] => 1
  | x :: l' => Zpos (foldr Pos.max x l')
  end.

(** [ws.max_row] and [ws.max_column]: the largest coordinate among the
    keys of [_cells], 1 for a sheet without cells. Images do not count. *)
Definition max_row (ws : Worksheet) : Z :=
  max_of ((fun kv => fst (fst kv)) <$> map_to_list (_cells ws)).
Definition max_column (ws : Worksheet) : Z :=
  max_of ((fun kv => snd (fst kv)) <$> map_to_list (_cells ws)).

(** Python's [range(a, b)] *)
Definition range (a b : Z) : list Z := seqZ a (b - a).

(** [ws.cell(row, column)] for coordinates from 1 *)
Definition cell (ws : Worksheet) (row column : Z) : Cell.t :=
  {| Cell.row := row; Cell.column := column;
     Cell.hyperlink :=
       match row, column with
       | Zpos r, Zpos c => default None (_cells ws !! (r, c))
       | _, _ => None
       end |}.

(** [ws.iter_rows()]: rows 1 to [max_row], each over columns 1 to
    [max_column]. (The library also materialises the empty cells it
    visits; they lie inside the sheet's extent and carry no hyperlink, so
    neither extent nor hyperlinks change.) *)
Definition iter_rows (ws : Worksheet) : list (list Cell.t) :=
  (fun r => cell ws r <$> range 1 (max_column ws + 1))
    <$> range 1 (max_row ws + 1).

(** [ws[row]] for an integer [row]: that row over columns 1 to
    [max_column]. *)
Definition getitem (ws : Worksheet) (row : Z) : list Cell.t :=
  cell ws row <$> range 1 (max_column ws + 1).

Definition chr (n : Z) : ascii := ascii_of_N (Z.to_N n).

(** The [while col_idx > 0] loop of [_get_column_letter]; every turn
    makes [col_idx] smaller, so [col_idx] turns are enough. *)
Fixpoint _get_column_letter_loop (fuel : nat) (col_idx : Z)
    (letters : list ascii) : list ascii :=
  match fuel with
  | O => letters
  | S fuel' =>
      if 0 <? col_idx then
        let col_idx' := col_idx / 26 in
        let remainder := col_idx mod 26 in
        if remainder =? 0
        then _get_column_letter_loop fuel' (col_idx' - 1)
               (letters ++ [chr (26 + 64)])
        else _get_column_letter_loop fuel' col_idx'
               (letters ++ [chr (remainder + 64)])
      else letters
  end.

(** [openpyxl.utils.get_column_letter] *)
Definition get_column_letter (col_idx : Z) : result str :=
  if (1 <=? col_idx) && (col_idx <=? 18278)
  then Ok (rev (_get_column_letter_loop (Z.to_nat col_idx) col_idx []))
  else Raise (ValueError (py "Invalid column index " ++ Py.str_of_int col_idx)).

(** [ws.add_image(img, anchor)] *)
Definition add_image (ws : Worksheet) (img : Image.t) (anchor : str)
    : Worksheet :=
  {| _cells := _cells ws;
     _images := _images ws ++
       [ {| Image.path := Image.path img; Image.width := Image.width img;
            Image.height := Image.height img; Image.anchor := anchor |} ];
     column_dimensions := column_dimensions ws;
     row_dimensions := row_dimensions ws |}.

(** [ws.column_dimensions[letter].width = w] *)
Definition set_column_width (ws : Worksheet) (letter : str) (w : Z)
    : Worksheet :=
  {| _cells := _cells ws; _images := _images ws;
     column_dimensions := <[letter := w]> (column_dimensions ws);
     row_dimensions := row_dimensions ws |}.

(** [ws.row_dimensions[row].height = h] *)
Definition set_row_height (ws : Worksheet) (row : Z) (h : Z) : Worksheet :=
  {| _cells := _cells ws; _images := _images ws;
     column_dimensions := column_dimensions ws;
     row_dimensions := <[row := h]> (row_dimensions ws) |}.

(** [f"{get_column_letter(col)}{row}"] *)
Definition cell_ref (row col : Z) : result str :=
  match get_column_letter col with
  | Ok letter => Ok (letter ++ Py.str_of_int row)
  | Raise e => Raise e
  end.

Definition empty : Worksheet :=
  {| _cells := ∅; _images := []; column_dimensions := ∅;
     row_dimensions := ∅ |}.

End Openpyxl.
Import Openpyxl.

(** ** The world outside the process *)

(** [requests.Response]: the status line and what streaming the body
    yields, the chunks or the exception that interrupts it. *)
Record Response := {
  status_code : Z;
  iter_content : result (list str)
}.

(** A page as returned by [pdf2image]: its size in pixels. *)
Definition PilImage : Type := Z * Z.

(** What the outside answers to each call. An answer depends on the
    arguments of the call only: the world keeps no record of the files
    that were written, so nothing below says that a file that is read is
    the file that was written before. *)
Record World := {
  platform : os_flavour;
  os_makedirs : str -> result unit;
  os_listdir : str -> result (list str);
  xl_load_workbook : str -> result Worksheet;
  requests_get : str -> result Response;      (* [requests.get(url, timeout=15, stream=True)] *)
  open_wb : str -> result unit;               (* [open(path, 'wb')] and the writes to it *)
  convert_from_path : str -> str -> result (list PilImage);
  pil_save : PilImage -> str -> result unit;  (* [img.save(path, "JPEG")] *)
  image_open : str -> result (Z * Z);         (* [Image(path)]: the decoded size *)
  wb_save : str -> result unit;
  shutil_rmtree : str -> result unit
}.

Record Link := { link_cell : Cell.t; link_url : str; link_col : Z }.

Inductive log_event :=
| UnrecognizedType (url : str) (row col : Z)              (* warning *)
| SkippedVideo (url : str) (row col : Z)                  (* info *)
| UnsupportedType (ext : str) (row col : Z)               (* warning *)
| DownloadFailed (url : str) (e : exn) (row col : Z)      (* error *)
| ProcessingError (url : str) (e : exn) (row col : Z).    (* error *)

(** What the process does to the outside, in order. *)
Inductive event :=
| EMakedirs (p : str)
| EListdir (p : str)
| ELoadWorkbook (p : str)
| ESubmit (link : Link) (row col : Z)
| EGet (url : str)
| EOpenWrite (p : str)
| EConvert (p : str)
| ESavePage (p : str)
| EImageOpen (p : str)
| ELog (l : log_event)
| ESaveWorkbook (p : str)
| ERmtree (p : str).

(** ** State and exceptions *)

Record state := { ws : Worksheet; trace : list event }.

Definition M (A : Type) : Type := state -> state * result A.

Definition ret {A} (a : A) : M A := fun st => (st, Ok a).

Definition bind {A B} (m : M A) (k : A -> M B) : M B :=
  fun st =>
    match m st with
    | (st', Ok a) => k a st'
    | (st', Raise e) => (st', Raise e)
    end.

Definition raise {A} (e : exn) : M A := fun st => (st, Raise e).

(** [try: m  except Exception as e: h e] *)
Definition try_except {A} (m : M A) (h : exn -> M A) : M A :=
  fun st =>
    match m st with
    | (st', Ok a) => (st', Ok a)
    | (st', Raise e) => h e st'
    end.

Notation "x <- m ;; k" := (bind m (fun x => k))
  (at level 100, m at next level, k at level 200, right associativity).
Notation "m ;; k" := (bind m (fun _ => k))
  (at level 100, k at level 200, right associativity).

Definition emit (e : event) : M unit :=
  fun st => ({| ws := ws st; trace := trace st ++ [e] |}, Ok tt).

Definition get_ws : M Worksheet := fun st => (st, Ok (ws st)).

Definition modify_ws (f : Worksheet -> Worksheet) : M unit :=
  fun st => ({| ws := f (ws st); trace := trace st |}, Ok tt).

Definition lift {A} (r : result A) : M A := fun st => (st, r).

(** An external call: it is recorded, then it returns or raises. *)
Definition call {A} (e : event) (r : result A) : M A := emit e ;; lift r.

(** [for x in l: body x] *)
Fixpoint for_each {A} (l : list A) (body : A -> M unit) : M unit :=
  match l with
  | [] => ret tt
  | x :: l' => body x ;; for_each l' body
  end.

(** [enumerate(l, start)] *)
Fixpoint enumerate {A} (start : Z) (l : list A) : list (Z * A) :=
  match l with
  | [] => []
  | x :: l' => (start, x) :: enumerate (start + 1) l'
  end.

Definition mem (x : str) (l : list str) : bool := existsb (Py.str_eqb x) l.

(** ** The program *)

Section Program.
Variable world : World.

Definition logging (l : log_event) : M unit := emit (ELog l).

(** [_group_hyperlinks]: the dict keeps its keys in insertion order. *)
Fixpoint dict_append (d : list (Z * list Link)) (row : Z) (l : Link)
    : list (Z * list Link) :=
  match d with
  | [] => [(row, [l])]
  | (r, ls) :: d' =>
      if r =? row then (r, ls ++ [l]) :: d'
      else (r, ls) :: dict_append d' row l
  end.

Definition _group_hyperlinks (ws : Worksheet) : list (Z * list Link) :=
  fold_left
    (fun row_hyperlinks cell =>
       fold_left
         (fun row_hyperlinks c =>
            match Cell.hyperlink c with
            | Some target =>
                dict_append row_hyperlinks (Cell.row c)
                  {| link_cell := c; link_url := target;
                     link_col := Cell.column c |}
            | None => row_hyperlinks
            end)
         cell row_hyperlinks)
    (iter_rows ws) [].

(** [links.sort(key=lambda x: x["col"])]: a stable sort *)
Fixpoint insert_by_col (x : Link) (l : list Link) : list Link :=
  match l with
  | [] => [x]
  | y :: l' =>
      if link_col x <=? link_col y then x :: y :: l'
      else y :: insert_by_col x l'
  end.

Definition sort_by_col (l : list Link) : list Link :=
  foldr insert_by_col [] l.

Definition _find_insert_start_col (ws : Worksheet) (row link_count : Z) : Z :=
  let max_hyperlink_col :=
    if 0 <? link_count then
      fold_left
        (fun max_hyperlink_col cell =>
           match Cell.hyperlink cell with
           | Some _ => Z.max max_hyperlink_col (Cell.column cell)
           | None => max_hyperlink_col
           end)
        (getitem ws row) 0
    else 0 in
  max_hyperlink_col + 1.

Definition required_files : list str :=
  [ "pdftoppm.exe" : str; "pdfinfo.exe" : str ].

(** The message of the exception. Python prints the names as a set, in
    an order that is not fixed; here they are only put after the
    prefix. *)
Definition missing_message (missing_files : list str) : str :=
  py "Missing critical Poppler files: " ++ concat missing_files.

Definition _validate_poppler (poppler_path : str) : M unit :=
  poppler_bin <- call (EListdir poppler_path) (os_listdir world poppler_path) ;;
  let missing_files :=
    List.filter (fun f => negb (mem f poppler_bin)) required_files in
  match missing_files with
  | [] => ret tt
  | _ :: _ => raise (FileNotFoundError (missing_message missing_files))
  end.

(** [response.raise_for_status()]: an exception of [requests] for a
    status from 400 to 599. Of its message, which also holds the reason
    phrase and the URL, only the status is kept. *)
Definition raise_for_status (response : Response) : M unit :=
  if (400 <=? status_code response) && (status_code response <? 600)
  then raise (RequestException (Py.str_of_int (status_code response)))
  else ret tt.

Definition _insert_image (img_path : str) (row col : Z) : M unit :=
  size <- call (EImageOpen img_path) (image_open world img_path) ;;
  let img :=
    {| Image.path := img_path; Image.width := fst size;
       Image.height := snd size; Image.anchor := "A1" |} in
  let img :=
    {| Image.path := Image.path img; Image.width := 180;
       Image.height := 120; Image.anchor := Image.anchor img |} in
  cell_ref <- lift (cell_ref row col) ;;
  modify_ws (fun ws => add_image ws img cell_ref).

Definition scratch_name (row col : Z) (ext : str) : str :=
  py "row" ++ Py.str_of_int row ++ py "_col" ++ Py.str_of_int col
    ++ py "." ++ ext.

Definition page_name (row col page_num : Z) : str :=
  py "row" ++ Py.str_of_int row ++ py "_col" ++ Py.str_of_int col
    ++ py "_p" ++ Py.str_of_int page_num ++ py ".jpg".

Definition scratch_path (temp_dir : str) (row col : Z) (ext : str) : str :=
  OsPath.join (platform world) temp_dir (scratch_name row col ext).

Definition page_path (temp_dir : str) (row col page_num : Z) : str :=
  OsPath.join (platform world) temp_dir (page_name row col page_num).

Definition raster_exts : list str := [ "jpg" : str; "jpeg" : str; "png" : str ].

(** The body of [for page_num, img in enumerate(images, start=1)] *)
Definition _process_single_link_page (link : Link) (row start_col : Z)
    (temp_dir : str) : Z * PilImage -> M unit :=
  fun '(page_num, img) =>
    let img_path := page_path temp_dir row (link_col link) page_num in
    call (ESavePage img_path) (pil_save world img img_path) ;;
    _insert_image img_path row (start_col + page_num - 1).

(** The [try] block of [_process_single_link] *)
Definition _process_single_link_try (link : Link) (row start_col : Z)
    (temp_dir poppler_path : str) (video_exts : list str) : M unit :=
  response <- call (EGet (link_url link)) (requests_get world (link_url link)) ;;
  raise_for_status response ;;
  ext <- lift (_get_file_extension (platform world) (link_url link)) ;;
  match ext with
  | [] => logging (UnrecognizedType (link_url link) row (link_col link))
  | _ :: _ =>
    if mem ext video_exts then
      logging (SkippedVideo (link_url link) row (link_col link))
    else
      let file_path := scratch_path temp_dir row (link_col link) ext in
      call (EOpenWrite file_path) (open_wb world file_path) ;;
      _ <- lift (iter_content response) ;;
      if Py.str_eqb ext "pdf" then
        images <- call (EConvert file_path)
                    (convert_from_path world file_path poppler_path) ;;
        for_each (enumerate 1 images)
          (_process_single_link_page link row start_col temp_dir)
      else if mem ext raster_exts then
        _insert_image file_path row start_col
      else
        logging (UnsupportedType ext row (link_col link))
  end.

(** Its two [except] clauses *)
Definition _process_single_link_except (link : Link) (row : Z) (e : exn)
    : M unit :=
  match e with
  | RequestException _ =>
      logging (DownloadFailed (link_url link) e row (link_col link))
  | _ =>
      logging (ProcessingError (link_url link) e row (link_col link))
  end.

Definition _process_single_link (link : Link) (row start_col : Z)
    (temp_dir poppler_path : str) (video_exts : list str) : M unit :=
  try_except
    (_process_single_link_try link row start_col temp_dir poppler_path
       video_exts)
    (_process_single_link_except link row).

Definition _adjust_dimensions : M unit :=
  ws0 <- get_ws ;;
  for_each (range 1 (max_column ws0 + 1))
    (fun col =>
       letter <- lift (get_column_letter col) ;;
       modify_ws (fun ws => set_column_width ws letter 25)) ;;
  ws1 <- get_ws ;;
  for_each (range 1 (max_row ws1 + 1))
    (fun row => modify_ws (fun ws => set_row_height ws row 120)).

(** [executor.submit(f, ...)]: the task runs on a pool thread and what it
    raises stays in its future, which nobody reads. The model runs the
    task at its submission, which is one of the schedules of the pool;
    tasks only append to [_images] and to the trace, so another schedule
    interleaves these appends. The submissions themselves are made by
    the loop of the main thread, in its order; in which order the events
    and the images of different tasks follow each other is left open by
    the pool, and the properties of a whole dispatch do not speak of
    it. *)
Definition submit (link : Link) (row col : Z) (task : M unit) : M unit :=
  emit (ESubmit link row col) ;;
  fun st => (fst (task st), Ok tt).

(** The body of [for row, links in row_hyperlinks.items()] *)
Definition dispatch_row (temp_dir poppler_path : str)
    (video_exts : list str) (item : Z * list Link) : M unit :=
  let '(row, links) := item in
  let links := sort_by_col links in
  ws0 <- get_ws ;;
  let start_col :=
    _find_insert_start_col ws0 row (Z.of_nat (length links)) in
  for_each (enumerate 0 links)
    (fun '(idx, link) =>
       submit link row (start_col + idx)
         (_process_single_link link row (start_col + idx)
            temp_dir poppler_path video_exts)).

(** The [with ThreadPoolExecutor(...)] block *)
Definition dispatch_all (temp_dir poppler_path : str)
    (video_exts : list str) (row_hyperlinks : list (Z * list Link))
    : M unit :=
  for_each row_hyperlinks (dispatch_row temp_dir poppler_path video_exts).

Definition video_exts : list str :=
  [ "mp4" : str; "avi" : str; "mov" : str; "mkv" : str; "wmv" : str ].

(** [ThreadPoolExecutor(max_workers=max_workers)]: the pool refuses a
    number of workers that is not positive. *)
Definition ThreadPoolExecutor (max_workers : Z) : M unit :=
  if max_workers <=? 0
  then raise (ValueError "max_workers must be greater than 0")
  else ret tt.

Definition process_excel_hyperlinks
    (excel_path output_path temp_dir poppler_path : str) (max_workers : Z)
    : M unit :=
  call (EMakedirs temp_dir) (os_makedirs world temp_dir) ;;
  _validate_poppler poppler_path ;;
  wb <- call (ELoadWorkbook excel_path) (xl_load_workbook world excel_path) ;;
  modify_ws (fun _ => wb) ;;
  ws0 <- get_ws ;;
  let row_hyperlinks := _group_hyperlinks ws0 in
  ThreadPoolExecutor max_workers ;;
  dispatch_all temp_dir poppler_path video_exts row_hyperlinks ;;
  _adjust_dimensions ;;
  call (ESaveWorkbook output_path) (wb_save world output_path) ;;
  call (ERmtree temp_dir) (shutil_rmtree world temp_dir).

End Program.

(** The state before [process_excel_hyperlinks] is called: no workbook is
    loaded yet and nothing has happened. *)
Definition initial : state := {| ws := Openpyxl.empty; trace := [] |}.

(** ** What a run leaves behind *)

Definition images (st : state) : list Image.t := _images (ws st).

(** The image [_insert_image] anchors: stored size 180 by 120. *)
Definition thumb (p a : str) : Image.t :=
  {| Image.path := p; Image.width := 180; Image.height := 120;
     Image.anchor := a |}.

Definition record (e : event) (st : state) : state :=
  {| ws := ws st; trace := trace st ++ [e] |}.

Definition embed (img : Image.t) (st : state) : state :=
  {| ws := add_image (ws st) img (Image.anchor img); trace := trace st |}.

(** Scratch files opened for writing, URLs requested, tasks submitted and
    log records, each in the order of the trace. *)
Definition writes (tr : list event) : list str :=
  omap (fun e => match e with
                 | EOpenWrite p | ESavePage p => Some p
                 | _ => None
                 end) tr.
Definition gets (tr : list event) : list str :=
  omap (fun e => match e with EGet u => Some u | _ => None end) tr.
Definition submits (tr : list event) : list (Link * Z * Z) :=
  omap (fun e => match e with ESubmit l r c => Some (l, r, c) | _ => None end) tr.
Definition logs (tr : list event) : list log_event :=
  omap (fun e => match e with ELog l => Some l | _ => None end) tr.

(** [st'] is [st] with the events [evs] recorded and the images [imgs]
    anchored, and nothing else changed. *)
Record extends (st st' : state) (evs : list event) (imgs : list Image.t)
    : Prop := {
  ext_trace : trace st' = trace st ++ evs;
  ext_images : images st' = images st ++ imgs;
  ext_cells : _cells (ws st') = _cells (ws st);
  ext_columns : column_dimensions (ws st') = column_dimensions (ws st);
  ext_rows : row_dimensions (ws st') = row_dimensions (ws st)
}.

Definition bad_status (response : Response) : bool :=
  (400 <=? status_code response) && (status_code response <? 600).

(** The record an [except] clause of the worker logs for [e]. *)
Definition error_record (link : Link) (row : Z) (e : exn) : log_event :=
  match e with
  | RequestException _ => DownloadFailed (link_url link) e row (link_col link)
  | _ => ProcessingError (link_url link) e row (link_col link)
  end.

(** ** The hyperlinks of a sheet *)

(** The descriptor [_group_hyperlinks] builds for a hyperlinked cell. *)
Definition link_of (c : Cell.t) : option Link :=
  (fun target => {| link_cell := c; link_url := target; link_col := Cell.column c |})
    <$> Cell.hyperlink c.

(** The descriptors of the hyperlinked cells of a row, left to right. *)
Definition row_links (ws : Worksheet) (row : Z) : list Link :=
  omap link_of (getitem ws row).

(** Cell [(row, col)] of the sheet carries a hyperlink. *)
Definition hyperlinked (ws : Worksheet) (row col : Z) : Prop :=
  is_Some (Cell.hyperlink (cell ws row col)).

Definition group_of (ws : Worksheet) (row : Z) : option (Z * list Link) :=
  match row_links ws row with
  | [] => None
  | l :: ls => Some (row, l :: ls)
  end.

Definition keys (d : list (Z * list Link)) : list Z := fst <$> d.

(** What [_group_hyperlinks] does with one cell. *)
Definition group_step (row_hyperlinks : list (Z * list Link)) (c : Cell.t)
    : list (Z * list Link) :=
  match Cell.hyperlink c with
  | Some target =>
      dict_append row_hyperlinks (Cell.row c)
        {| link_cell := c; link_url := target; link_col := Cell.column c |}
  | None => row_hyperlinks
  end.

(** ** Tasks and their scratch files *)

(** The scratch files a worker may open for the link of cell
    [(row, link_col link)]: none, or the download followed by the first
    pages of its PDF. *)
Definition link_writes (world : World) (temp_dir : str) (row : Z) (link : Link)
    (w : list str) : Prop :=
  w = [] \/
  exists ext (j : nat),
    _get_file_extension (platform world) (link_url link) = Ok ext /\
    w = scratch_path world temp_dir row (link_col link) ext
        :: (page_path world temp_dir row (link_col link) <$> seqZ 1 (Z.of_nat j)).

(** The tasks of one row and of the whole sheet, in submission order:
    link, row, target column. *)
Definition row_plan (ws : Worksheet) (item : Z * list Link) : list (Link * Z * Z) :=
  let links := sort_by_col (snd item) in
  let start_col := _find_insert_start_col ws (fst item) (Z.of_nat (length links)) in
  (fun '(idx, link) => (link, fst item, start_col + idx)) <$> enumerate 0 links.

Definition plan (ws : Worksheet) (row_hyperlinks : list (Z * list Link))
    : list (Link * Z * Z) :=
  row_hyperlinks ≫= row_plan ws.

Definition task_writes (world : World) (temp_dir : str) (t : Link * Z * Z)
    (w : list str) : Prop :=
  link_writes world temp_dir (snd (fst t)) (fst (fst t)) w.

Definition task_url (t : Link * Z * Z) : str := link_url (fst (fst t)).

(** A character of a printed integer: a digit or the sign. *)
Definition int_char (c : ascii) : bool := Py.is_digit c || Ascii.eqb c "-".

(** Path [p] is a scratch file of the link of cell [(row, col)]: its
    download, whatever the extension, or one of its pages. *)
Definition scratch_of (world : World) (temp_dir : str) (row col : Z) (p : str)
    : Prop :=
  (exists e, p = scratch_path world temp_dir row col e) \/
  (exists k, p = page_path world temp_dir row col k).

(** The cell of a task: its row and the column of its link. *)
Definition task_key (t : Link * Z * Z) : Z * Z :=
  (snd (fst t), link_col (fst (fst t))).

(** The events recorded between [st] and a later [st']. *)
Definition since (st st' : state) : list event :=
  drop (length (trace st)) (trace st').

(** The reading of the allocator's contract that the code does not
    meet: [s] is the first column from which [n] columns in a row hold no
    hyperlink of that row. *)
Definition block_free (sheet : Worksheet) (row n s : Z) : Prop :=
  forall i, 0 <= i < n -> ~ hyperlinked sheet row (s + i).

Definition first_free_block (sheet : Worksheet) (row n s : Z) : Prop :=
  block_free sheet row n s /\
  forall s', 1 <= s' < s -> ~ block_free sheet row n s'.




(** ** Paths and extensions *)



(** The index [_splitext] takes for the last separator. *)
Definition sep_index (os : os_flavour) (p : str) : Z :=
  match OsPath.altsep os with
  | Some a => Z.max (Py.rfind (OsPath.sep os) p) (Py.rfind a p)
  | None => Py.rfind (OsPath.sep os) p
  end.

Definition no_sep (os : os_flavour) (s : str) : Prop :=
  forall c, In c s -> OsPath.is_sep os c = false.



(** [m] opens the query or the fragment of a URL. *)
Definition is_mark (m : ascii) : Prop := m = "?"%char \/ m = "#"%char.

(** The text holds neither [?] nor [#]. *)
Definition no_mark (s : str) : Prop := ~ In "?"%char s /\ ~ In "#"%char s.

(** How many records of one kind a trace holds. *)
Definition count_logs (p : log_event -> bool) (tr : list event) : nat :=
  length (List.filter p (logs tr)).

Definition is_unrecognized (l : log_event) : bool :=
  match l with UnrecognizedType _ _ _ => true | _ => false end.

(** The reading of "a failed link is a no-op" that the page loop
    contradicts: once the [try] block raises, no image of that link is in
    the sheet. *)
Definition failure_leaves_no_image (world : World) (link : Link)
    (row start_col : Z) (temp_dir poppler_path : str) (st : state) : Prop :=
  forall st1 e,
    _process_single_link_try world link row start_col temp_dir poppler_path
      video_exts st = (st1, Raise e) ->
    images (fst (_process_single_link world link row start_col temp_dir
                   poppler_path video_exts st)) = images st.

(** "A link without extension yields one UnrecognizedType record",
    with no condition on the fetch. *)
Definition extensionless_is_logged (world : World) (link : Link)
    (row start_col : Z) (temp_dir poppler_path : str) (st : state) : Prop :=
  _get_file_extension (platform world) (link_url link) = Ok [] ->
  count_logs is_unrecognized
    (trace (fst (_process_single_link world link row start_col temp_dir
                   poppler_path video_exts st)))
  = S (count_logs is_unrecognized (trace st)).

(** "A PDF link that is fetched and rasterised to [k] pages gets [k]
    images", with no condition on what happens to the pages. *)
Definition every_page_is_embedded (world : World) (link : Link)
    (row start_col : Z) (temp_dir poppler_path : str) (st : state) : Prop :=
  forall response chunks pages,
    _get_file_extension (platform world) (link_url link) = Ok (py "pdf") ->
    requests_get world (link_url link) = Ok response ->
    bad_status response = false ->
    open_wb world (scratch_path world temp_dir row (link_col link) "pdf") = Ok tt ->
    iter_content response = Ok chunks ->
    convert_from_path world
      (scratch_path world temp_dir row (link_col link) "pdf") poppler_path
      = Ok pages ->
    exists imgs,
      images (fst (_process_single_link world link row start_col temp_dir
                     poppler_path video_exts st)) = images st ++ imgs /\
      length imgs = length pages.

(** "A JPG or PNG link that is fetched gets one image", with no
    condition on the file that was fetched. *)
Definition fetched_raster_is_embedded (world : World) (link : Link)
    (row start_col : Z) (temp_dir poppler_path : str) (st : state) : Prop :=
  forall ext response chunks,
    _get_file_extension (platform world) (link_url link) = Ok ext ->
    mem ext raster_exts = true ->
    requests_get world (link_url link) = Ok response ->
    bad_status response = false ->
    open_wb world (scratch_path world temp_dir row (link_col link) ext) = Ok tt ->
    iter_content response = Ok chunks ->
    exists img,
      images (fst (_process_single_link world link row start_col temp_dir
                     poppler_path video_exts st)) = images st ++ [img].

(** ** Concrete sheets and worlds *)

Definition sheet_of (links : list (positive * positive * string)) : Worksheet :=
  {| _cells :=
       list_to_map ((fun x => (fst x, Some (py (snd x)))) <$> links);
     _images := []; column_dimensions := ∅; row_dimensions := ∅ |}.

Definition link_at (row col : Z) (u : string) : Link :=
  {| link_cell := {| Cell.row := row; Cell.column := col;
                     Cell.hyperlink := Some (py u) |};
     link_url := py u; link_col := col |}.

Definition ok_response : Response :=
  {| status_code := 200; iter_content := Ok [] |}.

(** A Windows host with poppler installed, where every file operation
    succeeds, every PDF has the pages [pages] and every image decodes to
    640 by 480. *)
Definition example_world (sheet : Worksheet) (get : str -> result Response)
    (pages : list PilImage) (save : PilImage -> str -> result unit) : World :=
  {| platform := nt;
     os_makedirs := fun _ => Ok tt;
     os_listdir := fun _ => Ok [ "pdfinfo.exe" : str; "pdftoppm.exe" : str ];
     xl_load_workbook := fun _ => Ok sheet;
     requests_get := get;
     open_wb := fun _ => Ok tt;
     convert_from_path := fun _ _ => Ok pages;
     pil_save := save;
     image_open := fun _ => Ok (640, 480);
     wb_save := fun _ => Ok tt;
     shutil_rmtree := fun _ => Ok tt |}.

Definition fair_world (sheet : Worksheet) (pages : list PilImage) : World :=
  example_world sheet (fun _ => Ok ok_response) pages (fun _ _ => Ok tt).

(** The second page of the PDF of cell A1 cannot be saved. *)
Definition disk_full_world : World :=
  example_world Openpyxl.empty (fun _ => Ok ok_response) [ (10, 20); (10, 20) ]
    (fun _ p =>
       if Py.str_eqb p (OsPath.join nt "tmp" (page_name 1 1 2))
       then Raise (OSError "No space left on device") else Ok tt).

(** Every download is stored, and none of the stored files is an image
    that can be decoded. *)
Definition undecodable_world : World :=
  {| platform := nt;
     os_makedirs := fun _ => Ok tt;
     os_listdir := fun _ => Ok [ "pdfinfo.exe" : str; "pdftoppm.exe" : str ];
     xl_load_workbook := fun _ => Ok Openpyxl.empty;
     requests_get := fun _ => Ok ok_response;
     open_wb := fun _ => Ok tt;
     convert_from_path := fun _ _ => Ok [];
     pil_save := fun _ _ => Ok tt;
     image_open := fun _ => Raise (OSError "cannot identify image file");
     wb_save := fun _ => Ok tt;
     shutil_rmtree := fun _ => Ok tt |}.

(** Every request times out. *)
Definition offline_world : World :=
  example_world Openpyxl.empty
    (fun _ => Raise (RequestException "Read timed out")) [] (fun _ _ => Ok tt).

(** A row whose only hyperlink is in B1. *)
Definition hole_sheet : Worksheet := sheet_of [ (1, 2, "http://h/a.png") ]%positive.

(** A row with hyperlinks in B1 and D1. *)
Definition gap_sheet : Worksheet :=
  sheet_of [ (1, 2, "http://h/a.png"); (1, 4, "http://h/b.pdf") ]%positive.

Definition two_pages : list PilImage := [ (10, 20); (10, 20) ].


(** The state once [sheet] is loaded and nothing has happened yet. *)
Definition loaded (sheet : Worksheet) : state := {| ws := sheet; trace := [] |}.

(** ** What the further properties speak of *)

(** The hyperlinked cells of a sheet, row by row and left to right. *)
Definition hyperlinked_cells (ws : Worksheet) : list (Z * Z) :=
  r ← range 1 (max_row ws + 1);
  (fun c => (r, c)) <$>
    List.filter (fun c => bool_decide (hyperlinked ws r c))
      (range 1 (max_column ws + 1)).

(** The number a column name stands for, its letters taken from the last
    one to the first: [A] to [Z] are the digits 1 to 26 of a numeral in
    base 26 without zero. *)
Definition letter_value (c : ascii) : Z := Z.of_N (N_of_ascii c) - 64.
Definition column_value (letters : list ascii) (rest : Z) : Z :=
  foldr (fun x n => letter_value x + 26 * n) rest letters.

(** The largest number that [n] letters can stand for: 26, 702, 18278. *)
Fixpoint letters_bound (n : nat) : Z :=
  match n with
  | O => 0
  | S n' => 26 * letters_bound n' + 26
  end.

(** The anchor text [a] names the cell [(row, col)]: it is the letters
    of the column, which read as a numeral give [col], followed by the
    printed row, and it is the anchor of no other cell. *)
Definition names_cell (a : str) (row col : Z) : Prop :=
  (exists letters,
     get_column_letter col = Ok letters /\
     a = letters ++ Py.str_of_int row /\
     column_value (rev letters) 0 = col) /\
  forall r c, cell_ref r c = Ok a -> r = row /\ c = col.

(** Page [k] of a PDF, counted from 1, can be embedded: it is saved as
    a JPEG, the saved file decodes, and its target column
    [start_col + k - 1] has a letter. *)
Definition page_embeds (world : World) (temp_dir : str) (link : Link)
    (row start_col k : Z) (img : PilImage) : Prop :=
  pil_save world img (page_path world temp_dir row (link_col link) k) = Ok tt /\
  (exists sz,
     image_open world (page_path world temp_dir row (link_col link) k) = Ok sz) /\
  1 <= start_col + k - 1 <= 18278.

(** Page [k] cannot be embedded, and [e] is what is raised for it: by
    saving it, by decoding the saved file, or by the column, which has
    no letter. *)
Definition page_raises (world : World) (temp_dir : str) (link : Link)
    (row start_col k : Z) (img : PilImage) (e : exn) : Prop :=
  let p := page_path world temp_dir row (link_col link) k in
  pil_save world img p = Raise e \/
  (pil_save world img p = Ok tt /\ image_open world p = Raise e) \/
  (pil_save world img p = Ok tt /\ (exists sz, image_open world p = Ok sz) /\
   cell_ref row (start_col + k - 1) = Raise e).

(** [m] only adds events to the trace, all of them of the kind [P]. *)
Definition emits_only {A} (P : event -> Prop) (m : M A) : Prop :=
  forall st, exists evs, trace (fst (m st)) = trace st ++ evs /\ Forall P evs.

(** What a worker does to the outside, and what the dispatch loop does. *)
Definition worker_event (e : event) : Prop :=
  match e with
  | EGet _ | EOpenWrite _ | EConvert _ | ESavePage _ | EImageOpen _ | ELog _ => True
  | _ => False
  end.

Definition pool_event (e : event) : Prop :=
  match e with
  | ESubmit _ _ _ => True
  | _ => worker_event e
  end.

(** The target slot of a task: its row and the column it was given. *)
Definition task_slot (t : Link * Z * Z) : Z * Z := (snd (fst t), snd t).

(** The images a task may add from the slot [(row, col)]: image [i] is a
    thumbnail anchored [i] columns to the right of the slot. *)
Definition slot_images (row col : Z) (imgs : list Image.t) : Prop :=
  forall i img, imgs !! i = Some img ->
    exists p a, cell_ref row (col + Z.of_nat i) = Ok a /\ img = thumb p a.

(** There are as many as one image, or as the pages of a PDF that was
    rasterised. *)
Definition task_images (world : World) (t : Link * Z * Z) (imgs : list Image.t)
    : Prop :=
  slot_images (fst (task_slot t)) (snd (task_slot t)) imgs /\
  ((length imgs <= 1)%nat \/
   exists p q pages, convert_from_path world p q = Ok pages /\
                     (length imgs <= length pages)%nat).


(* ================================================================== *)
(** * Properties *)
(* ================================================================== *)

Ltac ext_solve :=
  split; unfold images, embed, record, add_image; simpl;
  rewrite <- ?app_assoc, ?app_nil_r; reflexivity.

Ltac leaf :=
  simpl; split_and!; eauto;
  try ext_solve; try discriminate;
  try (right; exists 0%nat; reflexivity).

Section MonadFacts.

Lemma extends_refl st : extends st st [] [].
Proof. ext_solve. Qed.

Lemma extends_trans st1 st2 st3 e1 e2 i1 i2 :
  extends st1 st2 e1 i1 -> extends st2 st3 e2 i2 ->
  extends st1 st3 (e1 ++ e2) (i1 ++ i2).
Proof. intros [] []. split; rewrite ?app_assoc; congruence. Qed.

Lemma writes_app a b : writes (a ++ b) = writes a ++ writes b.
Proof. apply omap_app. Qed.
Lemma gets_app a b : gets (a ++ b) = gets a ++ gets b.
Proof. apply omap_app. Qed.
Lemma submits_app a b : submits (a ++ b) = submits a ++ submits b.
Proof. apply omap_app. Qed.
Lemma logs_app a b : logs (a ++ b) = logs a ++ logs b.
Proof. apply omap_app. Qed.

Lemma for_each_cons {A} (x : A) l body st :
  for_each (x :: l) body st =
  match body x st with
  | (st', Ok _) => for_each l body st'
  | (st', Raise e) => (st', Raise e)
  end.
Proof. reflexivity. Qed.

End MonadFacts.

Section UrlFacts.

(** [urlsplit] raises what the check of the network location raises,
    and returns the components otherwise. *)
Lemma urlsplit_eq url :
  UrlParse.urlsplit url =
  match UrlParse.check_netloc (UrlParse.netloc (UrlParse.components url)) with
  | Raise e => Raise e
  | Ok _ => Ok (UrlParse.components url)
  end.
Proof.
  unfold UrlParse.urlsplit, UrlParse.components.
  destruct (UrlParse.split_scheme _) as [scheme rest].
  destruct (UrlParse.split_netloc _) as [netloc rest'].
  destruct (UrlParse.split_fragment _) as [u fragment].
  destruct (UrlParse.split_query _) as [p query]. cbn [UrlParse.netloc].
  by destruct (UrlParse.check_netloc netloc).
Qed.

Lemma urlparse_path_eq url :
  UrlParse.urlparse_path url =
  match UrlParse.check_netloc (UrlParse.netloc (UrlParse.components url)) with
  | Raise e => Raise e
  | Ok _ => Ok (UrlParse.path_of url)
  end.
Proof.
  unfold UrlParse.urlparse_path. rewrite urlsplit_eq.
  by destruct (UrlParse.check_netloc _).
Qed.

Lemma get_file_extension_eq os url :
  _get_file_extension os url =
  match UrlParse.check_netloc (UrlParse.netloc (UrlParse.components url)) with
  | Raise e => Raise e
  | Ok _ => Ok (extension_of os url)
  end.
Proof.
  unfold _get_file_extension. rewrite urlparse_path_eq.
  by destruct (UrlParse.check_netloc _).
Qed.

Lemma get_file_extension_ok os url e :
  _get_file_extension os url = Ok e -> e = extension_of os url.
Proof.
  rewrite get_file_extension_eq. destruct (UrlParse.check_netloc _); congruence.
Qed.

(** What the checks raise is a [ValueError]. *)
Lemma check_netloc_raises netloc e :
  UrlParse.check_netloc netloc = Raise e -> exists msg, e = ValueError msg.
Proof.
  unfold UrlParse.check_netloc, UrlParse._check_bracketed_netloc,
    UrlParse._check_bracketed_host, IpAddress.ip_address.
  repeat match goal with
         | |- context [if ?b then _ else _] => destruct b
         | |- context [let '(_, _) := ?p in _] => destruct p
         | |- context [match ?p with (_, _) => _ end] => destruct p
         end; intros [= <-]; eauto.
Qed.

Lemma get_file_extension_raises os url e :
  _get_file_extension os url = Raise e -> exists msg, e = ValueError msg.
Proof.
  rewrite get_file_extension_eq.
  destruct (UrlParse.check_netloc _) eqn:Hc; [done|].
  intros [= <-]. by apply check_netloc_raises in Hc.
Qed.

End UrlFacts.

Section GroupFacts.

Lemma dict_append_fresh d r l :
  r ∉ keys d -> dict_append d r l = d ++ [(r, [l])].
Proof.
  induction d as [|[r' ls] d IH]; intros Hr; [done|]. simpl.
  apply not_elem_of_cons in Hr as [Hne Hr]. simpl in Hne.
  destruct (Z.eqb_spec r' r); [congruence|]. by rewrite IH.
Qed.

Lemma dict_append_last d r ls l :
  r ∉ keys d -> dict_append (d ++ [(r, ls)]) r l = d ++ [(r, ls ++ [l])].
Proof.
  induction d as [|[r' ls'] d IH]; intros Hr; simpl.
  - by rewrite Z.eqb_refl.
  - apply not_elem_of_cons in Hr as [Hne Hr]. simpl in Hne.
    destruct (Z.eqb_spec r' r); [congruence|]. by rewrite IH.
Qed.

Lemma group_row_started cells : forall d r ls,
  r ∉ keys d -> Forall (fun c => Cell.row c = r) cells ->
  fold_left group_step cells (d ++ [(r, ls)]) = d ++ [(r, ls ++ omap link_of cells)].
Proof.
  induction cells as [|c cells IH]; intros d r ls Hr Hall; simpl.
  - by rewrite app_nil_r.
  - apply Forall_cons in Hall as [Hc Hall].
    unfold group_step at 2, link_of. destruct (Cell.hyperlink c) as [t|]; simpl.
    + rewrite Hc, dict_append_last, IH by done. by rewrite <- app_assoc.
    + by apply IH.
Qed.

Lemma group_row cells : forall d r,
  r ∉ keys d -> Forall (fun c => Cell.row c = r) cells ->
  fold_left group_step cells d =
  d ++ match omap link_of cells with [] => [] | l :: ls => [(r, l :: ls)] end.
Proof.
  induction cells as [|c cells IH]; intros d r Hr Hall; simpl.
  - by rewrite app_nil_r.
  - apply Forall_cons in Hall as [Hc Hall].
    unfold group_step at 2, link_of. destruct (Cell.hyperlink c) as [t|]; simpl.
    + rewrite Hc, dict_append_fresh, group_row_started by done. done.
    + by apply IH.
Qed.

Lemma getitem_rows ws r : Forall (fun c => Cell.row c = r) (getitem ws r).
Proof. unfold getitem. apply Forall_fmap, Forall_true. done. Qed.

Lemma group_rows ws rows : forall d,
  NoDup rows -> (forall r, r ∈ rows -> r ∉ keys d) ->
  fold_left (fun d cells => fold_left group_step cells d) (getitem ws <$> rows) d =
  d ++ omap (group_of ws) rows.
Proof.
  induction rows as [|r rows IH]; intros d Hnd Hfresh; simpl.
  - by rewrite app_nil_r.
  - apply NoDup_cons in Hnd as [Hr Hnd].
    rewrite (group_row _ d r); [| apply Hfresh; left | apply getitem_rows].
    fold (row_links ws r).
    assert (Hg : group_of ws r =
                 match row_links ws r with [] => None | l :: ls => Some (r, l :: ls) end)
      by reflexivity.
    rewrite Hg. clear Hg.
    destruct (row_links ws r) as [|l ls] eqn:Hl.
    + rewrite app_nil_r. apply IH; [done|]. intros r' Hr'. apply Hfresh. by right.
    + rewrite IH; [by rewrite <- app_assoc | done |].
      intros r' Hr'. unfold keys. rewrite fmap_app. simpl.
      intros [Hin | Hin%list_elem_of_singleton]%elem_of_app.
      * revert Hin. apply Hfresh. by right.
      * subst. done.
Qed.

Lemma group_hyperlinks_eq ws :
  _group_hyperlinks ws = omap (group_of ws) (range 1 (max_row ws + 1)).
Proof.
  unfold _group_hyperlinks, iter_rows.
  change (fun r => cell ws r <$> range 1 (max_column ws + 1)) with (getitem ws).
  apply (group_rows ws _ []); [apply NoDup_seqZ|]. intros r _. apply not_elem_of_nil.
Qed.

Lemma seqZ_sorted n : forall m, StronglySorted Z.lt (seqZ m (Z.of_nat n)).
Proof.
  induction n as [|n IH]; intros m; [constructor|].
  rewrite seqZ_cons by lia.
  replace (Z.pred (Z.of_nat (S n))) with (Z.of_nat n) by lia.
  constructor; [apply IH|].
  apply Forall_forall. intros x Hx%elem_of_seqZ. lia.
Qed.

Lemma range_sorted a b : StronglySorted Z.lt (range a b).
Proof.
  unfold range. destruct (Z.le_gt_cases 0 (b - a)).
  - rewrite <- (Z2Nat.id (b - a)) by done. apply seqZ_sorted.
  - unfold seqZ. replace (Z.to_nat (b - a)) with 0%nat by lia. constructor.
Qed.

(** The links of a row, as found in its cells from left to right. *)
Lemma row_links_cols ws r cs :
  link_col <$> omap link_of (cell ws r <$> cs) =
  List.filter (fun c => bool_decide (hyperlinked ws r c)) cs.
Proof.
  induction cs as [|c cs IH]; [done|].
  rewrite fmap_cons. simpl List.filter.
  change (omap link_of (cell ws r c :: (cell ws r <$> cs)))
    with (match link_of (cell ws r c) with
          | Some y => y :: omap link_of (cell ws r <$> cs)
          | None => omap link_of (cell ws r <$> cs)
          end).
  destruct (decide (hyperlinked ws r c)) as [Hh | Hh].
  - rewrite bool_decide_eq_true_2 by done. destruct Hh as [t Ht].
    unfold link_of at 1. rewrite Ht. cbn [fmap option_fmap option_map].
    rewrite fmap_cons. f_equal. exact IH.
  - rewrite bool_decide_eq_false_2 by done.
    unfold link_of at 1.
    destruct (Cell.hyperlink (cell ws r c)) as [t|] eqn:Ht; [|done].
    destruct Hh. unfold hyperlinked. rewrite Ht. eauto.
Qed.

Lemma filter_sorted (p : Z -> bool) l :
  StronglySorted Z.lt l -> StronglySorted Z.lt (List.filter p l).
Proof.
  induction 1 as [|x l Hs IH Hall]; simpl; [constructor|].
  destruct (p x); [|done]. constructor; [done|].
  apply Forall_forall. intros y Hy%list_elem_of_In%filter_In.
  destruct Hy as [Hy _]. rewrite Forall_forall in Hall. apply Hall.
  by apply list_elem_of_In.
Qed.

Lemma row_links_sorted ws r :
  StronglySorted Z.lt (link_col <$> row_links ws r).
Proof.
  unfold row_links, getitem. rewrite row_links_cols.
  apply filter_sorted, range_sorted.
Qed.

Lemma sort_sorted l :
  StronglySorted Z.lt (link_col <$> l) -> sort_by_col l = l.
Proof.
  induction l as [|x l IH]; [done|]. simpl. intros Hs.
  apply StronglySorted_inv in Hs as [Hs Hall]. rewrite IH by done.
  destruct l as [|y l]; [done|]. simpl.
  apply Forall_cons in Hall as [Hxy _].
  destruct (Z.leb_spec (link_col x) (link_col y)); [done | lia].
Qed.

Lemma max_of_ge x l : x ∈ l -> Zpos x <= max_of l.
Proof.
  destruct l as [|x0 l]; [by intros ?%elem_of_nil|]. simpl.
  revert x0. induction l as [|a l IH]; intros x0 Hx; simpl.
  - apply list_elem_of_singleton in Hx. subst. lia.
  - apply elem_of_cons in Hx as [-> | Hx].
    + specialize (IH x0 ltac:(left)). lia.
    + apply elem_of_cons in Hx as [-> | Hx]; [lia|].
      specialize (IH x0 ltac:(by right)). lia.
Qed.

Lemma hyperlinked_inside ws r c :
  hyperlinked ws r c -> 1 <= r <= max_row ws /\ 1 <= c <= max_column ws.
Proof.
  unfold hyperlinked, cell. simpl. intros [t Ht].
  destruct r as [|r|r]; try discriminate. destruct c as [|c|c]; try discriminate.
  destruct (_cells ws !! (r, c)) as [v|] eqn:Hv; [|discriminate].
  apply elem_of_map_to_list in Hv.
  split; (split; [lia|]); apply max_of_ge, list_elem_of_fmap;
    exists ((r, c), v); done.
Qed.

Lemma row_links_hyperlinked ws r c :
  hyperlinked ws r c <-> exists l, l ∈ row_links ws r /\ link_col l = c.
Proof.
  split.
  - intros Hh. assert (Hc : c ∈ link_col <$> row_links ws r).
    { unfold row_links, getitem. rewrite row_links_cols.
      apply list_elem_of_In, filter_In. split.
      - apply list_elem_of_In, elem_of_seqZ.
        destruct (hyperlinked_inside _ _ _ Hh). lia.
      - by apply bool_decide_eq_true_2. }
    apply list_elem_of_fmap in Hc as (l & -> & Hl). eauto.
  - intros (l & Hl & <-).
    assert (Hc : link_col l ∈ link_col <$> row_links ws r)
      by (apply list_elem_of_fmap; eauto).
    unfold row_links, getitem in Hc. rewrite row_links_cols in Hc.
    apply list_elem_of_In, filter_In in Hc as [_ Hc].
    by apply bool_decide_eq_true_1 in Hc.
Qed.

(** [_find_insert_start_col]: the loop keeps the largest hyperlinked
    column seen, starting from 0. *)
Lemma start_col_loop cells : forall m0,
  let m := fold_left
    (fun max_hyperlink_col cell =>
       match Cell.hyperlink cell with
       | Some _ => Z.max max_hyperlink_col (Cell.column cell)
       | None => max_hyperlink_col
       end) cells m0 in
  m0 <= m /\
  (forall l, l ∈ omap link_of cells -> link_col l <= m) /\
  (m = m0 \/ exists l, l ∈ omap link_of cells /\ link_col l = m).
Proof.
  induction cells as [|c cells IH]; intros m0; cbv zeta.
  - simpl. split_and!; [lia | by intros l ?%elem_of_nil | by left].
  - cbn [fold_left].
    change (omap link_of (c :: cells))
      with (match link_of c with
            | Some y => y :: omap link_of cells
            | None => omap link_of cells
            end).
    destruct (Cell.hyperlink c) as [t|] eqn:Hh.
    + assert (Hl : link_of c = Some {| link_cell := c; link_url := t;
                                       link_col := Cell.column c |})
        by (unfold link_of; by rewrite Hh).
      rewrite Hl.
      destruct (IH (Z.max m0 (Cell.column c))) as (Hm & Hall & Hex).
      split_and!; [lia | |].
      * intros l [-> | Hl']%elem_of_cons; [simpl; lia | by apply Hall].
      * destruct Hex as [Heq | (l & Hl' & Heq)].
        -- destruct (Z.max_spec m0 (Cell.column c)) as [[_ Hmax] | [_ Hmax]].
           ++ right. eexists. split; [by left | simpl; lia].
           ++ left. lia.
        -- right. exists l. split; [by right | done].
    + assert (Hl : link_of c = None) by (unfold link_of; by rewrite Hh).
      rewrite Hl. apply IH.
Qed.

Lemma start_col_spec ws r n :
  0 < n -> row_links ws r <> [] ->
  let start := _find_insert_start_col ws r n in
  hyperlinked ws r (start - 1) /\
  forall c, hyperlinked ws r c -> c <= start - 1.
Proof.
  intros Hn Hne. unfold _find_insert_start_col.
  destruct (Z.ltb_spec 0 n); [|lia].
  destruct (start_col_loop (getitem ws r) 0) as (Hm & Hall & Hex).
  fold (row_links ws r) in Hall, Hex.
  set (m := fold_left _ _ _) in *. cbv zeta.
  replace (m + 1 - 1) with m by lia. split.
  - destruct Hex as [Hz | (l & Hl & Heq)].
    + destruct (row_links ws r) as [|l ls] eqn:Hl; [done|].
      assert (Hh : hyperlinked ws r (link_col l)).
      { apply row_links_hyperlinked. exists l. rewrite Hl. split; [by left|done]. }
      apply hyperlinked_inside in Hh.
      specialize (Hall l ltac:(by left)). lia.
    + apply row_links_hyperlinked. eauto.
  - intros c (l & Hl & <-)%row_links_hyperlinked. by apply Hall.
Qed.
End GroupFacts.

Section WorkerFacts.
Variable world : World.
Variables (link : Link) (row start_col : Z) (temp_dir poppler_path : str).

Local Abbreviation page_file := (page_path world temp_dir row (link_col link)).
Local Abbreviation page_body :=
  (_process_single_link_page world link row start_col temp_dir).
Local Abbreviation classified :=
  (_get_file_extension (platform world) (link_url link)).
Local Abbreviation file_path :=
  (scratch_path world temp_dir row (link_col link)).

Lemma insert_image_eq p r col st :
  _insert_image world p r col st =
  match image_open world p, cell_ref r col with
  | Ok _, Ok a => (embed (thumb p a) (record (EImageOpen p) st), Ok tt)
  | Raise e, _ => (record (EImageOpen p) st, Raise e)
  | Ok _, Raise e => (record (EImageOpen p) st, Raise e)
  end.
Proof.
  unfold _insert_image, bind, call, emit, lift, modify_ws. simpl.
  destruct (image_open world p) as [sz|e]; [|done].
  destruct (cell_ref r col) as [a|e]; done.
Qed.

(** One page: its file is written, then either its thumbnail is
    anchored or an exception leaves the sheet as it was. *)
Lemma page_body_spec k img st :
  let res := page_body (k, img) st in
  (exists a, cell_ref row (start_col + k - 1) = Ok a /\ snd res = Ok tt /\
     extends st (fst res) [ESavePage (page_file k); EImageOpen (page_file k)]
       [thumb (page_file k) a]) \/
  (exists e evs, snd res = Raise e /\ extends st (fst res) evs [] /\
     writes evs = [page_file k] /\ gets evs = [] /\ submits evs = [] /\
     logs evs = [] /\
     (pil_save world img (page_file k) = Raise e \/
      image_open world (page_file k) = Raise e \/
      cell_ref row (start_col + k - 1) = Raise e)).
Proof.
  unfold _process_single_link_page; cbv zeta.
  unfold call, bind, emit, lift; simpl.
  fold (record (ESavePage (page_file k)) st).
  destruct (pil_save world img (page_file k)) as [[]|e] eqn:Hs.
  - rewrite insert_image_eq.
    destruct (image_open world (page_file k)) as [sz|e] eqn:Ho.
    + destruct (cell_ref row (start_col + k - 1)) as [a|e] eqn:Hc.
      * left. exists a. simpl. split_and!; eauto. ext_solve.
      * right. exists e, [ESavePage (page_file k); EImageOpen (page_file k)].
        simpl. split_and!; eauto. ext_solve.
    + right. exists e, [ESavePage (page_file k); EImageOpen (page_file k)].
      simpl. split_and!; eauto. ext_solve.
  - right. exists e, [ESavePage (page_file k)]. simpl. split_and!; eauto.
    ext_solve.
Qed.

(** The page loop: some first pages are anchored, one image each, at
    consecutive columns; the loop raises only before the last page is
    anchored. *)
Lemma pages_loop_spec pages : forall k st,
  let res := for_each (enumerate k pages) page_body st in
  exists imgs evs (j : nat),
    extends st (fst res) evs imgs /\
    writes evs = page_file <$> seqZ k (Z.of_nat j) /\
    (j <= length pages)%nat /\
    gets evs = [] /\ submits evs = [] /\ logs evs = [] /\
    (forall i img, imgs !! i = Some img ->
       exists a, cell_ref row (start_col + (k + Z.of_nat i) - 1) = Ok a /\
                 img = thumb (page_file (k + Z.of_nat i)) a) /\
    match snd res with
    | Ok _ => length imgs = length pages
    | Raise e => (length imgs < length pages)%nat
    end.
Proof.
  induction pages as [|img pages IH]; intros k st res.
  - exists [], [], 0%nat. subst res; simpl. split_and!; try done.
    apply extends_refl.
  - subst res. simpl enumerate. rewrite for_each_cons.
    destruct (page_body_spec k img st) as
      [(a & Ha & Hr & Hext) | (e & evs & Hr & Hext & Hw & Hg & Hs & Hl & _)];
      destruct (page_body (k, img) st) as [st1 r1]; simpl in Hr, Hext; subst r1.
    + destruct (IH (k + 1) st1)
        as (imgs & evs & j & Hext' & Hw & Hj & Hg & Hs & Hl & Himgs & Hres).
      exists (thumb (page_file k) a :: imgs),
        ([ESavePage (page_file k); EImageOpen (page_file k)] ++ evs), (S j).
      split_and!.
      * apply (extends_trans _ _ _ _ _ [_] _ Hext Hext').
      * rewrite writes_app, Hw. simpl writes.
        rewrite (seqZ_cons k) by lia. simpl.
        do 3 f_equal; lia.
      * simpl; lia.
      * rewrite gets_app, Hg; done.
      * rewrite submits_app, Hs; done.
      * rewrite logs_app, Hl; done.
      * intros [|i] im Him; simpl in Him.
        -- injection Him as <-. exists a. split; [|f_equal; f_equal; lia].
           rewrite <- Ha. f_equal. lia.
        -- destruct (Himgs i im Him) as (a' & Ha' & ->). exists a'.
           split; [rewrite <- Ha'; f_equal; lia | f_equal; f_equal; lia].
      * destruct (snd (for_each _ _ st1)); simpl; lia.
    + exists [], evs, 1%nat. simpl.
      split_and!; [exact Hext | rewrite Hw; reflexivity | lia | done | done
                  | done | intros i im Him; discriminate | lia].
Qed.

Lemma pages_loop_ok pages : forall k st,
  (forall i img, pages !! i = Some img ->
     pil_save world img (page_file (k + Z.of_nat i)) = Ok tt /\
     (exists sz, image_open world (page_file (k + Z.of_nat i)) = Ok sz) /\
     (exists a, cell_ref row (start_col + (k + Z.of_nat i) - 1) = Ok a)) ->
  snd (for_each (enumerate k pages) page_body st) = Ok tt.
Proof.
  induction pages as [|img pages IH]; intros k st Hok; [done|].
  simpl enumerate. rewrite for_each_cons.
  destruct (Hok 0%nat img eq_refl) as (Hs & [sz Ho] & [a Ha]).
  replace (k + Z.of_nat 0) with k in * by lia.
  destruct (page_body_spec k img st) as
    [(a' & _ & Hr & _) | (e & evs & Hr & _ & _ & _ & _ & _ & Hbad)];
    destruct (page_body (k, img) st) as [st1 r1]; simpl in Hr; subst r1.
  - apply IH. intros i im Him.
    replace (k + 1 + Z.of_nat i) with (k + Z.of_nat (S i)) by lia.
    apply (Hok (S i) im Him).
  - destruct Hbad as [Hbad | [Hbad | Hbad]]; congruence.
Qed.

Variable vexts : list str.

(** The [try] block, path by path. *)
Lemma try_eq st :
  _process_single_link_try world link row start_col temp_dir poppler_path vexts st =
  let st1 := record (EGet (link_url link)) st in
  match requests_get world (link_url link) with
  | Raise e => (st1, Raise e)
  | Ok response =>
    if bad_status response
    then (st1, Raise (RequestException (Py.str_of_int (status_code response))))
    else
      match classified with
      | Raise e => (st1, Raise e)
      | Ok [] =>
          (record (ELog (UnrecognizedType (link_url link) row (link_col link))) st1, Ok tt)
      | Ok ext =>
        if mem ext vexts
        then (record (ELog (SkippedVideo (link_url link) row (link_col link))) st1, Ok tt)
        else
          let st2 := record (EOpenWrite (file_path ext)) st1 in
          match open_wb world (file_path ext) with
          | Raise e => (st2, Raise e)
          | Ok _ =>
            match iter_content response with
            | Raise e => (st2, Raise e)
            | Ok _ =>
              if Py.str_eqb ext "pdf" then
                let st3 := record (EConvert (file_path ext)) st2 in
                match convert_from_path world (file_path ext) poppler_path with
                | Raise e => (st3, Raise e)
                | Ok pages => for_each (enumerate 1 pages) page_body st3
                end
              else if mem ext raster_exts
              then _insert_image world (file_path ext) row start_col st2
              else (record (ELog (UnsupportedType ext row (link_col link))) st2, Ok tt)
            end
          end
      end
  end.
Proof.
  unfold _process_single_link_try, bad_status.
  unfold bind at 1. unfold call at 1, bind at 1, emit at 1, lift at 1.
  fold (record (EGet (link_url link)) st).
  destruct (requests_get world (link_url link)) as [response|e]; [|reflexivity].
  cbv zeta. unfold bind at 1, raise_for_status.
  destruct ((400 <=? status_code response) && (status_code response <? 600));
    [reflexivity|].
  unfold ret at 1. unfold bind at 1, lift at 1.
  destruct classified as [[|c ext']|e]; [reflexivity | | reflexivity].
  destruct (mem (c :: ext') vexts); [reflexivity|].
  unfold bind at 1. unfold call at 1, bind at 1, emit at 1, lift at 1.
  match goal with |- context [open_wb world ?p] =>
    destruct (open_wb world p) as [[]|e] end; [|reflexivity].
  unfold bind at 1, lift at 1.
  destruct (iter_content response) as [chunks|e]; [|reflexivity].
  destruct (Py.str_eqb (c :: ext') "pdf").
  - unfold bind at 1. unfold call at 1, bind at 1, emit at 1, lift at 1.
    match goal with |- context [convert_from_path world ?p ?q] =>
      destruct (convert_from_path world p q) as [pages|e] end; reflexivity.
  - destruct (mem (c :: ext') _); reflexivity.
Qed.

Lemma except_eq e st :
  _process_single_link_except link row e st =
  (record (ELog (error_record link row e)) st, Ok tt).
Proof. destruct e; reflexivity. Qed.

Lemma worker_eq st :
  _process_single_link world link row start_col temp_dir poppler_path vexts st =
  match _process_single_link_try world link row start_col temp_dir poppler_path vexts st with
  | (st1, Ok _) => (st1, Ok tt)
  | (st1, Raise e) => (record (ELog (error_record link row e)) st1, Ok tt)
  end.
Proof.
  unfold _process_single_link, try_except.
  destruct (_process_single_link_try _ _ _ _ _ _ _ st) as [st1 [[]|e]];
    [reflexivity | apply except_eq].
Qed.

Lemma worker_images st evs imgs :
  extends st
    (fst (_process_single_link_try world link row start_col temp_dir
            poppler_path vexts st)) evs imgs ->
  images (fst (_process_single_link world link row start_col temp_dir
                 poppler_path vexts st)) = images st ++ imgs.
Proof.
  intros Hx. rewrite worker_eq.
  destruct (_process_single_link_try _ _ _ _ _ _ _ st) as [st1 [[]|e]];
    apply (ext_images _ _ _ _ Hx).
Qed.

Lemma cell_ref_in_range r col :
  1 <= col <= 18278 -> exists a, cell_ref r col = Ok a.
Proof.
  intros H. unfold cell_ref, get_column_letter.
  replace ((1 <=? col) && (col <=? 18278)) with true by (symmetry; apply andb_true_iff; lia).
  eauto.
Qed.

(** What the [try] block does, whatever the world answers. *)
Lemma try_effect st :
  let res := _process_single_link_try world link row start_col temp_dir poppler_path vexts st in
  exists imgs evs,
    extends st (fst res) evs imgs /\
    gets evs = [link_url link] /\ submits evs = [] /\
    (writes evs = [] \/
     exists ext (j : nat),
       classified = Ok ext /\
       writes evs = file_path ext :: (page_file <$> seqZ 1 (Z.of_nat j))) /\
    (forall e, snd res = Raise e -> logs evs = []) /\
    ((imgs = []) \/
     (exists ext a, classified = Ok ext /\
                Py.str_eqb ext "pdf" = false /\ mem ext raster_exts = true /\
                snd res = Ok tt /\
                cell_ref row start_col = Ok a /\ imgs = [thumb (file_path ext) a]) \/
     (classified = Ok (py "pdf") /\
      (forall i img, imgs !! i = Some img ->
         exists a, cell_ref row (start_col + Z.of_nat i) = Ok a /\
                   img = thumb (page_file (1 + Z.of_nat i)) a) /\
      exists pages,
        convert_from_path world (file_path "pdf") poppler_path = Ok pages /\
        match snd res with
        | Ok _ => length imgs = length pages
        | Raise _ => (length imgs < length pages)%nat
        end)).
Proof.
  rewrite try_eq. cbv zeta.
  destruct (requests_get world (link_url link)) as [response|e].
  2: { exists [], [EGet (link_url link)]. leaf. }
  destruct (bad_status response).
  { exists [], [EGet (link_url link)]. leaf. }
  destruct classified as [[|c ext']|e] eqn:Hext.
  3: { exists [], [EGet (link_url link)]. leaf. }
  { exists [], [EGet (link_url link); ELog (UnrecognizedType (link_url link) row (link_col link))].
    leaf. }
  destruct (mem (c :: ext') vexts).
  { exists [], [EGet (link_url link); ELog (SkippedVideo (link_url link) row (link_col link))].
    leaf. }
  set (fp := scratch_path world temp_dir row (link_col link) (c :: ext')).
  assert (Hfp : forall j : nat, exists ext0 (j0 : nat),
            Ok (c :: ext') = Ok ext0 /\
            fp :: (page_file <$> seqZ 1 (Z.of_nat j)) =
            file_path ext0 :: (page_file <$> seqZ 1 (Z.of_nat j0)))
    by (intros j; by exists (c :: ext'), j).
  destruct (open_wb world fp) as [[]|e].
  2: { exists [], [EGet (link_url link); EOpenWrite fp]. leaf. right. apply (Hfp 0%nat). }
  destruct (iter_content response) as [chunks|e].
  2: { exists [], [EGet (link_url link); EOpenWrite fp]. leaf. right. apply (Hfp 0%nat). }
  destruct (Py.str_eqb (c :: ext') "pdf") eqn:Hpdf.
  - assert (Hc : c :: ext' = py "pdf")
      by (unfold Py.str_eqb in Hpdf; by apply bool_decide_eq_true_1 in Hpdf).
    destruct (convert_from_path world fp poppler_path) as [pages|e] eqn:Hconv.
    2: { exists [], [EGet (link_url link); EOpenWrite fp; EConvert fp]. leaf.
         right. apply (Hfp 0%nat). }
    destruct (pages_loop_spec pages 1
                (record (EConvert fp) (record (EOpenWrite fp) (record (EGet (link_url link)) st))))
      as (imgs & evs & j & Hx & Hw & Hj & Hg & Hs & Hl & Himgs & Hres).
    exists imgs, ([EGet (link_url link); EOpenWrite fp; EConvert fp] ++ evs).
    split_and!.
    + refine (extends_trans st _ _ [_; _; _] evs [] imgs _ Hx). ext_solve.
    + rewrite gets_app, Hg. reflexivity.
    + rewrite submits_app, Hs. reflexivity.
    + right. rewrite writes_app, Hw. apply (Hfp j).
    + intros e He. rewrite logs_app, Hl. reflexivity.
    + right; right. split_and!; [by rewrite Hc | |].
      * intros i img Hi. destruct (Himgs i img Hi) as (a & Ha & ->).
        exists a. split; [rewrite <- Ha; f_equal; lia | reflexivity].
      * exists pages. split; [|exact Hres]. subst fp. by rewrite Hc in Hconv.
  - destruct (mem (c :: ext') raster_exts) eqn:Hras.
    + rewrite insert_image_eq.
      destruct (image_open world fp) as [sz|e].
      * destruct (cell_ref row start_col) as [a|e] eqn:Hc.
        -- exists [thumb fp a], [EGet (link_url link); EOpenWrite fp; EImageOpen fp].
           leaf; [right; apply (Hfp 0%nat)|]. right; left. exists (c :: ext'), a. done.
        -- exists [], [EGet (link_url link); EOpenWrite fp; EImageOpen fp]. leaf.
           right; apply (Hfp 0%nat).
      * exists [], [EGet (link_url link); EOpenWrite fp; EImageOpen fp]. leaf.
        right; apply (Hfp 0%nat).
    + exists [], [EGet (link_url link); EOpenWrite fp;
                  ELog (UnsupportedType (c :: ext') row (link_col link))].
      leaf. right; apply (Hfp 0%nat).
Qed.

End WorkerFacts.


Section DispatchFacts.
Variable world : World.
Variables (temp_dir poppler_path : str) (vexts : list str).

Lemma worker_frame link row start_col st :
  let res := _process_single_link world link row start_col temp_dir poppler_path vexts st in
  snd res = Ok tt /\
  exists evs imgs,
    extends st (fst res) evs imgs /\
    gets evs = [link_url link] /\ submits evs = [] /\
    link_writes world temp_dir row link (writes evs).
Proof.
  cbv zeta. rewrite worker_eq.
  destruct (try_effect world link row start_col temp_dir poppler_path vexts st)
    as (imgs & evs & Hx & Hg & Hs & Hw & _ & _).
  destruct (_process_single_link_try _ _ _ _ _ _ _ st) as [st1 [[]|e]]; simpl in *.
  - split; [done|]. exists evs, imgs. done.
  - split; [done|]. exists (evs ++ [ELog (error_record link row e)]), imgs.
    split_and!.
    + rewrite <- (app_nil_r imgs). apply (extends_trans _ _ _ _ _ _ _ Hx). ext_solve.
    + rewrite gets_app, Hg. done.
    + rewrite submits_app, Hs. done.
    + rewrite writes_app. simpl. rewrite app_nil_r. done.
Qed.

Lemma submit_frame link row col st :
  let res := submit link row col
               (_process_single_link world link row col temp_dir poppler_path vexts) st in
  snd res = Ok tt /\
  exists evs imgs,
    extends st (fst res) evs imgs /\
    gets evs = [link_url link] /\ submits evs = [(link, row, col)] /\
    link_writes world temp_dir row link (writes evs).
Proof.
  cbv zeta. unfold submit, bind, emit. simpl.
  fold (record (ESubmit link row col) st).
  destruct (worker_frame link row col (record (ESubmit link row col) st))
    as (_ & evs & imgs & Hx & Hg & Hs & Hw).
  split; [done|]. exists ([ESubmit link row col] ++ evs), imgs. split_and!.
  - refine (extends_trans st _ _ [_] evs [] imgs _ Hx). ext_solve.
  - rewrite gets_app, Hg. done.
  - rewrite submits_app, Hs. done.
  - rewrite writes_app. done.
Qed.

(** The tasks of a row, all submitted, whatever happens to each. *)
Lemma row_loop_spec row start_col links : forall k st,
  let res :=
    for_each (enumerate k links)
      (fun '(idx, link) =>
         submit link row (start_col + idx)
           (_process_single_link world link row (start_col + idx)
              temp_dir poppler_path vexts)) st in
  snd res = Ok tt /\
  exists evs imgs wss,
    extends st (fst res) evs imgs /\
    gets evs = link_url <$> links /\
    submits evs = (fun '(idx, link) => (link, row, start_col + idx)) <$> enumerate k links /\
    writes evs = concat wss /\
    Forall2 (link_writes world temp_dir row) links wss.
Proof.
  induction links as [|l links IH]; intros k st; cbv zeta.
  - split; [done|]. exists [], [], []. split_and!; try done. apply extends_refl.
  - simpl enumerate. rewrite for_each_cons.
    destruct (submit_frame l row (start_col + k) st)
      as (Hr & evs & imgs & Hx & Hg & Hs & Hw).
    destruct (submit l row (start_col + k) _ st) as [st1 r]. simpl in Hr, Hx. subst r.
    destruct (IH (k + 1) st1) as (Hr' & evs' & imgs' & wss & Hx' & Hg' & Hs' & Hw' & Hf).
    split; [done|].
    exists (evs ++ evs'), (imgs ++ imgs'), (writes evs :: wss). split_and!.
    + apply (extends_trans _ _ _ _ _ _ _ Hx Hx').
    + rewrite gets_app, Hg, Hg'. done.
    + rewrite submits_app, Hs, Hs'. done.
    + rewrite writes_app, Hw'. done.
    + by constructor.
Qed.

Lemma getitem_cells ws1 ws2 r :
  _cells ws1 = _cells ws2 -> getitem ws1 r = getitem ws2 r.
Proof.
  intros H. unfold getitem, max_column. rewrite H.
  apply list_fmap_ext. intros _ c _. unfold cell. by rewrite H.
Qed.

Lemma row_plan_cells ws1 ws2 item :
  _cells ws1 = _cells ws2 -> row_plan ws1 item = row_plan ws2 item.
Proof.
  intros H. unfold row_plan, _find_insert_start_col.
  by rewrite (getitem_cells ws1 ws2 _ H).
Qed.

Lemma plan_cells ws1 ws2 groups :
  _cells ws1 = _cells ws2 -> plan ws1 groups = plan ws2 groups.
Proof.
  intros H. unfold plan. induction groups as [|g groups IH]; [done|].
  rewrite !bind_cons. by rewrite IH, (row_plan_cells ws1 ws2 g H).
Qed.

Lemma fmap_enumerate {A B} (f : Z * A -> B) (g : A -> B) (l : list A) :
  (forall i x, f (i, x) = g x) -> forall k, f <$> enumerate k l = g <$> l.
Proof.
  intros H. induction l as [|x l IH]; intros k; [done|].
  simpl. by rewrite H, IH.
Qed.

Lemma Forall2_enumerate {A B C} (f : Z * A -> B) (P : B -> C -> Prop)
    (Q : A -> C -> Prop) (l : list A) :
  (forall i x c, Q x c -> P (f (i, x)) c) ->
  forall cs k, Forall2 Q l cs -> Forall2 P (f <$> enumerate k l) cs.
Proof.
  intros H. induction l as [|x l IH]; intros cs k Hf; inversion Hf; subst.
  - constructor.
  - simpl. constructor; [by apply H | by apply IH].
Qed.

Lemma dispatch_row_spec item st :
  let res := dispatch_row world temp_dir poppler_path vexts item st in
  snd res = Ok tt /\
  exists evs imgs wss,
    extends st (fst res) evs imgs /\
    submits evs = row_plan (ws st) item /\
    gets evs = task_url <$> row_plan (ws st) item /\
    writes evs = concat wss /\
    Forall2 (task_writes world temp_dir) (row_plan (ws st) item) wss.
Proof.
  destruct item as [row links]. cbv zeta. unfold dispatch_row.
  unfold bind at 1, get_ws at 1.
  set (start_col := _find_insert_start_col (ws st) row _).
  destruct (row_loop_spec row start_col (sort_by_col links) 0 st)
    as (Hr & evs & imgs & wss & Hx & Hg & Hs & Hw & Hf).
  split; [exact Hr|]. exists evs, imgs, wss.
  unfold row_plan. simpl fst. simpl snd. fold start_col.
  split_and!; [exact Hx | exact Hs | | exact Hw |].
  - rewrite Hg, <- list_fmap_compose. symmetry. by apply fmap_enumerate.
  - revert Hf. apply Forall2_enumerate. by intros i l w.
Qed.

Lemma dispatch_all_spec groups : forall st,
  let res := dispatch_all world temp_dir poppler_path vexts groups st in
  snd res = Ok tt /\
  exists evs imgs wss,
    extends st (fst res) evs imgs /\
    submits evs = plan (ws st) groups /\
    gets evs = task_url <$> plan (ws st) groups /\
    writes evs = concat wss /\
    Forall2 (task_writes world temp_dir) (plan (ws st) groups) wss.
Proof.
  induction groups as [|g groups IH]; intros st; cbv zeta.
  - split; [done|]. exists [], [], []. split_and!; try done; apply extends_refl.
  - unfold dispatch_all. rewrite for_each_cons. fold (dispatch_all world temp_dir poppler_path vexts groups).
    destruct (dispatch_row_spec g st) as (Hr & evs & imgs & wss & Hx & Hs & Hg & Hw & Hf).
    destruct (dispatch_row world temp_dir poppler_path vexts g st) as [st1 r].
    simpl in Hr, Hx. subst r.
    destruct (IH st1) as (Hr' & evs' & imgs' & wss' & Hx' & Hs' & Hg' & Hw' & Hf').
    split; [exact Hr'|].
    rewrite (plan_cells (ws st1) (ws st)) in Hs', Hg', Hf' by apply (ext_cells _ _ _ _ Hx).
    exists (evs ++ evs'), (imgs ++ imgs'), (wss ++ wss'). split_and!.
    + apply (extends_trans _ _ _ _ _ _ _ Hx Hx').
    + rewrite submits_app, Hs, Hs'. unfold plan. by rewrite bind_cons.
    + rewrite gets_app, Hg, Hg'. unfold plan. rewrite bind_cons. by rewrite fmap_app.
    + rewrite writes_app, Hw, Hw', concat_app. done.
    + unfold plan. rewrite bind_cons. by apply Forall2_app.
Qed.
End DispatchFacts.

Section PathFacts.

Lemma uint_chars d :
  Forall (fun c => int_char c = true) (list_ascii_of_string (NilEmpty.string_of_uint d)).
Proof. induction d; simpl; constructor; done. Qed.

Lemma str_of_int_chars z : Forall (fun c => int_char c = true) (Py.str_of_int z).
Proof.
  unfold Py.str_of_int, NilZero.string_of_int, NilZero.string_of_uint.
  destruct (Z.to_int z) as [d|d]; [|simpl; constructor; [done|]];
    (destruct d; [repeat constructor | apply (uint_chars (_ _)) ..]).
Qed.

Lemma list_ascii_of_string_inj a b :
  list_ascii_of_string a = list_ascii_of_string b -> a = b.
Proof.
  intros H. rewrite <- (string_of_list_ascii_of_string a),
    <- (string_of_list_ascii_of_string b). by rewrite H.
Qed.

Lemma to_int_not_nil z :
  Z.to_int z <> Decimal.Pos Decimal.Nil /\ Z.to_int z <> Decimal.Neg Decimal.Nil.
Proof.
  split; intros H; pose proof (DecimalZ.of_to z) as Hz; rewrite H in Hz;
    simpl in Hz; subst z; discriminate.
Qed.

Lemma str_of_int_inj a b : Py.str_of_int a = Py.str_of_int b -> a = b.
Proof.
  intros H%list_ascii_of_string_inj.
  destruct (to_int_not_nil a), (to_int_not_nil b).
  assert (Some (Z.to_int a) = Some (Z.to_int b)) as [= Hab].
  { rewrite <- (NilZero.isi (Z.to_int a)), <- (NilZero.isi (Z.to_int b)) by done.
    by rewrite H. }
  by apply DecimalZ.to_int_inj.
Qed.

(** Two texts that start with a printed integer and go on with another
    character agree on the integer and on the rest. *)
Lemma int_prefix_unique (d1 d2 t1 t2 : str) :
  Forall (fun c => int_char c = true) d1 ->
  Forall (fun c => int_char c = true) d2 ->
  match t1 with c :: _ => int_char c = false | [] => False end ->
  match t2 with c :: _ => int_char c = false | [] => False end ->
  d1 ++ t1 = d2 ++ t2 -> d1 = d2 /\ t1 = t2.
Proof.
  revert d2. induction d1 as [|x d1 IH]; intros [|y d2] H1 H2 Ht1 Ht2 Heq; simpl in Heq.
  - done.
  - destruct t1 as [|c t1]; [done|]. injection Heq as -> _.
    apply Forall_cons in H2 as [H2 _]. congruence.
  - destruct t2 as [|c t2]; [done|]. injection Heq as -> _.
    apply Forall_cons in H1 as [H1 _]. congruence.
  - injection Heq as -> Heq.
    apply Forall_cons in H1 as [_ H1]. apply Forall_cons in H2 as [_ H2].
    destruct (IH d2 H1 H2 Ht1 Ht2 Heq) as [-> ->]. done.
Qed.

Lemma scratch_name_inj r c e r' c' e' :
  scratch_name r c e = scratch_name r' c' e' -> r = r' /\ c = c' /\ e = e'.
Proof.
  unfold scratch_name. intros H. apply app_inv_head in H.
  apply int_prefix_unique in H as [Hr H]; [|apply str_of_int_chars..|done|done].
  apply app_inv_head in H.
  apply int_prefix_unique in H as [Hc H]; [|apply str_of_int_chars..|done|done].
  apply app_inv_head in H.
  split_and!; [by apply str_of_int_inj | by apply str_of_int_inj | done].
Qed.

Lemma page_name_inj r c k r' c' k' :
  page_name r c k = page_name r' c' k' -> r = r' /\ c = c' /\ k = k'.
Proof.
  unfold page_name. intros H. apply app_inv_head in H.
  apply int_prefix_unique in H as [Hr H]; [|apply str_of_int_chars..|done|done].
  apply app_inv_head in H.
  apply int_prefix_unique in H as [Hc H]; [|apply str_of_int_chars..|done|done].
  apply app_inv_head in H.
  apply int_prefix_unique in H as [Hk H]; [|apply str_of_int_chars..|done|done].
  split_and!; by apply str_of_int_inj.
Qed.

Lemma scratch_name_not_page r c e r' c' k :
  scratch_name r c e <> page_name r' c' k.
Proof.
  unfold scratch_name, page_name. intros H. apply app_inv_head in H.
  apply int_prefix_unique in H as [Hr H]; [|apply str_of_int_chars..|done|done].
  apply app_inv_head in H.
  apply int_prefix_unique in H as [Hc H]; [|apply str_of_int_chars..|done|done].
  discriminate.
Qed.

Lemma join_inj os a b b' : OsPath.join os a b = OsPath.join os a b' -> b = b'.
Proof.
  unfold OsPath.join. destruct (OsPath.splitdrive os a) as [drive path].
  destruct (last path) as [c|]; [|by intros ?%app_inv_head].
  destruct (OsPath.is_sep os c); intros H%app_inv_head%app_inv_head; [done|].
  by injection H.
Qed.

End PathFacts.

Section ScratchFacts.
Variable world : World.
Variable temp_dir : str.

Lemma since_extends st st' evs imgs : extends st st' evs imgs -> since st st' = evs.
Proof. intros Hx. unfold since. rewrite (ext_trace _ _ _ _ Hx). apply drop_app_length. Qed.

Lemma scratch_of_inj r c r' c' p :
  scratch_of world temp_dir r c p -> scratch_of world temp_dir r' c' p ->
  r = r' /\ c = c'.
Proof.
  unfold scratch_path, page_path.
  intros [[e ->] | [k ->]] [[e' H] | [k' H]]; apply join_inj in H.
  - apply scratch_name_inj in H. tauto.
  - by apply scratch_name_not_page in H.
  - symmetry in H. by apply scratch_name_not_page in H.
  - apply page_name_inj in H. tauto.
Qed.

Lemma link_writes_named r l w :
  link_writes world temp_dir r l w ->
  Forall (scratch_of world temp_dir r (link_col l)) w /\ NoDup w.
Proof.
  intros [-> | (e & j & _ & ->)]; [split; constructor|]. split.
  - constructor; [left; eauto|].
    apply Forall_fmap, Forall_forall. intros k _. right. eauto.
  - constructor.
    + intros (k & H & _)%list_elem_of_fmap. unfold scratch_path, page_path in H.
      apply join_inj in H. by apply scratch_name_not_page in H.
    + apply NoDup_fmap_2; [|apply NoDup_seqZ].
      intros k k' H. unfold page_path in H. apply join_inj, page_name_inj in H.
      tauto.
Qed.

Lemma concat_writes_NoDup tasks wss :
  Forall2 (task_writes world temp_dir) tasks wss ->
  NoDup (task_key <$> tasks) ->
  NoDup (concat wss) /\
  Forall (fun p => exists t, t ∈ tasks /\
            scratch_of world temp_dir (fst (task_key t)) (snd (task_key t)) p)
    (concat wss).
Proof.
  induction 1 as [|t w tasks wss Hw Hf IH]; intros Hnd; [split; constructor|].
  rewrite fmap_cons in Hnd. apply NoDup_cons in Hnd as [Hfresh Hnd].
  destruct (IH Hnd) as [IHnd IHall].
  destruct (link_writes_named _ _ _ Hw) as [Hnamed Hwnd].
  simpl. split.
  - apply NoDup_app. split_and!; [done | | done].
    intros p Hp Hp'. rewrite Forall_forall in Hnamed, IHall.
    destruct (IHall p Hp') as (t' & Ht' & Hs').
    destruct (scratch_of_inj _ _ _ _ _ (Hnamed p Hp) Hs') as [Hr Hc].
    apply Hfresh, list_elem_of_fmap. exists t'. split; [|done].
    unfold task_key in *. simpl in *. by f_equal.
  - apply Forall_app. split.
    + eapply Forall_impl; [exact Hnamed|]. intros p Hp. exists t. split; [by left|done].
    + eapply Forall_impl; [exact IHall|]. intros p (t' & Ht' & Hs').
      exists t'. split; [by right|done].
Qed.

Lemma sorted_NoDup (l : list Z) : StronglySorted Z.lt l -> NoDup l.
Proof.
  induction 1 as [|x l Hs IH Hall]; constructor; [|done].
  intros Hx. rewrite Forall_forall in Hall. specialize (Hall x Hx). lia.
Qed.

Lemma group_elem ws g :
  g ∈ _group_hyperlinks ws ->
  g = (fst g, row_links ws (fst g)) /\ row_links ws (fst g) <> [].
Proof.
  rewrite group_hyperlinks_eq. intros (r & _ & Hg)%list_elem_of_omap.
  unfold group_of in Hg. destruct (row_links ws r) as [|l ls] eqn:Hl; [done|].
  injection Hg as <-. simpl. by rewrite Hl.
Qed.

Lemma groups_NoDup ws : NoDup (fst <$> _group_hyperlinks ws).
Proof.
  rewrite group_hyperlinks_eq.
  assert (H : forall rows, NoDup rows ->
            NoDup (fst <$> omap (group_of ws) rows) /\
            forall r, r ∈ fst <$> omap (group_of ws) rows -> r ∈ rows).
  { induction rows as [|r rows IH]; intros Hnd. { simpl. split; [apply NoDup_nil_2 | intros r Hr; exact Hr]. }
    apply NoDup_cons in Hnd as [Hr Hnd]. destruct (IH Hnd) as [IH1 IH2].
    assert (Hg : group_of ws r =
                 match row_links ws r with [] => None | l :: ls => Some (r, l :: ls) end)
      by reflexivity.
    simpl. rewrite Hg.
    destruct (row_links ws r) as [|l ls]; simpl.
    - split; [done|]. intros r' Hr'. right. by apply IH2.
    - split.
      + constructor; [|done]. intros Hin. by apply Hr, IH2.
      + intros r' [-> | Hr']%elem_of_cons; [by left | right; by apply IH2]. }
  apply H, NoDup_seqZ.
Qed.

Lemma row_plan_keys ws g :
  task_key <$> row_plan ws g = (fun l => (fst g, link_col l)) <$> sort_by_col (snd g).
Proof.
  unfold row_plan. rewrite <- list_fmap_compose. by apply fmap_enumerate.
Qed.

Lemma plan_keys_NoDup ws : NoDup (task_key <$> plan ws (_group_hyperlinks ws)).
Proof.
  unfold plan.
  assert (Heq : forall groups,
    task_key <$> (groups ≫= row_plan ws) =
    groups ≫= (fun g => (fun l => (fst g, link_col l)) <$> sort_by_col (snd g))).
  { induction groups as [|g groups IH]; [done|].
    rewrite !bind_cons, fmap_app, IH, row_plan_keys. done. }
  rewrite Heq. apply NoDup_bind.
  - intros g1 g2 y Hg1 Hg2 (l1 & -> & _)%list_elem_of_fmap (l2 & [= Hr _] & _)%list_elem_of_fmap.
    destruct (group_elem _ _ Hg1) as [-> _], (group_elem _ _ Hg2) as [-> _].
    simpl in Hr. by rewrite Hr.
  - intros g Hg. destruct (group_elem _ _ Hg) as [-> _]. simpl.
    rewrite sort_sorted by apply row_links_sorted.
    rewrite (list_fmap_compose link_col (fun c => (fst g, c))).
    apply NoDup_fmap_2; [by intros c c' [= ->] | apply sorted_NoDup, row_links_sorted].
  - eapply NoDup_fmap_1, groups_NoDup.
Qed.
End ScratchFacts.

Section RunClaims.

Lemma sorted_lookup (l : list Z) : StronglySorted Z.lt l ->
  forall i j x y, l !! i = Some x -> l !! j = Some y -> (i < j)%nat -> x < y.
Proof.
  induction 1 as [|a l Hs IH Hall]; intros i j x y Hi Hj Hij; [done|].
  destruct j as [|j]; [lia|]. simpl in Hj. destruct i as [|i]; simpl in Hi.
  - injection Hi as <-. rewrite Forall_forall in Hall.
    apply Hall. by eapply list_elem_of_lookup_2.
  - apply (IH i j); [done | done | lia].
Qed.

Lemma fmap_enumerate_imap {A B} (f : Z * A -> B) (l : list A) : forall k,
  f <$> enumerate k l = imap (fun i x => f (k + Z.of_nat i, x)) l.
Proof.
  induction l as [|x l IH]; intros k; [done|]. simpl. f_equal.
  - f_equal. f_equal. lia.
  - rewrite IH. apply imap_ext. intros i y _. simpl. do 2 f_equal. lia.
Qed.

(** C1, as the code has it. For a row with [n >= 1] hyperlinks the
    allocator returns the column after the row's last hyperlink: the
    largest hyperlinked column plus one. No column from there on holds a
    hyperlink of the row, so the [n] columns reserved from there collide
    with none, and it is the least column to the right of all the row's
    hyperlinks (not, in general, the first column where [n] free columns
    start). The links, in ascending order of their columns, get the
    columns one to one: link [i] gets [start_col + i]. *)
Theorem allocator_starts_after_last_hyperlink sheet row links :
  In (row, links) (_group_hyperlinks sheet) ->
  let n := Z.of_nat (length links) in
  let start_col := _find_insert_start_col sheet row n in
  1 <= n /\
  (forall c, hyperlinked sheet row c <-> exists l, In l links /\ link_col l = c) /\
  (hyperlinked sheet row (start_col - 1) /\
   forall c, hyperlinked sheet row c -> c <= start_col - 1) /\
  (forall i, 0 <= i -> ~ hyperlinked sheet row (start_col + i)) /\
  (forall s, (forall c, hyperlinked sheet row c -> c < s) -> start_col <= s) /\
  (forall i j li lj, links !! i = Some li -> links !! j = Some lj ->
     (i < j)%nat -> link_col li < link_col lj) /\
  (forall world temp_dir poppler_path st,
     _cells (ws st) = _cells sheet ->
     submits (since st (fst (dispatch_row world temp_dir poppler_path
                               video_exts (row, links) st))) =
     imap (fun i l => (l, row, start_col + Z.of_nat i)) links).
Proof.
  intros Hin%list_elem_of_In n start_col.
  destruct (group_elem _ _ Hin) as [[= Hlinks] Hne]. simpl in Hlinks, Hne.
  assert (Hn : 1 <= n).
  { subst n. destruct links; [by rewrite <- Hlinks in Hne | simpl; lia]. }
  destruct (start_col_spec sheet row n ltac:(lia) Hne) as [Hmax Hall].
  fold start_col in Hmax, Hall.
  split_and!.
  - done.
  - intros c. rewrite row_links_hyperlinked, <- Hlinks.
    split; intros (l & Hl & Hc); exists l; by rewrite ?list_elem_of_In in *.
  - done.
  - done.
  - intros i Hi Hh%Hall. lia.
  - intros s Hs. specialize (Hs _ Hmax). lia.
  - intros i j li lj Hi Hj Hij.
    apply (sorted_lookup _ (row_links_sorted sheet row) i j).
    + rewrite <- Hlinks, list_lookup_fmap, Hi. done.
    + rewrite <- Hlinks, list_lookup_fmap, Hj. done.
    + done.
  - intros world temp_dir poppler_path st Hcells.
    destruct (dispatch_row_spec world temp_dir poppler_path video_exts (row, links) st)
      as (_ & evs & imgs & wss & Hx & Hs & _).
    rewrite (since_extends _ _ _ _ Hx), Hs.
    rewrite (row_plan_cells (ws st) sheet _ Hcells).
    unfold row_plan. simpl fst. simpl snd.
    rewrite sort_sorted by (rewrite Hlinks; apply row_links_sorted).
    fold n. fold start_col. rewrite fmap_enumerate_imap.
    apply imap_ext. intros i l _. simpl. done.
Qed.
(** C10. In a run, the submitted links belong to pairwise distinct cells
    (row, originating column); no scratch file is opened for writing
    twice; and two workers whose links belong to different cells never
    write the same scratch file, in whatever states they run: a download
    is named after the row and column of its cell, a page file after
    these and the page number. *)
Theorem scratch_files_are_private world temp_dir poppler_path st :
  let st' := fst (dispatch_all world temp_dir poppler_path video_exts
                    (_group_hyperlinks (ws st)) st) in
  NoDup (task_key <$> submits (since st st')) /\
  NoDup (writes (since st st')) /\
  (forall l1 r1 c1 st1 l2 r2 c2 st2 p,
     (r1, link_col l1) <> (r2, link_col l2) ->
     In p (writes (since st1 (fst (_process_single_link world l1 r1 c1
                                    temp_dir poppler_path video_exts st1)))) ->
     In p (writes (since st2 (fst (_process_single_link world l2 r2 c2
                                    temp_dir poppler_path video_exts st2)))) ->
     False).
Proof.
  cbv zeta.
  destruct (dispatch_all_spec world temp_dir poppler_path video_exts
              (_group_hyperlinks (ws st)) st)
    as (_ & evs & imgs & wss & Hx & Hs & _ & Hw & Hf).
  rewrite (since_extends _ _ _ _ Hx), Hs, Hw.
  pose proof (plan_keys_NoDup (ws st)) as Hnd.
  split_and!.
  - exact Hnd.
  - apply (concat_writes_NoDup world temp_dir _ _ Hf Hnd).
  - intros l1 r1 c1 st1 l2 r2 c2 st2 p Hne H1 H2.
    destruct (worker_frame world temp_dir poppler_path video_exts l1 r1 c1 st1)
      as (_ & evs1 & imgs1 & Hx1 & _ & _ & Hw1).
    destruct (worker_frame world temp_dir poppler_path video_exts l2 r2 c2 st2)
      as (_ & evs2 & imgs2 & Hx2 & _ & _ & Hw2).
    rewrite (since_extends _ _ _ _ Hx1) in H1.
    rewrite (since_extends _ _ _ _ Hx2) in H2.
    apply link_writes_named in Hw1 as [Hn1 _]. apply link_writes_named in Hw2 as [Hn2 _].
    rewrite Forall_forall in Hn1, Hn2.
    apply list_elem_of_In in H1, H2.
    destruct (scratch_of_inj world temp_dir _ _ _ _ _ (Hn1 p H1) (Hn2 p H2)) as [-> Hc].
    apply Hne. by rewrite Hc.
Qed.

End RunClaims.

Section QuietFacts.


















Section Run.
Variable world : World.
Variables (excel_path output_path temp_dir poppler_path : str) (max_workers : Z).

(** Everything after the dependency check. *)
Local Abbreviation after_check :=
  (wb <- call (ELoadWorkbook excel_path) (xl_load_workbook world excel_path) ;;
   modify_ws (fun _ => wb) ;;
   ws0 <- get_ws ;;
   let row_hyperlinks := _group_hyperlinks ws0 in
   ThreadPoolExecutor max_workers ;;
   dispatch_all world temp_dir poppler_path video_exts row_hyperlinks ;;
   _adjust_dimensions ;;
   call (ESaveWorkbook output_path) (wb_save world output_path) ;;
   call (ERmtree temp_dir) (shutil_rmtree world temp_dir)).


(** The run up to the dependency check. *)
Lemma run_eq :
  process_excel_hyperlinks world excel_path output_path temp_dir poppler_path
    max_workers initial =
  let st1 := record (EMakedirs temp_dir) initial in
  match os_makedirs world temp_dir with
  | Raise e => (st1, Raise e)
  | Ok _ =>
    let st2 := record (EListdir poppler_path) st1 in
    match os_listdir world poppler_path with
    | Raise e => (st2, Raise e)
    | Ok poppler_bin =>
      match List.filter (fun f => negb (mem f poppler_bin)) required_files with
      | [] => after_check st2
      | f :: fs => (st2, Raise (FileNotFoundError (missing_message (f :: fs))))
      end
    end
  end.
Proof.
  unfold process_excel_hyperlinks.
  unfold bind at 1, call at 1, bind at 1, emit at 1, lift at 1.
  cbv beta iota zeta.
  destruct (os_makedirs world temp_dir) as [[]|e]; [|reflexivity].
  unfold bind at 1, _validate_poppler at 1.
  unfold bind at 1, call at 1, bind at 1, emit at 1, lift at 1.
  cbv beta iota zeta.
  destruct (os_listdir world poppler_path) as [poppler_bin|e]; [|reflexivity].
  destruct (List.filter _ required_files); reflexivity.
Qed.

End Run.

(** C2 at its failing input: a row with a PDF link in A1 and a JPG link
    in B1, the PDF having two pages. The links are given the columns C
    and D; the second page of the PDF and the JPG are both anchored at
    D1. *)
Theorem pdf_overflow_shares_a_cell :
  let world := fair_world (sheet_of [ (1, 1, "http://h/a.pdf"); (1, 2, "http://h/b.jpg") ]%positive)
                 [ (10, 20); (10, 20) ] in
  let res := process_excel_hyperlinks world "in.xlsx" "out.xlsx" "tmp" "poppler" 4 initial in
  snd res = Ok tt /\
  submits (trace (fst res)) =
    [ (link_at 1 1 "http://h/a.pdf", 1, 3); (link_at 1 2 "http://h/b.jpg", 1, 4) ] /\
  Image.anchor <$> images (fst res) = [ "C1" : str; "D1" : str; "D1" : str ].
Proof. vm_compute. done. Qed.

(** C8 at its failing input: a sheet whose only cell, A1, links to a PNG.
    The image is anchored at B1; rows 1 to [max_row] and columns 1 to
    [max_column] are sized, and these come from the cells alone, so
    column B, which holds the image, keeps its width. *)
Theorem image_column_keeps_its_width :
  let world := fair_world (sheet_of [ (1, 1, "http://h/a.png") ]%positive) [] in
  let res := process_excel_hyperlinks world "in.xlsx" "out.xlsx" "tmp" "poppler" 4 initial in
  snd res = Ok tt /\
  Image.anchor <$> images (fst res) = [ "B1" : str ] /\
  column_dimensions (ws (fst res)) !! ("A" : str) = Some 25 /\
  column_dimensions (ws (fst res)) !! ("B" : str) = None /\
  row_dimensions (ws (fst res)) !! 1 = Some 120.
Proof. vm_compute. done. Qed.

End QuietFacts.

Section StringFacts.
Import Py.

Lemma eqb_neq (x c : ascii) : x <> c -> Ascii.eqb x c = false.
Proof. intros H. by apply Ascii.eqb_neq. Qed.

Lemma contains_In c s : contains c s = true <-> In c s.
Proof.
  unfold contains. rewrite existsb_exists. split.
  - intros (x & Hx & ->%Ascii.eqb_eq). done.
  - intros H. exists c. split; [done | apply Ascii.eqb_refl].
Qed.

(** [find]: the text before the first occurrence holds none. *)
Lemma find_from_spec c s : forall i, 0 <= i ->
  (find_from c s i = -1 /\ ~ In c s) \/
  (exists a b, s = a ++ c :: b /\ ~ In c a /\
               find_from c s i = i + Z.of_nat (length a)).
Proof.
  induction s as [|x s IH]; intros i Hi; simpl.
  - left. split; [done | tauto].
  - destruct (Ascii.eqb_spec x c) as [-> | Hne].
    + right. exists [], s. simpl. split_and!; [done | tauto | lia].
    + destruct (IH (i + 1) ltac:(lia)) as [[Hf Hn] | (a & b & -> & Hn & Hf)].
      * left. split; [done|]. intros [? | ?]; congruence.
      * right. exists (x :: a), b. simpl. split_and!; [done | | lia].
        intros [? | ?]; congruence.
Qed.

Lemma upto_find c s : ~ In c (upto s (find c s)).
Proof.
  unfold find, upto.
  destruct (find_from_spec c s 0 ltac:(lia)) as [[-> Hn] | (a & b & -> & Hn & ->)].
  - simpl. tauto.
  - replace (Z.to_nat (0 + Z.of_nat (length a))) with (length a) by lia.
    by rewrite take_app_length.
Qed.

Lemma In_upto c s i : In c (upto s i) -> In c s.
Proof. unfold upto. intros H%list_elem_of_In. by eapply list_elem_of_In, subseteq_take. Qed.

(** [rfind] *)
Lemma rfind_from_absent c s : forall i, ~ In c s -> rfind_from c s i = -1.
Proof.
  induction s as [|x s IH]; intros i Hn; simpl; [done|].
  rewrite IH by (intros H; apply Hn; by right). simpl.
  rewrite eqb_neq; [done|]. intros ->. apply Hn. by left.
Qed.

Lemma rfind_from_bound c s : forall i, 0 <= i ->
  rfind_from c s i = -1 \/ i <= rfind_from c s i < i + Z.of_nat (length s).
Proof.
  induction s as [|x s IH]; intros i Hi; simpl; [by left|].
  destruct (IH (i + 1) ltac:(lia)) as [-> | Hb].
  - simpl. destruct (Ascii.eqb x c); [right; lia | by left].
  - destruct (Z.leb_spec 0 (rfind_from c s (i + 1))); [right; lia | lia].
Qed.





Lemma rfind_bound c s : rfind c s = -1 \/ 0 <= rfind c s < Z.of_nat (length s).
Proof. apply (rfind_from_bound c s 0). lia. Qed.

Lemma lstrip_stop (p : ascii -> bool) s :
  match s with c :: _ => p c = false | [] => True end -> lstrip p s = s.
Proof. destruct s as [|c s]; simpl; [done|]. by intros ->. Qed.








Lemma splitext_eq os p :
  OsPath.splitext os p =
  let sepIndex := sep_index os p in
  let dotIndex := rfind "." p in
  if (sepIndex <? dotIndex)
     && OsPath._splitext_loop p (Z.to_nat (dotIndex - (sepIndex + 1))) (sepIndex + 1)
  then (upto p dotIndex, from p dotIndex) else (p, []).
Proof. unfold OsPath.splitext, OsPath._splitext, sep_index. by destruct os. Qed.




Lemma not_contains c s : contains c s = false -> ~ In c s.
Proof. intros H Hin%contains_In. congruence. Qed.

(** What [urlsplit] keeps as the path: the text before the first [#] and
    the first [?]. *)
Lemma cut_no_mark (u : str) :
  ~ In "?"%char (fst (UrlParse.split_query (fst (UrlParse.split_fragment u)))) /\
  ~ In "#"%char (fst (UrlParse.split_query (fst (UrlParse.split_fragment u)))).
Proof.
  set (u1 := fst (UrlParse.split_fragment u)).
  assert (H1 : ~ In "#"%char u1).
  { subst u1. unfold UrlParse.split_fragment.
    destruct (contains "#" u) eqn:Hc; [apply upto_find | by apply not_contains]. }
  unfold UrlParse.split_query. destruct (contains "?" u1) eqn:Hc.
  - split; [apply upto_find|]. intros H%In_upto. done.
  - split; [by apply not_contains | done].
Qed.

Lemma components_path url :
  UrlParse.path (UrlParse.components url) =
  fst (UrlParse.split_query (fst (UrlParse.split_fragment
    (snd (UrlParse.split_netloc (snd (UrlParse.split_scheme (UrlParse.clean url)))))))).
Proof.
  unfold UrlParse.components. cbv zeta.
  destruct (UrlParse.split_scheme _) as [sch u1]. simpl.
  destruct (UrlParse.split_netloc u1) as [nl u2]. simpl.
  destruct (UrlParse.split_fragment u2) as [u3 fr]. simpl.
  destruct (UrlParse.split_query u3) as [u4 qu]. done.
Qed.


Lemma components_path_no_mark url :
  ~ In "?"%char (UrlParse.path (UrlParse.components url)) /\
  ~ In "#"%char (UrlParse.path (UrlParse.components url)).
Proof. rewrite components_path. apply cut_no_mark. Qed.

Lemma path_of_no_mark url :
  ~ In "?"%char (UrlParse.path_of url) /\
  ~ In "#"%char (UrlParse.path_of url).
Proof.
  unfold UrlParse.path_of. cbv zeta.
  destruct (components_path_no_mark url) as [Hq Hf].
  destruct (_ && _); [|done].
  unfold UrlParse._splitparams.
  destruct (contains "/" _).
  - cbv zeta. destruct (_ <? 0); simpl; [done|].
    split; intros H%In_upto; done.
  - simpl. split; intros H%In_upto; done.
Qed.









Lemma In_lstrip (p : ascii -> bool) c s : In c (lstrip p s) -> In c s.
Proof.
  induction s as [|x s IH]; simpl; [done|].
  destruct (p x); [intros H; right; by apply IH | done].
Qed.


Lemma In_remove_char c x s : In x (remove_char c s) -> In x s.
Proof. unfold remove_char. intros H%filter_In. tauto. Qed.




Lemma In_from c s i : In c (from s i) -> In c s.
Proof. unfold from. intros H%list_elem_of_In. by eapply list_elem_of_In, subseteq_drop. Qed.

Lemma mark_not_in m v : is_mark m -> no_mark v -> ~ In m v.
Proof. intros [-> | ->] [H1 H2]; done. Qed.



Lemma splitnetloc_snd w :
  snd (UrlParse._splitnetloc w 2) =
  from w (let step (delim : Z) (c : ascii) :=
            let wdelim := find_at c w 2 in
            if 0 <=? wdelim then Z.min delim wdelim else delim in
          step (step (step (Z.of_nat (length w)) "/"%char) "?"%char) "#"%char).
Proof. reflexivity. Qed.




















End StringFacts.

Section SheetFacts.

(** The fuel of the column-letter loop is enough: once it covers
    [col_idx], more of it changes nothing. *)
Lemma column_letter_fuel fuel : forall col_idx letters,
  col_idx <= Z.of_nat fuel ->
  _get_column_letter_loop (S fuel) col_idx letters =
  _get_column_letter_loop fuel col_idx letters.
Proof.
  induction fuel as [|fuel IH]; intros col_idx letters Hle.
  - simpl. destruct (Z.ltb_spec 0 col_idx); [lia | done].
  - cbn [_get_column_letter_loop].
    destruct (Z.ltb_spec 0 col_idx); [|done].
    assert (col_idx / 26 <= Z.of_nat fuel).
    { assert (col_idx / 26 < col_idx) by (apply Z.div_lt; lia). lia. }
    destruct (col_idx mod 26 =? 0); apply IH; lia.
Qed.

(** [_adjust_dimensions], when it returns: every column from 1 to
    [max_column] has width 25 and every row from 1 to [max_row] has
    height 120; cells and images are as before. *)
Lemma columns_loop cols : forall st st',
  for_each cols
    (fun col => letter <- lift (get_column_letter col) ;;
                modify_ws (fun ws => set_column_width ws letter 25)) st
    = (st', Ok tt) ->
  _cells (ws st') = _cells (ws st) /\ _images (ws st') = _images (ws st) /\
  row_dimensions (ws st') = row_dimensions (ws st) /\ trace st' = trace st /\
  (forall l, column_dimensions (ws st) !! l = Some 25 ->
             column_dimensions (ws st') !! l = Some 25) /\
  (forall col, In col cols ->
     exists l, get_column_letter col = Ok l /\
               column_dimensions (ws st') !! l = Some 25).
Proof.
  induction cols as [|c cols IH]; intros st st' Hrun.
  - injection Hrun as <-. split_and!; by try done.
  - rewrite for_each_cons in Hrun.
    unfold bind at 1, lift at 1 in Hrun.
    destruct (get_column_letter c) as [l|e] eqn:Hl; [|discriminate].
    cbn [modify_ws] in Hrun.
    match type of Hrun with for_each _ _ ?s = _ => set (st1 := s) in * end.
    destruct (IH st1 st' Hrun) as (Hc & Hi & Hr & Ht & Hkeep & Hset).
    split_and!; try done.
    + intros l' Hl'. apply Hkeep. subst st1. simpl.
      destruct (decide (l = l')) as [-> | Hne];
        [apply lookup_insert_eq | by rewrite lookup_insert_ne].
    + intros col [<- | Hin]; [|by apply Hset].
      exists l. split; [done|]. apply Hkeep. subst st1. simpl.
      apply lookup_insert_eq.
Qed.

Lemma rows_loop rows : forall st,
  let st' := fst (for_each rows
                    (fun row => modify_ws (fun ws => set_row_height ws row 120)) st) in
  snd (for_each rows
         (fun row => modify_ws (fun ws => set_row_height ws row 120)) st) = Ok tt /\
  _cells (ws st') = _cells (ws st) /\ _images (ws st') = _images (ws st) /\
  column_dimensions (ws st') = column_dimensions (ws st) /\ trace st' = trace st /\
  (forall r, row_dimensions (ws st) !! r = Some 120 ->
             row_dimensions (ws st') !! r = Some 120) /\
  (forall r, In r rows -> row_dimensions (ws st') !! r = Some 120).
Proof.
  induction rows as [|r rows IH]; intros st; cbv zeta.
  - simpl. split_and!; by try done.
  - rewrite for_each_cons. cbn [modify_ws].
    match goal with |- context [for_each _ _ ?s] => set (st1 := s) end.
    destruct (IH st1) as (Hok & Hc & Hi & Hcol & Ht & Hkeep & Hset).
    split_and!; try done.
    + intros r' Hr'. apply Hkeep. subst st1. simpl.
      destruct (decide (r = r')) as [-> | Hne];
        [apply lookup_insert_eq | by rewrite lookup_insert_ne].
    + intros r' [<- | Hin]; [|by apply Hset].
      apply Hkeep. subst st1. simpl. apply lookup_insert_eq.
Qed.

Lemma adjust_dimensions_spec st st' :
  _adjust_dimensions st = (st', Ok tt) ->
  _cells (ws st') = _cells (ws st) /\ _images (ws st') = _images (ws st) /\
  (forall col, 1 <= col <= max_column (ws st) ->
     exists l, get_column_letter col = Ok l /\
               column_dimensions (ws st') !! l = Some 25) /\
  (forall row, 1 <= row <= max_row (ws st) ->
     row_dimensions (ws st') !! row = Some 120).
Proof.
  unfold _adjust_dimensions. unfold bind at 1, get_ws at 1. unfold bind at 1.
  destruct (for_each (range 1 (max_column (ws st) + 1)) _ st) as [st1 [[]|e]] eqn:Hcols;
    [|discriminate].
  apply columns_loop in Hcols as (Hc & Hi & Hr & Ht & _ & Hset).
  unfold bind at 1, get_ws at 1. intros Hrows.
  pose proof (rows_loop (range 1 (max_row (ws st1) + 1)) st1) as Hrl.
  cbv zeta in Hrl. rewrite Hrows in Hrl. cbn [fst snd] in Hrl.
  destruct Hrl as (_ & Hc' & Hi' & Hcol' & _ & _ & Hset').
  assert (Hmr : max_row (ws st1) = max_row (ws st)) by (unfold max_row; by rewrite Hc).
  split_and!; [congruence | congruence | |].
  - intros col Hcol. destruct (Hset col) as (l & Hl & Hw).
    { apply list_elem_of_In, elem_of_seqZ. lia. }
    exists l. split; [done|]. by rewrite Hcol'.
  - intros row Hrow. apply Hset'. apply list_elem_of_In, elem_of_seqZ. lia.
Qed.

End SheetFacts.

Section SheetClaims.

Lemma keys_omap_sorted ws rows :
  StronglySorted Z.lt rows ->
  StronglySorted Z.lt (keys (omap (group_of ws) rows)) /\
  forall r, In r (keys (omap (group_of ws) rows)) <->
            In r rows /\ row_links ws r <> [].
Proof.
  induction 1 as [|x rows Hs IH Hall].
  - split; [constructor | simpl; tauto].
  - destruct IH as [IH1 IH2].
    assert (Hg : group_of ws x =
                 match row_links ws x with [] => None | l :: ls => Some (x, l :: ls) end)
      by reflexivity.
    simpl. rewrite Hg. destruct (row_links ws x) as [|l ls] eqn:Hl.
    + split; [done|]. intros r. rewrite IH2. split.
      * intros [? ?]. split; [by right | done].
      * intros [[<- | ?] Hne]; [by rewrite Hl in Hne | done].
    + split.
      * simpl. constructor; [done|]. apply Forall_forall. intros r Hr.
        apply list_elem_of_In, IH2 in Hr as [Hr _]. rewrite Forall_forall in Hall.
        by apply Hall, list_elem_of_In.
      * intros r. simpl. rewrite IH2. split.
        -- intros [<- | [? ?]]; [split; [by left | by rewrite Hl] | split; [by right | done]].
        -- intros [[<- | ?] Hne]; [by left | right; done].
Qed.

Lemma row_links_nonempty ws r :
  row_links ws r <> [] <-> exists c, hyperlinked ws r c.
Proof.
  split.
  - destruct (row_links ws r) as [|l ls] eqn:Hl; [done|]. intros _.
    exists (link_col l). apply row_links_hyperlinked. exists l. rewrite Hl.
    split; [left | done].
  - intros [c (l & Hl & _)%row_links_hyperlinked] Hnil. rewrite Hnil in Hl.
    by apply elem_of_nil in Hl.
Qed.

(** X1. [_group_hyperlinks]: the keys of the result are the rows that hold
    a hyperlink, each once and in ascending order; the list of a row
    holds the descriptors of its hyperlinked cells, each with the cell,
    its column and its target; a sheet without hyperlinks gives the
    empty dict. *)
Theorem groups_are_the_hyperlinked_rows sheet :
  StronglySorted Z.lt (keys (_group_hyperlinks sheet)) /\
  (forall r, In r (keys (_group_hyperlinks sheet)) <-> exists c, hyperlinked sheet r c) /\
  (forall r links l, In (r, links) (_group_hyperlinks sheet) -> In l links ->
     link_cell l = cell sheet r (link_col l) /\
     Cell.hyperlink (cell sheet r (link_col l)) = Some (link_url l)) /\
  ((forall r c, ~ hyperlinked sheet r c) <-> _group_hyperlinks sheet = []).
Proof.
  assert (Hk := keys_omap_sorted sheet (range 1 (max_row sheet + 1)) (range_sorted _ _)).
  rewrite <- group_hyperlinks_eq in Hk. destruct Hk as [Hs Hk].
  assert (Hkeys : forall r, In r (keys (_group_hyperlinks sheet)) <->
                            exists c, hyperlinked sheet r c).
  { intros r. rewrite Hk, row_links_nonempty. split; [tauto|].
    intros [c Hc]. split; [|eauto].
    apply list_elem_of_In, elem_of_seqZ. destruct (hyperlinked_inside _ _ _ Hc). lia. }
  split_and!; [done | done | |].
  - intros r links l Hg Hl. apply list_elem_of_In in Hg.
    destruct (group_elem _ _ Hg) as [[= ->] _]. simpl in Hl.
    unfold row_links, getitem in Hl. apply list_elem_of_In, list_elem_of_omap in Hl.
    destruct Hl as (c & Hc & Hl). apply list_elem_of_fmap in Hc as (col & -> & _).
    unfold link_of in Hl.
    destruct (Cell.hyperlink (cell sheet r col)) as [t|] eqn:Ht; [|done].
    injection Hl as <-. split; [reflexivity | exact Ht].
  - split.
    + intros Hno. destruct (_group_hyperlinks sheet) as [|[r ls] d] eqn:Hd; [done|].
      destruct (proj1 (Hkeys r)) as [c Hc]; [rewrite ?Hd; by left|]. by destruct (Hno r c).
    + intros Hnil r c Hc. assert (Hr : In r (keys (_group_hyperlinks sheet))) by (apply Hkeys; eauto).
      by rewrite Hnil in Hr.
Qed.


Lemma insert_by_col_perm x l : Permutation (insert_by_col x l) (x :: l).
Proof.
  induction l as [|y l IH]; simpl; [done|].
  destruct (link_col x <=? link_col y); [done|].
  rewrite IH. apply perm_swap.
Qed.

Lemma insert_by_col_sorted x l :
  StronglySorted (fun a b => link_col a <= link_col b) l ->
  StronglySorted (fun a b => link_col a <= link_col b) (insert_by_col x l).
Proof.
  induction 1 as [|y l Hs IH Hall]; simpl; [repeat constructor|].
  destruct (Z.leb_spec (link_col x) (link_col y)).
  - constructor; [by constructor|]. constructor; [done|].
    eapply Forall_impl; [exact Hall|]. simpl. intros; lia.
  - constructor; [done|]. rewrite insert_by_col_perm. constructor; [lia | done].
Qed.

Lemma insert_by_col_filter k x l :
  List.filter (fun y => link_col y =? k) (insert_by_col x l) =
  List.filter (fun y => link_col y =? k) (x :: l).
Proof.
  induction l as [|y l IH]; [done|]. cbn [insert_by_col].
  destruct (Z.leb_spec (link_col x) (link_col y)); [done|].
  cbn [List.filter] in *. rewrite IH.
  destruct (Z.eqb_spec (link_col x) k), (Z.eqb_spec (link_col y) k); try done. lia.
Qed.

(** X2. [links.sort(key=lambda x: x["col"])]: the result holds the same
    links in ascending order of their columns, links of the same column
    in the order they had; and on the lists that [_group_hyperlinks]
    builds the sort changes nothing, they are in column order already. *)
Theorem sorting_the_links_changes_nothing links :
  Permutation (sort_by_col links) links /\
  StronglySorted (fun a b => link_col a <= link_col b) (sort_by_col links) /\
  (forall k, List.filter (fun x => link_col x =? k) (sort_by_col links) =
             List.filter (fun x => link_col x =? k) links) /\
  (forall sheet row, In (row, links) (_group_hyperlinks sheet) ->
     sort_by_col links = links).
Proof.
  split_and!.
  - induction links as [|x l IH]; simpl; [done|]. by rewrite insert_by_col_perm, IH.
  - induction links as [|x l IH]; simpl; [constructor|]. by apply insert_by_col_sorted.
  - intros k. induction links as [|x l IH]; [done|].
    cbn [sort_by_col foldr]. rewrite insert_by_col_filter. cbn [List.filter].
    fold (sort_by_col l). by rewrite IH.
  - intros sheet row Hg%list_elem_of_In. destruct (group_elem _ _ Hg) as [[= ->] _].
    apply sort_sorted, row_links_sorted.
Qed.

Lemma max_of_pos l : 1 <= max_of l.
Proof. destruct l; simpl; lia. Qed.

(** X3. [_find_insert_start_col] uses [link_count] only to see whether there
    are links: without links the answer is 1 and the sheet is not read;
    with links the answer is the same for every count. It lies between 1
    and the column after the sheet's last one, and is 1 for a row without
    hyperlink. Rows are counted from 1. *)
Theorem start_col_ignores_how_many_links sheet row :
  1 <= row ->
  (forall n, n <= 0 -> forall sheet', _find_insert_start_col sheet' row n = 1) /\
  (forall n m, 0 < n -> 0 < m ->
     _find_insert_start_col sheet row n = _find_insert_start_col sheet row m) /\
  (forall n, 1 <= _find_insert_start_col sheet row n <= max_column sheet + 1) /\
  (forall n, (forall c, ~ hyperlinked sheet row c) ->
     _find_insert_start_col sheet row n = 1).
Proof.
  intros _. split_and!.
  - intros n Hn sheet'. unfold _find_insert_start_col.
    destruct (Z.ltb_spec 0 n); [lia | done].
  - intros n m Hn Hm. unfold _find_insert_start_col.
    destruct (Z.ltb_spec 0 n), (Z.ltb_spec 0 m); lia || done.
  - intros n. unfold _find_insert_start_col.
    pose proof (max_of_pos ((fun kv => snd (fst kv)) <$> map_to_list (_cells sheet))) as Hpos.
    fold (max_column sheet) in Hpos.
    destruct (0 <? n); [|lia].
    destruct (start_col_loop (getitem sheet row) 0) as (Hge & _ & [-> | (l & Hl & Hm)]); [lia|].
    assert (Hh : hyperlinked sheet row (link_col l))
      by (apply row_links_hyperlinked; eauto).
    apply hyperlinked_inside in Hh. lia.
  - intros n Hno. unfold _find_insert_start_col. destruct (0 <? n); [|done].
    destruct (start_col_loop (getitem sheet row) 0) as (_ & _ & [-> | (l & Hl & Hm)]); [done|].
    destruct (Hno (link_col l)). apply row_links_hyperlinked; eauto.
Qed.

Lemma plan_keys_eq ws :
  task_key <$> plan ws (_group_hyperlinks ws) = hyperlinked_cells ws.
Proof.
  rewrite group_hyperlinks_eq. unfold plan, hyperlinked_cells.
  induction (range 1 (max_row ws + 1)) as [|r rows IH]; [done|].
  rewrite bind_cons, <- IH. clear IH.
  assert (Hg : group_of ws r =
               match row_links ws r with [] => None | l :: ls => Some (r, l :: ls) end)
    by reflexivity.
  assert (Hc : link_col <$> row_links ws r =
               List.filter (fun c => bool_decide (hyperlinked ws r c))
                 (range 1 (max_column ws + 1)))
    by apply row_links_cols.
  rewrite <- Hc.
  change (omap (group_of ws) (r :: rows))
    with (match group_of ws r with
          | Some g => g :: omap (group_of ws) rows
          | None => omap (group_of ws) rows
          end).
  rewrite Hg. pose proof (row_links_sorted ws r) as Hs.
  destruct (row_links ws r) as [|l ls]; [done|].
  rewrite bind_cons, fmap_app, row_plan_keys. cbn [fst snd].
  rewrite sort_sorted by done. by rewrite <- list_fmap_compose.
Qed.

Lemma plan_targets ws :
  Forall (fun t => Cell.hyperlink (cell ws (fst (task_key t)) (snd (task_key t)))
                   = Some (task_url t))
    (plan ws (_group_hyperlinks ws)).
Proof.
  apply Forall_forall. intros [[l r] c] Ht. unfold plan in Ht.
  apply list_elem_of_bind in Ht as (g & Ht & Hg).
  destruct (group_elem _ _ Hg) as [Heq _].
  unfold row_plan in Ht. apply list_elem_of_fmap in Ht as ([i l'] & [= -> -> ->] & Hl).
  assert (Hin : l' ∈ sort_by_col (snd g)).
  { clear -Hl. revert Hl. generalize 0. induction (sort_by_col (snd g)) as [|x xs IH];
      intros k Hl; [by apply elem_of_nil in Hl|].
    simpl in Hl. apply elem_of_cons in Hl as [[= _ ->] | Hl]; [left | right; eauto]. }
  rewrite Heq in Hin. cbn [snd] in Hin.
  rewrite sort_sorted in Hin by apply row_links_sorted.
  unfold row_links, getitem in Hin. apply list_elem_of_omap in Hin as (c & Hc & Hl').
  apply list_elem_of_fmap in Hc as (col & -> & _). unfold link_of in Hl'.
  unfold task_key, task_url. cbn [fst snd].
  destruct (Cell.hyperlink (cell ws (fst g) col)) as [t|] eqn:Ht; [|done].
  injection Hl' as <-. exact Ht.
Qed.

(** X4. The dispatch loop: every hyperlinked cell of the sheet gets exactly
    one task, submitted in the order of the rows and, within a row, of
    the columns; and the targets of these cells are what is requested,
    once each. (In which order the requests are made is left to the
    pool, and not stated.) *)
Theorem every_hyperlink_gets_one_task world temp_dir poppler_path st :
  let st' := fst (dispatch_all world temp_dir poppler_path video_exts
                    (_group_hyperlinks (ws st)) st) in
  task_key <$> submits (since st st') = hyperlinked_cells (ws st) /\
  Permutation (Some <$> gets (since st st'))
    ((fun rc => Cell.hyperlink (cell (ws st) (fst rc) (snd rc)))
       <$> hyperlinked_cells (ws st)).
Proof.
  cbv zeta.
  destruct (dispatch_all_spec world temp_dir poppler_path video_exts
              (_group_hyperlinks (ws st)) st) as (_ & evs & imgs & wss & Hext & Hsub & Hget & _).
  rewrite (since_extends _ _ _ _ Hext), Hsub, Hget, <- plan_keys_eq.
  split; [done|].
  rewrite <- !list_fmap_compose.
  assert (Heq : Some ∘ task_url <$> plan (ws st) (_group_hyperlinks (ws st)) =
                (fun rc => Cell.hyperlink (cell (ws st) (fst rc) (snd rc))) ∘ task_key
                  <$> plan (ws st) (_group_hyperlinks (ws st))).
  { apply Forall_fmap_ext_1. eapply Forall_impl; [apply plan_targets|].
    intros t Ht. unfold compose. symmetry. exact Ht. }
  by rewrite Heq.
Qed.

End SheetClaims.

Section PopplerClaims.

Lemma mem_In x l : mem x l = true <-> In x l.
Proof.
  unfold mem. rewrite existsb_exists. split.
  - intros (y & Hy & Heq). unfold Py.str_eqb in Heq.
    apply bool_decide_eq_true_1 in Heq. by subst.
  - intros Hx. exists x. split; [done|]. by apply bool_decide_eq_true_2.
Qed.

(** X5. [_validate_poppler] lists the directory once and touches nothing
    else. It returns exactly when the listing succeeds and holds both
    [pdftoppm.exe] and [pdfinfo.exe], whatever else it holds and in
    whatever order; a listing that lacks one gives [FileNotFoundError],
    and an exception of the listing itself is passed on. *)
Theorem validation_passes_iff_both_binaries_are_listed world poppler_path st :
  let res := _validate_poppler world poppler_path st in
  fst res = record (EListdir poppler_path) st /\
  (snd res = Ok tt <->
     exists poppler_bin,
       os_listdir world poppler_path = Ok poppler_bin /\
       In (py "pdftoppm.exe") poppler_bin /\ In (py "pdfinfo.exe") poppler_bin) /\
  (forall poppler_bin, os_listdir world poppler_path = Ok poppler_bin ->
     snd res = Ok tt \/ exists msg, snd res = Raise (FileNotFoundError msg)) /\
  (forall e, os_listdir world poppler_path = Raise e -> snd res = Raise e).
Proof.
  cbv zeta. unfold _validate_poppler, call, bind, emit, lift, record.
  cbn [fst snd]. destruct (os_listdir world poppler_path) as [bin|e] eqn:Hl.
  - unfold required_files. cbn [List.filter].
    destruct (mem (py "pdftoppm.exe") bin) eqn:H1, (mem (py "pdfinfo.exe") bin) eqn:H2;
      cbn [negb]; unfold ret, raise; cbn [fst snd].
    1: { split_and!; [done | | by left | done].
         split; [|done]. intros _. exists bin. split_and!; [done | by apply mem_In..]. }
    all: split_and!; [done | | right; eauto | done].
    all: split; [done|]; intros (bin' & [= <-] & Ha & Hb);
      apply mem_In in Ha; apply mem_In in Hb; congruence.
  - cbn [fst snd]. split_and!; [done | | done | by intros ? [= <-]].
    split; [done|]. by intros (? & ? & _).
Qed.

End PopplerClaims.

Section AnchorClaims.

Lemma letter_value_chr n : 0 <= n < 256 -> letter_value (chr n) = n - 64.
Proof.
  intros Hn. unfold letter_value, chr. rewrite N_ascii_embedding by lia. lia.
Qed.

Lemma is_upper_chr n : 65 <= n <= 90 -> Py.is_upper (chr n) = true.
Proof.
  intros Hn. unfold Py.is_upper, chr. rewrite N_ascii_embedding by lia.
  apply andb_true_intro. split; apply N.leb_le; lia.
Qed.

Lemma column_value_app a b z :
  column_value (a ++ b) z = column_value a (column_value b z).
Proof. unfold column_value. by rewrite foldr_app. Qed.

(** The loop writes [col_idx] in base 26 without zero, last letter
    first, after the letters it has. *)
Lemma column_letter_loop_value fuel : forall col_idx letters,
  0 <= col_idx <= Z.of_nat fuel ->
  column_value (_get_column_letter_loop fuel col_idx letters) 0 =
  column_value letters col_idx.
Proof.
  induction fuel as [|fuel IH]; intros c acc Hc.
  - simpl. by replace c with 0 by lia.
  - cbn [_get_column_letter_loop]. destruct (Z.ltb_spec 0 c); [|by replace c with 0 by lia].
    pose proof (Z.div_mod c 26 ltac:(lia)) as Hdm.
    pose proof (Z.mod_pos_bound c 26 ltac:(lia)) as Hr.
    destruct (Z.eqb_spec (c mod 26) 0) as [H0 | H0].
    + rewrite IH by lia. rewrite column_value_app. f_equal.
      unfold column_value. simpl. rewrite letter_value_chr by lia. lia.
    + rewrite IH by lia. rewrite column_value_app. f_equal.
      unfold column_value. simpl. rewrite letter_value_chr by lia. lia.
Qed.

Lemma column_letter_loop_upper fuel : forall col_idx letters,
  Forall (fun x => Py.is_upper x = true) letters ->
  Forall (fun x => Py.is_upper x = true)
    (_get_column_letter_loop fuel col_idx letters).
Proof.
  induction fuel as [|fuel IH]; intros c acc Hacc; [done|].
  cbn [_get_column_letter_loop]. destruct (Z.ltb_spec 0 c); [|done].
  pose proof (Z.mod_pos_bound c 26 ltac:(lia)) as Hr.
  destruct (Z.eqb_spec (c mod 26) 0) as [H0 | H0]; apply IH, Forall_app;
    (split; [done|]); constructor; try done; apply is_upper_chr; lia.
Qed.

Lemma get_column_letter_value col l :
  get_column_letter col = Ok l ->
  1 <= col <= 18278 /\ column_value (rev l) 0 = col /\
  Forall (fun x => Py.is_upper x = true) l.
Proof.
  unfold get_column_letter.
  destruct (Z.leb_spec 1 col), (Z.leb_spec col 18278); cbn [andb]; try discriminate.
  intros [= <-]. rewrite rev_involutive. split_and!; [lia.. | |].
  - rewrite column_letter_loop_value by lia. done.
  - apply Forall_rev, column_letter_loop_upper. constructor.
Qed.

Lemma upper_not_int_char c : Py.is_upper c = true -> int_char c = false.
Proof.
  unfold Py.is_upper, int_char, Py.is_digit. intros [H1 H2]%andb_prop.
  apply N.leb_le in H1. apply orb_false_intro.
  - apply andb_false_intro2, N.leb_gt. lia.
  - destruct (Ascii.eqb_spec c "-"); [|done]. subst. simpl in H1. lia.
Qed.

(** A text made of letters followed by a printed integer is read in one
    way only. *)
Lemma letters_digits_unique (l1 l2 d1 d2 : str) :
  Forall (fun c => int_char c = false) l1 ->
  Forall (fun c => int_char c = false) l2 ->
  Forall (fun c => int_char c = true) d1 ->
  Forall (fun c => int_char c = true) d2 ->
  l1 ++ d1 = l2 ++ d2 -> l1 = l2 /\ d1 = d2.
Proof.
  revert l2. induction l1 as [|x l1 IH]; intros l2 H1 H2 H3 H4 Heq.
  - destruct l2 as [|y l2]; [done|]. simpl in Heq. subst d1.
    apply Forall_cons in H2 as [Hy _]. apply Forall_cons in H3 as [Hy' _]. congruence.
  - destruct l2 as [|y l2].
    + simpl in Heq. subst d2.
      apply Forall_cons in H1 as [Hx _]. apply Forall_cons in H4 as [Hx' _]. congruence.
    + injection Heq as -> Heq. apply Forall_cons in H1 as [_ H1].
      apply Forall_cons in H2 as [_ H2].
      destruct (IH l2 H1 H2 H3 H4 Heq) as [-> ->]. done.
Qed.

Lemma cell_ref_parts r c a :
  cell_ref r c = Ok a ->
  exists l, get_column_letter c = Ok l /\ a = l ++ Py.str_of_int r.
Proof.
  unfold cell_ref. destruct (get_column_letter c) as [l|e]; [|done].
  intros [= <-]. eauto.
Qed.

Lemma cell_ref_inj r1 c1 r2 c2 a :
  cell_ref r1 c1 = Ok a -> cell_ref r2 c2 = Ok a -> r1 = r2 /\ c1 = c2.
Proof.
  intros (l1 & Hl1 & ->)%cell_ref_parts (l2 & Hl2 & Heq)%cell_ref_parts.
  destruct (get_column_letter_value _ _ Hl1) as (_ & Hv1 & Hu1).
  destruct (get_column_letter_value _ _ Hl2) as (_ & Hv2 & Hu2).
  apply letters_digits_unique in Heq as [-> Hr].
  - split; [by apply str_of_int_inj | congruence].
  - eapply Forall_impl; [exact Hu1 | apply upper_not_int_char].
  - eapply Forall_impl; [exact Hu2 | apply upper_not_int_char].
  - apply str_of_int_chars.
  - apply str_of_int_chars.
Qed.

Lemma column_letter_loop_length n : forall fuel col_idx letters,
  col_idx <= letters_bound n ->
  (length (_get_column_letter_loop fuel col_idx letters) <= length letters + n)%nat.
Proof.
  induction n as [|n IH]; intros fuel c acc Hc.
  - destruct fuel; simpl in *; [lia|]. destruct (Z.ltb_spec 0 c); lia.
  - destruct fuel; [simpl; lia|]. cbn [_get_column_letter_loop].
    destruct (Z.ltb_spec 0 c); [|lia].
    pose proof (Z.div_mod c 26 ltac:(lia)) as Hdm.
    pose proof (Z.mod_pos_bound c 26 ltac:(lia)) as Hr.
    cbn [letters_bound] in Hc.
    destruct (Z.eqb_spec (c mod 26) 0) as [H0 | H0].
    + etransitivity; [apply IH; lia|]. rewrite length_app. simpl. lia.
    + etransitivity; [apply IH; lia|]. rewrite length_app. simpl. lia.
Qed.

(** X6. The anchor text [f"{get_column_letter(col)}{row}"] exists for the
    columns 1 to 18278 only. It is one to three capital letters followed
    by the printed row, and it names one cell only: two slots with the
    same anchor are the same row and column. *)
Theorem anchors_tell_cells_apart r c a :
  cell_ref r c = Ok a ->
  1 <= c <= 18278 /\
  (exists letters,
     a = letters ++ Py.str_of_int r /\
     (1 <= length letters <= 3)%nat /\
     Forall (fun x => Py.is_upper x = true) letters) /\
  forall r' c', cell_ref r' c' = Ok a -> r' = r /\ c' = c.
Proof.
  intros Ha. destruct (cell_ref_parts _ _ _ Ha) as (l & Hl & ->).
  destruct (get_column_letter_value _ _ Hl) as (Hc & Hv & Hu).
  split_and!; [lia.. | |].
  - exists l. split_and!; [done | | | done].
    + destruct l; [simpl in Hv; lia | simpl; lia].
    + unfold get_column_letter in Hl.
      destruct ((1 <=? c) && (c <=? 18278)); [|done]. injection Hl as <-.
      rewrite length_rev.
      apply (column_letter_loop_length 3 _ c []). simpl. lia.
  - intros r' c' Ha'. destruct (cell_ref_inj _ _ _ _ _ Ha' Ha). done.
Qed.

End AnchorClaims.

Section DimensionClaims.

Local Abbreviation size_column :=
  (fun col => letter <- lift (get_column_letter col) ;;
              modify_ws (fun ws => set_column_width ws letter 25)).
Local Abbreviation size_row :=
  (fun row => modify_ws (fun ws => set_row_height ws row 120)).

Lemma set_column_width_id st l :
  column_dimensions (ws st) !! l = Some 25 ->
  {| ws := set_column_width (ws st) l 25; trace := trace st |} = st.
Proof.
  intros Hl. destruct st as [[cells imgs cd rd] tr]. unfold set_column_width.
  simpl in *. by rewrite insert_id.
Qed.

Lemma set_row_height_id st r :
  row_dimensions (ws st) !! r = Some 120 ->
  {| ws := set_row_height (ws st) r 120; trace := trace st |} = st.
Proof.
  intros Hl. destruct st as [[cells imgs cd rd] tr]. unfold set_row_height.
  simpl in *. by rewrite insert_id.
Qed.

Lemma size_column_eq col st :
  size_column col st =
  match get_column_letter col with
  | Ok l => ({| ws := set_column_width (ws st) l 25; trace := trace st |}, Ok tt)
  | Raise e => (st, Raise e)
  end.
Proof. unfold bind, lift, modify_ws. by destruct (get_column_letter col). Qed.

(** The column loop, whether it ends or raises: only widths change, and
    only those of the letters of the columns it has passed, to 25. *)
Lemma columns_loop_any cols : forall st st' r,
  for_each cols size_column st = (st', r) ->
  _cells (ws st') = _cells (ws st) /\ _images (ws st') = _images (ws st) /\
  row_dimensions (ws st') = row_dimensions (ws st) /\ trace st' = trace st /\
  (forall l, column_dimensions (ws st) !! l = Some 25 ->
             column_dimensions (ws st') !! l = Some 25) /\
  (forall l, (forall col, In col cols -> get_column_letter col <> Ok l) ->
             column_dimensions (ws st') !! l = column_dimensions (ws st) !! l) /\
  (r = Ok tt <-> forall col, In col cols -> 1 <= col <= 18278).
Proof.
  induction cols as [|c cols IH]; intros st st' r Hrun.
  - injection Hrun as <- <-. split_and!; try done.
    all: split; [by intros _ ? [] | done].
  - rewrite for_each_cons, size_column_eq in Hrun.
    destruct (get_column_letter c) as [l|e] eqn:Hl.
    + match type of Hrun with for_each _ _ ?s = _ => set (st1 := s) in * end.
      destruct (IH st1 st' r Hrun) as (Hc & Hi & Hr & Ht & Hkeep & Hframe & Hok).
      split_and!; try done.
      * intros l' Hl'. apply Hkeep. subst st1. simpl.
        destruct (decide (l = l')) as [-> | Hne];
          [apply lookup_insert_eq | by rewrite lookup_insert_ne].
      * intros l' Hl'. rewrite Hframe by (intros; apply Hl'; by right).
        subst st1. simpl. apply lookup_insert_ne. intros ->.
        by apply (Hl' c); [left|].
      * rewrite Hok. split.
        -- intros H col [<- | Hin]; [|by apply H].
           unfold get_column_letter in Hl.
           destruct (Z.leb_spec 1 c), (Z.leb_spec c 18278); done || lia.
        -- intros H col Hin. apply H. by right.
    + injection Hrun as <- <-. split_and!; try done. split; [done|].
      intros H. specialize (H c ltac:(by left)). unfold get_column_letter in Hl.
      destruct (Z.leb_spec 1 c), (Z.leb_spec c 18278); done || lia.
Qed.

Lemma columns_loop_sized cols : forall st st',
  for_each cols size_column st = (st', Ok tt) ->
  forall col, In col cols ->
    exists l, get_column_letter col = Ok l /\
              column_dimensions (ws st') !! l = Some 25.
Proof. intros st st' Hrun. by apply columns_loop in Hrun as (_ & _ & _ & _ & _ & H). Qed.

Lemma rows_loop_eq rows : forall st,
  exists st', for_each rows size_row st = (st', Ok tt) /\
  _cells (ws st') = _cells (ws st) /\ _images (ws st') = _images (ws st) /\
  column_dimensions (ws st') = column_dimensions (ws st) /\ trace st' = trace st /\
  (forall r, In r rows -> row_dimensions (ws st') !! r = Some 120) /\
  (forall r, row_dimensions (ws st) !! r = Some 120 ->
             row_dimensions (ws st') !! r = Some 120) /\
  (forall r, ~ In r rows -> row_dimensions (ws st') !! r = row_dimensions (ws st) !! r).
Proof.
  induction rows as [|r rows IH]; intros st.
  - exists st. split_and!; try done. all: by intros ? [].
  - rewrite for_each_cons. cbn [modify_ws].
    match goal with |- context [for_each _ _ ?s] => set (st1 := s) end.
    destruct (IH st1) as (st' & Hrun & Hc & Hi & Hcol & Ht & Hset & Hkeep & Hframe).
    exists st'. split_and!; try done.
    + intros r' [<- | Hin]; [|by apply Hset].
      apply Hkeep. subst st1. simpl. apply lookup_insert_eq.
    + intros r' Hr'. apply Hkeep. subst st1. simpl.
      destruct (decide (r = r')) as [-> | Hne];
        [apply lookup_insert_eq | by rewrite lookup_insert_ne].
    + intros r' Hr'. rewrite Hframe by (intros ?; apply Hr'; by right).
      subst st1. simpl. apply lookup_insert_ne. intros ->. apply Hr'. by left.
Qed.

Lemma adjust_dimensions_eq st :
  _adjust_dimensions st =
  match for_each (range 1 (max_column (ws st) + 1)) size_column st with
  | (st1, Ok _) => for_each (range 1 (max_row (ws st1) + 1)) size_row st1
  | (st1, Raise e) => (st1, Raise e)
  end.
Proof. reflexivity. Qed.

(** X8. [_adjust_dimensions] returns exactly when the sheet's last column
    has a letter (at most 18278). It then leaves every column from 1 to
    [max_column] with width 25 and every row from 1 to [max_row] with
    height 120, and nothing else is changed: the cells, the images, the
    widths of other columns and the heights of other rows are as
    before, and nothing is recorded. *)
Theorem adjust_dimensions_sizes_the_cell_range st :
  let res := _adjust_dimensions st in
  (snd res = Ok tt <-> max_column (ws st) <= 18278) /\
  (snd res = Ok tt ->
     _cells (ws (fst res)) = _cells (ws st) /\
     _images (ws (fst res)) = _images (ws st) /\
     trace (fst res) = trace st /\
     (forall col, 1 <= col <= max_column (ws st) ->
        exists l, get_column_letter col = Ok l /\
                  column_dimensions (ws (fst res)) !! l = Some 25) /\
     (forall row, 1 <= row <= max_row (ws st) ->
        row_dimensions (ws (fst res)) !! row = Some 120) /\
     (forall l, (forall col, 1 <= col <= max_column (ws st) ->
                   get_column_letter col <> Ok l) ->
        column_dimensions (ws (fst res)) !! l = column_dimensions (ws st) !! l) /\
     (forall row, ~ 1 <= row <= max_row (ws st) ->
        row_dimensions (ws (fst res)) !! row = row_dimensions (ws st) !! row)).
Proof.
  cbv zeta. rewrite adjust_dimensions_eq.
  destruct (for_each (range 1 (max_column (ws st) + 1)) size_column st)
    as [st1 r] eqn:Hcols.
  pose proof (columns_loop_any _ _ _ _ Hcols) as (Hc & Hi & Hr & Ht & _ & Hframe & Hok).
  assert (Hrange : (forall col, In col (range 1 (max_column (ws st) + 1)) -> 1 <= col <= 18278)
                   <-> max_column (ws st) <= 18278).
  { split.
    - intros H. pose proof (max_of_pos ((fun kv => snd (fst kv)) <$> map_to_list (_cells (ws st)))) as Hp.
      fold (max_column (ws st)) in Hp.
      specialize (H (max_column (ws st))). apply H.
      apply list_elem_of_In, elem_of_seqZ. lia.
    - intros H col Hin%list_elem_of_In%elem_of_seqZ. lia. }
  destruct r as [[]|e].
  - destruct (rows_loop_eq (range 1 (max_row (ws st1) + 1)) st1)
      as (st2 & Hrows & Hc' & Hi' & Hcol' & Ht' & Hset' & _ & Hframe').
    rewrite Hrows. cbn [fst snd].
    assert (Hmr : max_row (ws st1) = max_row (ws st)) by (unfold max_row; by rewrite Hc).
    split; [split; [intros _; exact (proj1 Hrange (proj1 Hok eq_refl)) | done]|]. intros _.
    split_and!; try congruence.
    + intros col Hcol.
      destruct (columns_loop_sized _ _ _ Hcols col) as (l & Hl & Hw).
      { apply list_elem_of_In, elem_of_seqZ. lia. }
      exists l. split; [done|]. by rewrite Hcol'.
    + intros row Hrow. apply Hset', list_elem_of_In, elem_of_seqZ. lia.
    + intros l Hl. rewrite Hcol'. apply Hframe.
      intros col Hin%list_elem_of_In%elem_of_seqZ. apply Hl. lia.
    + intros row Hrow. rewrite Hframe'; [by rewrite Hr|].
      intros Hin%list_elem_of_In%elem_of_seqZ. apply Hrow. lia.
  - cbn [fst snd]. split; [|done]. split; [done|].
    intros H. by pose proof (proj2 Hok (proj2 Hrange H)).
Qed.

Lemma columns_loop_again cols : forall st st' r,
  for_each cols size_column st = (st', r) ->
  forall s, (forall l, column_dimensions (ws st') !! l = Some 25 ->
                       column_dimensions (ws s) !! l = Some 25) ->
  for_each cols size_column s = (s, r).
Proof.
  induction cols as [|c cols IH]; intros st st' r Hrun s Hs.
  - by injection Hrun as <- <-.
  - rewrite for_each_cons, size_column_eq in Hrun. rewrite for_each_cons, size_column_eq.
    destruct (get_column_letter c) as [l|e] eqn:Hl.
    + match type of Hrun with for_each _ _ ?s = _ => set (st1 := s) in * end.
      pose proof (columns_loop_any _ _ _ _ Hrun) as (_ & _ & _ & _ & Hkeep & _).
      rewrite set_column_width_id.
      * by apply (IH st1 st' r).
      * apply Hs, Hkeep. subst st1. simpl. apply lookup_insert_eq.
    + by injection Hrun as <- <-.
Qed.

Lemma rows_loop_again rows : forall s,
  (forall r, In r rows -> row_dimensions (ws s) !! r = Some 120) ->
  for_each rows size_row s = (s, Ok tt).
Proof.
  induction rows as [|r rows IH]; intros s Hs; [done|].
  rewrite for_each_cons. cbn [modify_ws]. rewrite set_row_height_id.
  - apply IH. intros; apply Hs; by right.
  - apply Hs. by left.
Qed.

(** X9. Sizing twice is sizing once: [_adjust_dimensions] run on the sheet
    it has left does the same (it returns or raises as before) and
    leaves that sheet as it is. *)
Theorem adjust_dimensions_twice_is_once st :
  _adjust_dimensions (fst (_adjust_dimensions st)) =
  (fst (_adjust_dimensions st), snd (_adjust_dimensions st)).
Proof.
  rewrite (adjust_dimensions_eq st).
  destruct (for_each (range 1 (max_column (ws st) + 1)) size_column st)
    as [st1 r] eqn:Hcols.
  pose proof (columns_loop_any _ _ _ _ Hcols) as (Hc & _).
  assert (Hmc : max_column (ws st1) = max_column (ws st)) by (unfold max_column; by rewrite Hc).
  destruct r as [[]|e].
  - destruct (rows_loop_eq (range 1 (max_row (ws st1) + 1)) st1)
      as (st2 & Hrows & Hc' & _ & Hcol' & _ & Hset' & _ & _).
    rewrite Hrows. cbn [fst snd]. rewrite adjust_dimensions_eq.
    assert (Hmc' : max_column (ws st2) = max_column (ws st))
      by (unfold max_column; by rewrite Hc', Hc).
    assert (Hmr' : max_row (ws st2) = max_row (ws st1))
      by (unfold max_row; by rewrite Hc').
    rewrite Hmc'.
    rewrite (columns_loop_again _ _ _ _ Hcols st2) by (intros l; by rewrite Hcol').
    rewrite Hmr'. by apply rows_loop_again.
  - cbn [fst snd]. rewrite adjust_dimensions_eq, Hmc.
    by rewrite (columns_loop_again _ _ _ _ Hcols st1).
Qed.

End DimensionClaims.

Section ExtensionClaims.
Import Py.

(** [rfind]: the text after the last occurrence holds none. *)
Lemma rfind_from_spec c s : forall i, 0 <= i ->
  (rfind_from c s i = -1 /\ ~ In c s) \/
  (exists a b, s = a ++ c :: b /\ ~ In c b /\
               rfind_from c s i = i + Z.of_nat (length a)).
Proof.
  induction s as [|x s IH]; intros i Hi; [left; split; [done | by intros []]|].
  cbn [rfind_from]. destruct (IH (i + 1) ltac:(lia)) as [[Hr Hno] | (a & b & -> & Hb & Hr)].
  - rewrite Hr. cbn [Z.leb Z.compare]. destruct (Ascii.eqb_spec x c) as [-> | Hne].
    + right. exists [], s. split_and!; [done | done | simpl; lia].
    + left. split; [done|]. intros [? | ?]; done.
  - right. exists (x :: a), b. rewrite Hr.
    destruct (Z.leb_spec 0 (i + 1 + Z.of_nat (length a))); [|lia].
    split_and!; [done | done | simpl length; lia].
Qed.

Lemma sep_index_ge os c p :
  OsPath.is_sep os c = true -> rfind c p <= sep_index os p.
Proof.
  unfold OsPath.is_sep, sep_index. destruct os; simpl.
  - rewrite orb_false_r. intros ->%Ascii.eqb_eq. lia.
  - intros [->%Ascii.eqb_eq | ->%Ascii.eqb_eq]%orb_prop; lia.
Qed.

Lemma sep_index_lower os p : -1 <= sep_index os p.
Proof.
  unfold sep_index. pose proof (rfind_bound (OsPath.sep os) p).
  destruct (OsPath.altsep os); lia.
Qed.

(** What [splitext] gives as the extension: nothing, or the last dot of
    the path and what follows it, which holds no dot and no separator. *)
Lemma splitext_snd os p :
  snd (OsPath.splitext os p) = [] \/
  exists a b, p = a ++ "."%char :: b /\
    snd (OsPath.splitext os p) = "."%char :: b /\
    ~ In "."%char b /\ no_sep os b.
Proof.
  rewrite splitext_eq. cbv zeta.
  destruct (rfind_from_spec "." p 0 ltac:(lia)) as [[Hr _] | (a & b & Hp & Hb & Hr)].
  - unfold rfind. rewrite Hr. pose proof (sep_index_lower os p).
    destruct (Z.ltb_spec (sep_index os p) (-1)); [lia | by left].
  - fold (rfind "." p) in Hr. rewrite Hr. simpl in Hr.
    destruct (Z.ltb_spec (sep_index os p) (0 + Z.of_nat (length a))) as [Hlt|]; [|by left].
    destruct (OsPath._splitext_loop _ _ _); [|by left].
    right. exists a, b. cbn [andb snd]. split_and!; [done | | done |].
    + unfold from. rewrite Hp. replace (Z.to_nat (0 + Z.of_nat (length a))) with (length a) by lia.
      by rewrite drop_app_length.
    + intros c Hc. destruct (OsPath.is_sep os c) eqn:Hsep; [exfalso | done].
      pose proof (sep_index_ge os c p Hsep) as Hge.
      destruct (rfind_from_spec c p 0 ltac:(lia)) as [[_ Hno] | (a' & b' & Hp' & Hb' & Hr')].
      { apply Hno. rewrite Hp. apply in_or_app. right. by right. }
      fold (rfind c p) in Hr'. apply Hb'.
      assert (Hb1 : b = drop (S (length a)) p).
      { rewrite Hp at 1. rewrite (cons_middle "."%char a b), app_assoc.
        rewrite drop_app_length'; [done|]. rewrite length_app. simpl. lia. }
      assert (Hb2 : b' = drop (S (length a')) p).
      { rewrite Hp' at 1. rewrite (cons_middle c a' b'), app_assoc.
        rewrite drop_app_length'; [done|]. rewrite length_app. simpl. lia. }
      rewrite Hb2. rewrite Hb1 in Hc.
      replace (S (length a)) with (S (length a') + (length a - length a'))%nat in Hc by lia.
      rewrite <- drop_drop in Hc. apply list_elem_of_In in Hc.
      apply list_elem_of_In. eapply subseteq_drop, Hc.
Qed.

(** [lower] turns no character into a dot, a mark or a separator, and
    lowers nothing twice. *)
Lemma lower_char_plain x :
  lower_char (lower_char x) = lower_char x /\
  (lower_char x = "."%char -> x = "."%char) /\
  (lower_char x = "?"%char -> x = "?"%char) /\
  (lower_char x = "#"%char -> x = "#"%char) /\
  (lower_char x = "/"%char -> x = "/"%char) /\
  (lower_char x = "\"%char -> x = "\"%char).
Proof.
  destruct x as [[] [] [] [] [] [] [] []]; vm_compute;
    split_and!; first [reflexivity | intros H; first [discriminate H | reflexivity]].
Qed.

Lemma lower_lower s : lower (lower s) = lower s.
Proof.
  unfold lower. rewrite map_map. apply map_ext. intros x.
  apply lower_char_plain.
Qed.

Lemma is_sep_chars os c :
  OsPath.is_sep os c = true -> c = "/"%char \/ c = "\"%char.
Proof.
  unfold OsPath.is_sep. destruct os; simpl.
  - rewrite orb_false_r. intros ->%Ascii.eqb_eq. by left.
  - intros [->%Ascii.eqb_eq | ->%Ascii.eqb_eq]%orb_prop; [by right | by left].
Qed.

(** The extension is nothing, or the text after the last dot of the
    path in lower case, a text without dot and without separator. *)
Lemma extension_cases os url :
  extension_of os url = [] \/
  exists a b, UrlParse.path_of url = a ++ "."%char :: b /\
    ~ In "."%char b /\ no_sep os b /\
    extension_of os url = lower b.
Proof.
  unfold extension_of. cbv zeta.
  destruct (splitext_snd os (UrlParse.path_of url)) as [-> | (a & b & Hp & -> & Hb & Hs)];
    [by left|].
  right. exists a, b. split_and!; try done. cbn [lstrip Ascii.eqb].
  replace (Ascii.eqb "." ".") with true by done. cbn iota.
  rewrite lstrip_stop; [done|]. destruct b as [|x b]; [done|].
  destruct (Ascii.eqb_spec "."%char x) as [<- | ?]; [|done].
  destruct Hb. by left.
Qed.

Lemma extension_chars os url c :
  In c (extension_of os url) ->
  c <> "."%char /\ OsPath.is_sep os c = false /\
  c <> "?"%char /\ c <> "#"%char.
Proof.
  destruct (extension_cases os url) as [-> | (a & b & Hp & Hb & Hs & ->)]; [by intros []|].
  unfold lower. intros (x & <- & Hx)%in_map_iff.
  destruct (path_of_no_mark url) as [Hq Hf]. rewrite Hp in Hq, Hf.
  assert (Hpb : forall y, In y b -> In y (a ++ "."%char :: b))
    by (intros; apply in_or_app; right; by right).
  destruct (lower_char_plain x) as (_ & Hdot & Hqm & Hfm & Hsl & Hbs).
  split_and!.
  - intros He. apply Hdot in He. by subst.
  - destruct (OsPath.is_sep os (lower_char x)) eqn:Hsep; [|done].
    pose proof (is_sep_chars _ _ Hsep) as [He | He]; rewrite He in Hsep;
      [apply Hsl in He | apply Hbs in He]; subst x; by rewrite (Hs _ Hx) in Hsep.
  - intros He. apply Hqm in He. subst. auto.
  - intros He. apply Hfm in He. subst. auto.
Qed.

Lemma extension_lowered os url : lower (extension_of os url) = extension_of os url.
Proof. unfold extension_of. apply lower_lower. Qed.

Lemma In_split1_fst c x s : In x (fst (split1 c s)) -> In x s.
Proof. unfold split1. simpl. apply In_upto. Qed.

Lemma In_path_of c url : In c (UrlParse.path_of url) -> In c url.
Proof.
  intros Hc.
  assert (Hpath : In c (UrlParse.path (UrlParse.components url))).
  { unfold UrlParse.path_of in Hc. cbv zeta in Hc.
    destruct (_ && _); [|done]. unfold UrlParse._splitparams in Hc.
    destruct (contains "/" _).
    - cbv zeta in Hc. destruct (_ <? 0); [done|]. simpl in Hc. by apply In_upto in Hc.
    - simpl in Hc. by apply In_upto in Hc. }
  clear Hc. rewrite components_path in Hpath.
  assert (H1 : forall s, In c (fst (UrlParse.split_query s)) -> In c s).
  { intros s. unfold UrlParse.split_query. destruct (contains "?" s); [apply In_split1_fst | done]. }
  assert (H2 : forall s, In c (fst (UrlParse.split_fragment s)) -> In c s).
  { intros s. unfold UrlParse.split_fragment. destruct (contains "#" s); [apply In_split1_fst | done]. }
  assert (H3 : forall s, In c (snd (UrlParse.split_netloc s)) -> In c s).
  { intros s. unfold UrlParse.split_netloc. destruct (str_eqb _ _); [|done].
    rewrite splitnetloc_snd. apply In_from. }
  assert (H4 : forall s, In c (snd (UrlParse.split_scheme s)) -> In c s).
  { intros s. unfold UrlParse.split_scheme. destruct (_ && _); [|done]. simpl. apply In_from. }
  apply H1, H2, H3, H4 in Hpath. unfold UrlParse.clean in Hpath.
  by apply In_remove_char, In_remove_char, In_remove_char, In_lstrip in Hpath.
Qed.

Lemma extension_of_flavours url :
  ~ In "\"%char url -> extension_of nt url = extension_of posix url.
Proof.
  intros Hno. unfold extension_of. cbv zeta. do 3 f_equal.
  rewrite !splitext_eq. cbv zeta.
  assert (Hs : sep_index nt (UrlParse.path_of url) =
               sep_index posix (UrlParse.path_of url)).
  { unfold sep_index. simpl.
    unfold rfind at 1. rewrite rfind_from_absent
      by (intros Hin; by apply Hno, In_path_of).
    pose proof (rfind_bound "/" (UrlParse.path_of url)). lia. }
  by rewrite Hs.
Qed.




(** [lower] leaves no capital letter. *)
Lemma lower_char_small x :
  is_upper (lower_char x) = false /\ is_latin1_upper (lower_char x) = false.
Proof. destruct x as [[] [] [] [] [] [] [] []]; vm_compute; done. Qed.

(** X10. When [_get_file_extension] returns, it returns nothing or a
    plain word: what follows a dot of the path, in lower case, with no
    dot, no path separator, no [?] and no [#], and no capital letter. A
    file name built from it has one segment. *)
Theorem extension_is_a_plain_word os url e :
  _get_file_extension os url = Ok e ->
  (e = [] \/
   exists a b,
     UrlParse.urlparse_path url = Ok (a ++ "."%char :: b) /\ e = lower b) /\
  lower e = e /\
  forall c, In c e ->
    c <> "."%char /\ OsPath.is_sep os c = false /\
    c <> "?"%char /\ c <> "#"%char /\
    is_upper c = false /\ is_latin1_upper c = false.
Proof.
  intros He.
  assert (Hp : UrlParse.urlparse_path url = Ok (UrlParse.path_of url)).
  { revert He. rewrite get_file_extension_eq, urlparse_path_eq.
    by destruct (UrlParse.check_netloc _). }
  apply get_file_extension_ok in He as ->. split_and!.
  - destruct (extension_cases os url) as [? | (a & b & Ha & _ & _ & ?)]; [by left|].
    right. exists a, b. by rewrite Hp, Ha.
  - apply extension_lowered.
  - intros c Hc. destruct (extension_chars os url c Hc) as (? & ? & ? & ?).
    split_and!; try done.
    + unfold extension_of, lower in Hc. apply in_map_iff in Hc as (x & <- & _).
      apply lower_char_small.
    + unfold extension_of, lower in Hc. apply in_map_iff in Hc as (x & <- & _).
      apply lower_char_small.
Qed.

(** X11. The two flavours of [os.path] give the same extension for a URL
    without backslash: on Windows a backslash is a path separator too,
    and nothing else tells the flavours apart. *)
Theorem extension_is_the_same_on_both_platforms url :
  ~ In "\"%char url ->
  _get_file_extension nt url = _get_file_extension posix url.
Proof.
  intros Hno. rewrite !get_file_extension_eq.
  by rewrite (extension_of_flavours url Hno).
Qed.

End ExtensionClaims.

Section HostClaims.
Import Py.





End HostClaims.

Section ExtensionClaim.


End ExtensionClaim.

Section WorkerExtras.
Variable world : World.
Variables (link : Link) (row start_col : Z) (temp_dir poppler_path : str).
Variable vexts : list str.

Local Abbreviation page_file := (page_path world temp_dir row (link_col link)).
Local Abbreviation page_body :=
  (_process_single_link_page world link row start_col temp_dir).
Local Abbreviation classified :=
  (_get_file_extension (platform world) (link_url link)).
Local Abbreviation file_path :=
  (scratch_path world temp_dir row (link_col link)).
Local Abbreviation worker :=
  (_process_single_link world link row start_col temp_dir poppler_path vexts).
Local Abbreviation try_block :=
  (_process_single_link_try world link row start_col temp_dir poppler_path vexts).

(** X7. [_insert_image] opens the file and records nothing else. It returns
    exactly when the file decodes and the column has a letter (1 to
    18278); the sheet then has one more image, the last one, 180 by 120
    whatever the decoded size, anchored at the cell of the row and the
    column. Otherwise the sheet is as before; a column without letter
    gives [ValueError]. *)
Theorem insert_image_needs_a_column_letter img_path r col st :
  let res := _insert_image world img_path r col st in
  trace (fst res) = trace st ++ [EImageOpen img_path] /\
  (snd res = Ok tt <->
     (exists sz, image_open world img_path = Ok sz) /\ 1 <= col <= 18278) /\
  (snd res = Ok tt ->
     exists a, cell_ref r col = Ok a /\
       ws (fst res) = add_image (ws st) (thumb img_path a) a) /\
  (snd res <> Ok tt -> ws (fst res) = ws st) /\
  (forall sz, image_open world img_path = Ok sz -> ~ 1 <= col <= 18278 ->
     exists msg, snd res = Raise (ValueError msg)).
Proof.
  cbv zeta. rewrite insert_image_eq.
  assert (Hcol : (exists a, cell_ref r col = Ok a) <-> 1 <= col <= 18278).
  { split; [|apply cell_ref_in_range].
    intros [a Ha]. unfold cell_ref, get_column_letter in Ha.
    destruct (Z.leb_spec 1 col), (Z.leb_spec col 18278); done || lia. }
  destruct (image_open world img_path) as [sz|e].
  - destruct (cell_ref r col) as [a|e] eqn:Ha.
    + split_and!; try done.
      * split; [|done]. intros _. split; [eauto|]. apply Hcol. eauto.
      * intros _. exists a. done.
      * intros sz' _ Hno. destruct Hno. apply Hcol. eauto.
    + split_and!; try done.
      * split; [done|]. intros [_ [a Ha']%Hcol]. done.
      * intros sz' _ _. unfold cell_ref, get_column_letter in Ha.
        destruct ((1 <=? col) && (col <=? 18278)); [done|].
        injection Ha as <-. eauto.
  - split_and!; try done. split; [done|]. by intros [[sz Hsz] _].
Qed.

(** X13. A link whose request raises, or is answered with a status from 400
    to 599, leaves nothing behind: no scratch file is opened, the sheet
    is as before, and the failure is logged once; as a failed download
    whenever the exception is one of [requests], which an error status
    always is. *)
Theorem failed_download_leaves_nothing st e :
  requests_get world (link_url link) = Raise e \/
  (exists response,
     requests_get world (link_url link) = Ok response /\
     (400 <= status_code response < 600) /\
     e = RequestException (Py.str_of_int (status_code response))) ->
  worker st =
    ({| ws := ws st;
        trace := trace st ++ [ EGet (link_url link);
                               ELog (error_record link row e) ] |}, Ok tt) /\
  (forall msg, e = RequestException msg ->
     error_record link row e = DownloadFailed (link_url link) e row (link_col link)).
Proof.
  intros Hfail. split; [|by intros msg ->].
  rewrite worker_eq, try_eq. cbv zeta.
  destruct Hfail as [-> | (response & -> & Hst & ->)].
  - unfold record. simpl. by rewrite <- app_assoc.
  - unfold bad_status.
    destruct (Z.leb_spec 400 (status_code response)),
             (Z.ltb_spec (status_code response) 600); try lia.
    unfold record. simpl. by rewrite <- app_assoc.
Qed.

(** What the [try] block logs: at most one record, none when it
    raises; and when it returns without a record, the link is an image
    that was anchored or a PDF with an image for each page. *)
Lemma try_logs st :
  let res := try_block st in
  exists imgs evs,
    extends st (fst res) evs imgs /\
    match snd res with
    | Raise _ => logs evs = []
    | Ok _ =>
        (length (logs evs) = 1%nat) \/
        (logs evs = [] /\
         exists ext, classified = Ok ext /\
         ((exists a, mem ext raster_exts = true /\
                     cell_ref row start_col = Ok a /\
                     imgs = [thumb (file_path ext) a]) \/
          (exists pages, ext = py "pdf" /\
             convert_from_path world (file_path ext) poppler_path = Ok pages /\
             length imgs = length pages)))
    end.
Proof.
  cbv zeta. rewrite try_eq. cbv zeta.
  destruct (requests_get world (link_url link)) as [response|e].
  2: { exists [], [EGet (link_url link)]. leaf. }
  destruct (bad_status response).
  { exists [], [EGet (link_url link)]. leaf. }
  destruct classified as [[|c ext']|e].
  3: { exists [], [EGet (link_url link)]. leaf. }
  { exists [], [EGet (link_url link); ELog (UnrecognizedType (link_url link) row (link_col link))].
    split; [ext_solve | by left]. }
  destruct (mem (c :: ext') vexts).
  { exists [], [EGet (link_url link); ELog (SkippedVideo (link_url link) row (link_col link))].
    split; [ext_solve | by left]. }
  set (fp := scratch_path world temp_dir row (link_col link) (c :: ext')).
  destruct (open_wb world fp) as [[]|e].
  2: { exists [], [EGet (link_url link); EOpenWrite fp]. leaf. }
  destruct (iter_content response) as [chunks|e].
  2: { exists [], [EGet (link_url link); EOpenWrite fp]. leaf. }
  destruct (Py.str_eqb (c :: ext') "pdf") eqn:Hpdf.
  - destruct (convert_from_path world fp poppler_path) as [pages|e] eqn:Hconv.
    2: { exists [], [EGet (link_url link); EOpenWrite fp; EConvert fp]. leaf. }
    destruct (pages_loop_spec world link row start_col temp_dir pages 1
                (record (EConvert fp) (record (EOpenWrite fp) (record (EGet (link_url link)) st))))
      as (imgs & evs & j & Hx & Hw & Hj & Hg & Hs & Hl & Himgs & Hres).
    exists imgs, ([EGet (link_url link); EOpenWrite fp; EConvert fp] ++ evs).
    split.
    + refine (extends_trans st _ _ [_; _; _] evs [] imgs _ Hx). ext_solve.
    + rewrite logs_app, Hl.
      destruct (snd (for_each _ _ _)); [|done].
      right. split; [done|]. exists (c :: ext'). split; [done|].
      right. exists pages. split_and!; [|done..].
      unfold Py.str_eqb in Hpdf. by apply bool_decide_eq_true_1 in Hpdf.
  - destruct (mem (c :: ext') raster_exts) eqn:Hras.
    + rewrite insert_image_eq.
      destruct (image_open world fp) as [sz|e].
      * destruct (cell_ref row start_col) as [a|e] eqn:Hc.
        -- exists [thumb fp a], [EGet (link_url link); EOpenWrite fp; EImageOpen fp].
           split; [ext_solve|]. right. split; [done|]. exists (c :: ext').
           split; [done|]. left. exists a. done.
        -- exists [], [EGet (link_url link); EOpenWrite fp; EImageOpen fp]. leaf.
      * exists [], [EGet (link_url link); EOpenWrite fp; EImageOpen fp]. leaf.
    + exists [], [EGet (link_url link); EOpenWrite fp;
                  ELog (UnsupportedType (c :: ext') row (link_col link))].
      split; [ext_solve | by left].
Qed.

(** X14. Every link leaves at most one log record, and a link that leaves
    none has been embedded: it is a JPG or PNG whose image is in the
    sheet, or a PDF that was rasterised and has one image for each of
    its pages (none for a PDF without pages). *)
Theorem worker_is_silent_only_on_success st :
  let st' := fst (worker st) in
  (length (logs (since st st')) <= 1)%nat /\
  (logs (since st st') = [] ->
     exists ext, classified = Ok ext /\
     ((exists a, mem ext raster_exts = true /\ cell_ref row start_col = Ok a /\
                 images st' = images st ++ [thumb (file_path ext) a]) \/
      (exists pages imgs,
         ext = py "pdf" /\
         convert_from_path world (file_path ext) poppler_path = Ok pages /\
         images st' = images st ++ imgs /\ length imgs = length pages))).
Proof.
  cbv zeta. rewrite worker_eq.
  destruct (try_logs st) as (imgs & evs & Hx & Hlog). cbv zeta in Hlog.
  destruct (try_block st) as [st1 [[]|e]]; cbn [fst snd] in *.
  - rewrite (since_extends _ _ _ _ Hx). destruct Hlog as [Hone | [Hnil Hok]].
    + rewrite Hone. split; [done|]. intros Hl. by rewrite Hl in Hone.
    + rewrite Hnil. split; [simpl; lia|]. intros _.
      destruct Hok as (ext & Hext & [(a & Hr & Ha & ->) | (pages & Hp & Hc & Hlen)]);
        exists ext; (split; [done|]).
      * left. exists a. split_and!; try done. apply (ext_images _ _ _ _ Hx).
      * right. exists pages, imgs. split_and!; try done.
        apply (ext_images _ _ _ _ Hx).
  - assert (Hx' : extends st (record (ELog (error_record link row e)) st1)
                    (evs ++ [ELog (error_record link row e)]) (imgs ++ [])).
    { apply (extends_trans _ _ _ _ _ _ _ Hx). ext_solve. }
    rewrite (since_extends _ _ _ _ Hx'), logs_app, Hlog. split; [done|]. done.
Qed.

End WorkerExtras.

Section WorkerClaims.
Variable world : World.
Variables (link : Link) (row start_col : Z) (temp_dir poppler_path : str).

Local Abbreviation page_file := (page_path world temp_dir row (link_col link)).
Local Abbreviation page_body :=
  (_process_single_link_page world link row start_col temp_dir).
Local Abbreviation classified :=
  (_get_file_extension (platform world) (link_url link)).
Local Abbreviation file_path :=
  (scratch_path world temp_dir row (link_col link)).
Local Abbreviation worker :=
  (_process_single_link world link row start_col temp_dir poppler_path
     video_exts).
Local Abbreviation try_block :=
  (_process_single_link_try world link row start_col temp_dir poppler_path
     video_exts).
Local Abbreviation embeds := (page_embeds world temp_dir link row start_col).
Local Abbreviation raises := (page_raises world temp_dir link row start_col).

Lemma raster_not_pdf_nor_video e :
  e = py "jpg" \/ e = py "jpeg" \/ e = py "png" ->
  mem e raster_exts = true /\ Py.str_eqb e "pdf" = false /\
  mem e video_exts = false /\ e <> [].
Proof. intros [-> | [-> | ->]]; split_and!; done. Qed.

Lemma cell_ref_names r c a : cell_ref r c = Ok a -> names_cell a r c.
Proof.
  intros Ha. split.
  - destruct (cell_ref_parts _ _ _ Ha) as (l & Hl & ->). exists l.
    destruct (get_column_letter_value _ _ Hl) as (_ & Hv & _). done.
  - intros r' c' Ha'. by destruct (cell_ref_inj _ _ _ _ _ Ha' Ha).
Qed.

Lemma cell_ref_range r c : (exists a, cell_ref r c = Ok a) <-> 1 <= c <= 18278.
Proof.
  split; [|apply cell_ref_in_range].
  intros [a Ha]. unfold cell_ref, get_column_letter in Ha.
  destruct (Z.leb_spec 1 c), (Z.leb_spec c 18278); done || lia.
Qed.

Lemma cell_ref_raises r c e :
  cell_ref r c = Raise e -> ~ 1 <= c <= 18278 /\ exists msg, e = ValueError msg.
Proof.
  intros He. split.
  - intros [a Ha]%(cell_ref_in_range r). congruence.
  - unfold cell_ref, get_column_letter in He.
    destruct ((1 <=? c) && (c <=? 18278)); [done|]. injection He as <-. eauto.
Qed.

Lemma raises_not_embeds k img e : raises k img e -> ~ embeds k img.
Proof.
  intros [Hs | [[_ Ho] | (_ & _ & Hc)]] (Hs' & [sz Ho'] & Hr); [congruence.. |].
  apply cell_ref_raises in Hc as [Hc _]. done.
Qed.

(** One page: it can be embedded and its thumbnail is anchored, or what
    is raised for it leaves the sheet as it was. *)
Lemma page_body_cases k img st :
  let res := page_body (k, img) st in
  (embeds k img /\
   exists a, cell_ref row (start_col + k - 1) = Ok a /\ snd res = Ok tt /\
     extends st (fst res) [ESavePage (page_file k); EImageOpen (page_file k)]
       [thumb (page_file k) a]) \/
  (exists e evs, raises k img e /\ snd res = Raise e /\
     extends st (fst res) evs [] /\ logs evs = []).
Proof.
  unfold _process_single_link_page; cbv zeta.
  unfold call, bind, emit, lift; simpl.
  fold (record (ESavePage (page_file k)) st).
  unfold page_embeds, page_raises. cbv zeta.
  destruct (pil_save world img (page_file k)) as [[]|e] eqn:Hs.
  - rewrite insert_image_eq.
    destruct (image_open world (page_file k)) as [sz|e] eqn:Ho.
    + destruct (cell_ref row (start_col + k - 1)) as [a|e] eqn:Hc.
      * left. split.
        { split; [done|]. split; [eauto|]. apply (cell_ref_range row). eauto. }
        exists a. simpl. split_and!; eauto. ext_solve.
      * right. exists e, [ESavePage (page_file k); EImageOpen (page_file k)].
        simpl. split_and!; eauto. { right; right. eauto. } ext_solve.
    + right. exists e, [ESavePage (page_file k); EImageOpen (page_file k)].
      simpl. split_and!; eauto. ext_solve.
  - right. exists e, [ESavePage (page_file k)]. simpl. split_and!; eauto.
    ext_solve.
Qed.

(** The page loop: the pages are anchored one by one, at consecutive
    columns, up to the first page that cannot be embedded, and the loop
    raises what is raised for that page. *)
Lemma pages_loop_exact pages : forall k st,
  let res := for_each (enumerate k pages) page_body st in
  exists imgs evs,
    extends st (fst res) evs imgs /\ logs evs = [] /\
    (length imgs <= length pages)%nat /\
    (forall i img, imgs !! i = Some img ->
       exists a, cell_ref row (start_col + (k + Z.of_nat i) - 1) = Ok a /\
                 img = thumb (page_file (k + Z.of_nat i)) a) /\
    (forall i pg, pages !! i = Some pg -> (i < length imgs)%nat ->
       embeds (k + Z.of_nat i) pg) /\
    match snd res with
    | Ok _ => length imgs = length pages
    | Raise e =>
        exists pg, pages !! length imgs = Some pg /\
                   raises (k + Z.of_nat (length imgs)) pg e
    end.
Proof.
  induction pages as [|img pages IH]; intros k st res.
  - exists [], []. subst res; simpl. split_and!; try done.
    apply extends_refl.
  - subst res. simpl enumerate. rewrite for_each_cons.
    destruct (page_body_cases k img st) as
      [(Hemb & a & Ha & Hr & Hext) | (e & evs & Hraise & Hr & Hext & Hl)];
      destruct (page_body (k, img) st) as [st1 r1]; simpl in Hr, Hext; subst r1.
    + destruct (IH (k + 1) st1)
        as (imgs & evs & Hext' & Hl & Hlen & Himgs & Hembs & Hres).
      exists (thumb (page_file k) a :: imgs),
        ([ESavePage (page_file k); EImageOpen (page_file k)] ++ evs).
      split_and!.
      * apply (extends_trans _ _ _ _ _ [_] _ Hext Hext').
      * rewrite logs_app, Hl; done.
      * simpl; lia.
      * intros [|i] im Him; simpl in Him.
        -- injection Him as <-. exists a. split; [|f_equal; f_equal; lia].
           rewrite <- Ha. f_equal. lia.
        -- destruct (Himgs i im Him) as (a' & Ha' & ->). exists a'.
           split; [rewrite <- Ha'; f_equal; lia | f_equal; f_equal; lia].
      * intros [|i] pg Hpg Hi; simpl in Hpg.
        -- injection Hpg as <-. by replace (k + Z.of_nat 0) with k by lia.
        -- replace (k + Z.of_nat (S i)) with (k + 1 + Z.of_nat i) by lia.
           apply Hembs; [done | simpl in Hi; lia].
      * destruct (snd (for_each _ _ st1)); simpl; [lia|].
        destruct Hres as (pg & Hpg & Hpr). exists pg. split; [done|].
        by replace (k + Z.of_nat (S (length imgs)))
          with (k + 1 + Z.of_nat (length imgs)) by lia.
    + exists [], evs. simpl.
      split_and!; [exact Hext | done | lia | done | intros; lia |].
      exists img. split; [done|]. by replace (k + Z.of_nat 0) with k by lia.
Qed.

(** A link classified as [pdf], fetched, stored and rasterised, goes to
    the page loop. *)
Lemma try_pdf st response chunks pages :
  classified = Ok (py "pdf") ->
  requests_get world (link_url link) = Ok response ->
  bad_status response = false ->
  open_wb world (file_path "pdf") = Ok tt ->
  iter_content response = Ok chunks ->
  convert_from_path world (file_path "pdf") poppler_path = Ok pages ->
  try_block st =
  for_each (enumerate 1 pages) page_body
    (record (EConvert (file_path "pdf"))
       (record (EOpenWrite (file_path "pdf"))
          (record (EGet (link_url link)) st))).
Proof.
  intros Hcl Hget Hst Hopen Hbody Hconv.
  rewrite try_eq. cbv zeta. rewrite Hget, Hst, Hcl.
  change (match py "pdf" with [] => ?a | _ :: _ => ?b end) with b.
  change (mem (py "pdf") video_exts) with false. cbv iota.
  rewrite Hopen, Hbody. change (Py.str_eqb (py "pdf") "pdf") with true. cbv iota.
  by rewrite Hconv.
Qed.

(** A link classified as [jpg], [jpeg] or [png], fetched and stored,
    goes to [_insert_image]. *)
Lemma try_raster st ext response chunks :
  classified = Ok ext ->
  ext = py "jpg" \/ ext = py "jpeg" \/ ext = py "png" ->
  requests_get world (link_url link) = Ok response ->
  bad_status response = false ->
  open_wb world (file_path ext) = Ok tt ->
  iter_content response = Ok chunks ->
  try_block st =
  _insert_image world (file_path ext) row start_col
    (record (EOpenWrite (file_path ext)) (record (EGet (link_url link)) st)).
Proof.
  intros Hcl Hext Hget Hst Hopen Hbody.
  destruct (raster_not_pdf_nor_video _ Hext) as (Hras & Hpdf & Hvid & Hne).
  rewrite try_eq. cbv zeta. rewrite Hget, Hst, Hcl.
  destruct ext as [|c e']; [done|].
  by rewrite Hvid, Hopen, Hbody, Hpdf, Hras.
Qed.

(** What the worker leaves when its [try] block has run. *)
Lemma worker_since st st1 r evs imgs :
  try_block st = (st1, r) -> extends st st1 evs imgs ->
  images (fst (worker st)) = images st ++ imgs /\
  since st (fst (worker st)) =
    match r with
    | Ok _ => evs
    | Raise e => evs ++ [ELog (error_record link row e)]
    end.
Proof.
  intros Htry Hx. rewrite worker_eq, Htry. destruct r as [[]|e]; cbn [fst].
  - split; [apply (ext_images _ _ _ _ Hx) | by apply (since_extends _ _ _ imgs)].
  - split; [apply (ext_images _ _ _ _ Hx)|].
    apply (since_extends _ _ _ (imgs ++ [])).
    apply (extends_trans _ _ _ _ _ _ _ Hx). ext_solve.
Qed.

(** C3, as the code has it. A link that is classified as [pdf], fetched
    and stored, and whose PDF is rasterised to the pages [pages], gets
    its pages embedded in its row one by one, page [k] (counted from 1)
    at column [start_col + k - 1], up to the first page that cannot be
    embedded: a page is embedded when it is saved as a JPEG, the saved
    file decodes, and its column has a letter (1 to 18278). So there are
    exactly as many images as pages when every page can be embedded, and
    then nothing is logged; otherwise there are the images of the pages
    before the first one that cannot. No two of these images share a
    cell. *)
Theorem pdf_link_embeds_every_page st response chunks pages :
  classified = Ok (py "pdf") ->
  requests_get world (link_url link) = Ok response ->
  bad_status response = false ->
  open_wb world (file_path "pdf") = Ok tt ->
  iter_content response = Ok chunks ->
  convert_from_path world (file_path "pdf") poppler_path = Ok pages ->
  exists imgs,
    images (fst (worker st)) = images st ++ imgs /\
    (length imgs <= length pages)%nat /\
    (forall k, 1 <= k <= Z.of_nat (length imgs) ->
       exists a, imgs !! Z.to_nat (k - 1) = Some (thumb (page_file k) a) /\
                 names_cell a row (start_col + k - 1)) /\
    (forall k, 1 <= k <= Z.of_nat (length pages) ->
       (k <= Z.of_nat (length imgs) <->
        forall j pg, 1 <= j <= k -> pages !! Z.to_nat (j - 1) = Some pg ->
                     embeds j pg)) /\
    (length imgs = length pages <->
       forall j pg, 1 <= j -> pages !! Z.to_nat (j - 1) = Some pg ->
                    embeds j pg) /\
    (length imgs = length pages <-> logs (since st (fst (worker st))) = []) /\
    NoDup (Image.anchor <$> imgs).
Proof.
  intros Hcl Hget Hst Hopen Hbody Hconv.
  pose proof (try_pdf st _ _ _ Hcl Hget Hst Hopen Hbody Hconv) as Htry.
  set (st3 := record _ (record _ (record _ st))) in Htry.
  destruct (pages_loop_exact pages 1 st3)
    as (imgs & evs & Hx & Hl & Hlen & Himgs & Hembs & Hres).
  cbv zeta in Hx, Hres. rewrite <- Htry in Hx, Hres.
  assert (Hx0 : extends st (fst (try_block st))
                  ([EGet (link_url link); EOpenWrite (file_path "pdf");
                    EConvert (file_path "pdf")] ++ evs) imgs).
  { refine (extends_trans st st3 _ [_; _; _] evs [] imgs _ Hx). ext_solve. }
  destruct (try_block st) as [st1 r] eqn:Ht. cbn [fst snd] in Hx, Hres, Hx0.
  destruct (worker_since st st1 r _ _ Ht Hx0) as [Himg Hsince].
  exists imgs.
  assert (HA : forall j pg, 1 <= j <= Z.of_nat (length imgs) ->
            pages !! Z.to_nat (j - 1) = Some pg -> embeds j pg).
  { intros j pg Hj Hpg. replace j with (1 + Z.of_nat (Z.to_nat (j - 1))) by lia.
    apply Hembs; [done | lia]. }
  assert (HB : forall pg, pages !! length imgs = Some pg ->
            ~ embeds (1 + Z.of_nat (length imgs)) pg).
  { intros pg Hpg. destruct r as [[]|e].
    - apply lookup_lt_Some in Hpg. lia.
    - destruct Hres as (pg' & Hpg' & Hr). rewrite Hpg in Hpg'.
      injection Hpg' as <-. by apply raises_not_embeds in Hr. }
  split_and!.
  - exact Himg.
  - exact Hlen.
  - intros k Hk.
    destruct (lookup_lt_is_Some_2 imgs (Z.to_nat (k - 1))) as [img Hi]; [lia|].
    destruct (Himgs _ _ Hi) as (a & Ha & ->).
    replace (1 + Z.of_nat (Z.to_nat (k - 1))) with k in * by lia.
    exists a. split; [exact Hi|]. by apply cell_ref_names.
  - intros k Hk. split.
    + intros Hle j pg Hj Hpg. apply HA; [lia | done].
    + intros Hall. destruct (Z_le_gt_dec k (Z.of_nat (length imgs))) as [|Hgt]; [done|].
      exfalso. destruct (lookup_lt_is_Some_2 pages (length imgs)) as [pg Hpg]; [lia|].
      apply (HB pg Hpg). apply Hall; [lia|].
      by replace (Z.to_nat (1 + Z.of_nat (length imgs) - 1)) with (length imgs) by lia.
  - split.
    + intros Heq j pg Hj Hpg. apply HA; [|done].
      apply lookup_lt_Some in Hpg. lia.
    + intros Hall. destruct (decide (length imgs = length pages)) as [|Hne]; [done|].
      exfalso. destruct (lookup_lt_is_Some_2 pages (length imgs)) as [pg Hpg]; [lia|].
      apply (HB pg Hpg). apply Hall; [lia|].
      by replace (Z.to_nat (1 + Z.of_nat (length imgs) - 1)) with (length imgs) by lia.
  - rewrite Hsince. destruct r as [[]|e].
    + rewrite logs_app, Hl. simpl. split; [done | intros _; exact Hres].
    + split.
      * intros Heq. destruct Hres as (pg & Hpg & _). apply lookup_lt_Some in Hpg. lia.
      * rewrite !logs_app, Hl. simpl. discriminate.
  - apply NoDup_alt. intros i j a.
    rewrite !list_lookup_fmap.
    destruct (imgs !! i) as [im1|] eqn:H1; [|done].
    destruct (imgs !! j) as [im2|] eqn:H2; [|done].
    destruct (Himgs _ _ H1) as (a1 & Ha1 & ->).
    destruct (Himgs _ _ H2) as (a2 & Ha2 & ->).
    simpl. intros [= <-] [= <-].
    destruct (cell_ref_inj _ _ _ _ _ Ha1 Ha2) as [_ Hc]. lia.
Qed.

(** C4, as the code has it. A link that is classified as [jpg], [jpeg]
    or [png], fetched and stored, gets exactly one image, anchored at
    its row and [start_col], when the stored file decodes (to any size)
    and [start_col] is a column that has a letter (1 to 18278); nothing
    is logged then. When the file does not decode, or the column has no
    letter, the link gets no image and the failure is logged. And
    whatever happens to a link, every image it adds to the sheet has
    width 180 and height 120, both set without regard to the decoded
    size. *)
Theorem raster_link_embeds_one_image st :
  (forall ext response chunks,
     classified = Ok ext ->
     ext = py "jpg" \/ ext = py "jpeg" \/ ext = py "png" ->
     requests_get world (link_url link) = Ok response ->
     bad_status response = false ->
     open_wb world (file_path ext) = Ok tt ->
     iter_content response = Ok chunks ->
     ((exists sz, image_open world (file_path ext) = Ok sz) ->
      1 <= start_col <= 18278 ->
      exists a,
        names_cell a row start_col /\
        images (fst (worker st)) =
          images st ++
          [ {| Image.path := file_path ext; Image.width := 180;
               Image.height := 120; Image.anchor := a |} ] /\
        logs (since st (fst (worker st))) = []) /\
     (forall e,
        image_open world (file_path ext) = Raise e ->
        images (fst (worker st)) = images st /\
        logs (since st (fst (worker st))) = [error_record link row e]) /\
     (forall sz,
        image_open world (file_path ext) = Ok sz ->
        start_col < 1 \/ 18278 < start_col ->
        images (fst (worker st)) = images st /\
        exists msg,
          logs (since st (fst (worker st))) =
            [ProcessingError (link_url link) (ValueError msg) row (link_col link)])) /\
  (exists imgs,
     images (fst (worker st)) = images st ++ imgs /\
     forall img, In img imgs ->
       Image.width img = 180 /\ Image.height img = 120).
Proof.
  split.
  - intros ext response chunks Hcl Hext Hget Hst Hopen Hbody.
    pose proof (try_raster st _ _ _ Hcl Hext Hget Hst Hopen Hbody) as Htry.
    rewrite insert_image_eq in Htry.
    set (st2 := record (EOpenWrite (file_path ext)) (record (EGet (link_url link)) st)) in Htry.
    assert (Hx2 : extends st (record (EImageOpen (file_path ext)) st2)
                    [EGet (link_url link); EOpenWrite (file_path ext);
                     EImageOpen (file_path ext)] []) by ext_solve.
    split_and!.
    + intros [sz Hsz] Hcol. destruct (cell_ref_in_range row start_col Hcol) as [a Ha].
      rewrite Hsz, Ha in Htry. exists a. split; [by apply cell_ref_names|].
      assert (Hx : extends st (embed (thumb (file_path ext) a)
                                 (record (EImageOpen (file_path ext)) st2))
                     [EGet (link_url link); EOpenWrite (file_path ext);
                      EImageOpen (file_path ext)] [thumb (file_path ext) a])
        by ext_solve.
      destruct (worker_since st _ _ _ _ Htry Hx) as [Hi Hs].
      by rewrite Hi, Hs.
    + intros e He. rewrite He in Htry.
      destruct (worker_since st _ _ _ _ Htry Hx2) as [Hi Hs].
      rewrite Hi, Hs, app_nil_r. done.
    + intros sz Hsz Hcol. rewrite Hsz in Htry.
      destruct (cell_ref row start_col) as [a|e] eqn:Ha.
      { assert (1 <= start_col <= 18278) by (apply (cell_ref_range row); eauto). lia. }
      destruct (cell_ref_raises _ _ _ Ha) as [_ [msg ->]].
      destruct (worker_since st _ _ _ _ Htry Hx2) as [Hi Hs].
      rewrite Hi, Hs, app_nil_r. split; [done|]. by exists msg.
  - destruct (try_effect world link row start_col temp_dir poppler_path video_exts st)
      as (imgs & evs & Hx & _ & _ & _ & _ & Himgs).
    exists imgs. split.
    + apply (worker_images _ _ _ _ _ _ _ _ _ _ Hx).
    + intros img Hin.
      destruct Himgs as [-> | [(ext & a & _ & _ & _ & _ & _ & ->) | (_ & Hpages & _)]].
      * destruct Hin.
      * destruct Hin as [<- | []]. done.
      * apply list_elem_of_In, list_elem_of_lookup in Hin as [i Hi].
        destruct (Hpages i img Hi) as (a & _ & ->). done.
Qed.

(** C6, as the code has it. The worker returns normally whatever the
    link. No image is added for a link classified as having no
    extension, a video extension, or an extension other than pdf, jpg,
    jpeg and png, nor for a link whose URL cannot be parsed. The record
    that names the kind is logged, once, when the request succeeds (and,
    for an unsupported extension, when the download is stored): the
    request comes first, and the download is stored before the
    extension is compared with the supported ones. When the request
    fails or is answered with an error status, when the URL cannot be
    parsed, or when storing the download of an unsupported link fails,
    what is logged instead, once, is the error record of that failure. *)
Theorem unembeddable_links_are_logged st :
  snd (worker st) = Ok tt /\
  (forall ext,
     classified = Ok ext ->
     ext = [] \/ mem ext video_exts = true \/
     (Py.str_eqb ext "pdf" = false /\ mem ext raster_exts = false) ->
     images (fst (worker st)) = images st) /\
  (forall e, classified = Raise e -> images (fst (worker st)) = images st) /\
  (forall response ext,
     requests_get world (link_url link) = Ok response ->
     bad_status response = false ->
     classified = Ok ext ->
     (ext = [] ->
      trace (fst (worker st)) =
        trace st ++ [ EGet (link_url link);
                      ELog (UnrecognizedType (link_url link) row (link_col link)) ]) /\
     (mem ext video_exts = true ->
      trace (fst (worker st)) =
        trace st ++ [ EGet (link_url link);
                      ELog (SkippedVideo (link_url link) row (link_col link)) ]) /\
     (ext <> [] -> mem ext video_exts = false ->
      Py.str_eqb ext "pdf" = false -> mem ext raster_exts = false ->
      (open_wb world (file_path ext) = Ok tt ->
       (exists chunks, iter_content response = Ok chunks) ->
       trace (fst (worker st)) =
         trace st ++ [ EGet (link_url link); EOpenWrite (file_path ext);
                       ELog (UnsupportedType ext row (link_col link)) ]) /\
      (forall e,
         open_wb world (file_path ext) = Raise e \/
         (open_wb world (file_path ext) = Ok tt /\
          iter_content response = Raise e) ->
         trace (fst (worker st)) =
           trace st ++ [ EGet (link_url link); EOpenWrite (file_path ext);
                         ELog (error_record link row e) ]))) /\
  (forall e,
     requests_get world (link_url link) = Raise e \/
     (exists response,
        requests_get world (link_url link) = Ok response /\
        bad_status response = true /\
        e = RequestException (Py.str_of_int (status_code response))) ->
     trace (fst (worker st)) =
       trace st ++ [ EGet (link_url link); ELog (error_record link row e) ]) /\
  (forall response e,
     requests_get world (link_url link) = Ok response ->
     bad_status response = false ->
     classified = Raise e ->
     trace (fst (worker st)) =
       trace st ++ [ EGet (link_url link);
                     ELog (ProcessingError (link_url link) e row (link_col link)) ]) /\
  (forall e,
     error_record link row e = DownloadFailed (link_url link) e row (link_col link) \/
     error_record link row e = ProcessingError (link_url link) e row (link_col link)).
Proof.
  assert (Himages : forall imgs evs,
            extends st (fst (try_block st)) evs imgs -> imgs = [] ->
            images (fst (worker st)) = images st).
  { intros imgs evs Hx ->.
    rewrite (worker_images _ _ _ _ _ _ _ _ _ _ Hx). apply app_nil_r. }
  split_and!.
  - rewrite worker_eq.
    destruct (_process_single_link_try _ _ _ _ _ _ _ st) as [st1 [[]|e]];
      reflexivity.
  - intros ext Hcl Hkind.
    destruct (try_effect world link row start_col temp_dir poppler_path video_exts st)
      as (imgs & evs & Hx & _ & _ & _ & _ & Himgs).
    apply (Himages imgs evs Hx).
    destruct Himgs as [-> | [(ext' & a & Hcl' & Hp & Hr & _) | (Hcl' & _)]]; [done | |];
      rewrite Hcl in Hcl'; injection Hcl' as Heq; subst.
    + destruct Hkind as [He | [Hv | [_ Hr']]]; [| | congruence].
      * rewrite He in Hr. discriminate.
      * revert Hv Hr. unfold mem, raster_exts, video_exts. simpl.
        rewrite !orb_false_r, !orb_true_iff. unfold Py.str_eqb.
        rewrite !bool_decide_eq_true. intros Hv Hr.
        destruct Hr as [Hr | [Hr | Hr]]; rewrite Hr in Hv;
          destruct Hv as [? | [? | [? | [? | ?]]]]; discriminate.
    + destruct Hkind as [He | [Hv | [Hp' _]]]; discriminate.
  - intros e Hcl.
    destruct (try_effect world link row start_col temp_dir poppler_path video_exts st)
      as (imgs & evs & Hx & _ & _ & _ & _ & Himgs).
    apply (Himages imgs evs Hx).
    destruct Himgs as [-> | [(ext' & a & Hcl' & _) | (Hcl' & _)]]; [done | |];
      rewrite Hcl in Hcl'; discriminate.
  - intros response ext Hget Hst Hcl. rewrite worker_eq, try_eq. cbv zeta.
    rewrite Hget, Hst, Hcl. split_and!.
    + intros ->. simpl. rewrite <- app_assoc. reflexivity.
    + intros Hv. destruct ext as [|c e']; [discriminate Hv|].
      rewrite Hv. simpl. rewrite <- app_assoc. reflexivity.
    + intros Hne Hv Hp Hr. destruct ext as [|c e']; [done|]. rewrite Hv.
      split.
      * intros Hopen [chunks Hbody]. rewrite Hopen, Hbody, Hp, Hr. simpl.
        rewrite <- !app_assoc. reflexivity.
      * intros e [Hopen | [Hopen Hbody]].
        -- rewrite Hopen. simpl. rewrite <- !app_assoc. reflexivity.
        -- rewrite Hopen, Hbody. simpl. rewrite <- !app_assoc. reflexivity.
  - intros e Hfail. rewrite worker_eq, try_eq. cbv zeta.
    destruct Hfail as [-> | (response & -> & -> & ->)];
      simpl; rewrite <- app_assoc; reflexivity.
  - intros response e Hget Hst Hcl. rewrite worker_eq, try_eq. cbv zeta.
    rewrite Hget, Hst, Hcl.
    destruct (get_file_extension_raises _ _ _ Hcl) as [msg ->].
    simpl. rewrite <- app_assoc. reflexivity.
  - intros e. destruct e; simpl; eauto.
Qed.

(** What the [try] block has done when it raises: nothing is logged,
    and there is no image unless the link is a PDF that raises for one
    of its pages. *)
Lemma try_raises st st1 e :
  try_block st = (st1, Raise e) ->
  exists evs imgs,
    extends st st1 evs imgs /\ logs evs = [] /\
    (imgs = [] \/
     exists response chunks pages pg,
       classified = Ok (py "pdf") /\
       requests_get world (link_url link) = Ok response /\
       bad_status response = false /\
       open_wb world (file_path "pdf") = Ok tt /\
       iter_content response = Ok chunks /\
       convert_from_path world (file_path "pdf") poppler_path = Ok pages /\
       (forall i img, imgs !! i = Some img ->
          exists a, cell_ref row (start_col + (1 + Z.of_nat i) - 1) = Ok a /\
                    img = thumb (page_file (1 + Z.of_nat i)) a) /\
       pages !! length imgs = Some pg /\
       raises (1 + Z.of_nat (length imgs)) pg e).
Proof.
  rewrite try_eq. cbv zeta.
  destruct (requests_get world (link_url link)) as [response|e0] eqn:Hget.
  2: { intros [= <- <-]. exists [EGet (link_url link)], []. leaf. }
  destruct (bad_status response) eqn:Hst.
  { intros [= <- <-]. exists [EGet (link_url link)], []. leaf. }
  destruct classified as [[|c ext']|e0] eqn:Hcl; [done | |].
  2: { intros [= <- <-]. exists [EGet (link_url link)], []. leaf. }
  destruct (mem (c :: ext') video_exts); [done|].
  set (fp := scratch_path world temp_dir row (link_col link) (c :: ext')).
  destruct (open_wb world fp) as [[]|e0] eqn:Hopen.
  2: { intros [= <- <-]. exists [EGet (link_url link); EOpenWrite fp], []. leaf. }
  destruct (iter_content response) as [chunks|e0] eqn:Hbody.
  2: { intros [= <- <-]. exists [EGet (link_url link); EOpenWrite fp], []. leaf. }
  destruct (Py.str_eqb (c :: ext') "pdf") eqn:Hpdf.
  - assert (Hc : c :: ext' = py "pdf")
      by (unfold Py.str_eqb in Hpdf; by apply bool_decide_eq_true_1 in Hpdf).
    subst fp. rewrite Hc in *.
    set (fp := scratch_path world temp_dir row (link_col link) (py "pdf")) in *.
    destruct (convert_from_path world fp poppler_path) as [pages|e0] eqn:Hconv.
    2: { intros [= <- <-].
         exists [EGet (link_url link); EOpenWrite fp; EConvert fp], []. leaf. }
    set (st3 := record (EConvert fp) _).
    destruct (pages_loop_exact pages 1 st3)
      as (imgs & evs & Hx & Hl & Hlen & Himgs & Hembs & Hres).
    cbv zeta in Hx, Hres.
    destruct (for_each (enumerate 1 pages) page_body st3) as [st4 r].
    intros [= -> ->]. cbn [fst snd] in Hx, Hres.
    exists ([EGet (link_url link); EOpenWrite fp; EConvert fp] ++ evs), imgs.
    split_and!.
    + refine (extends_trans st st3 _ [_; _; _] evs [] imgs _ Hx). ext_solve.
    + by rewrite logs_app, Hl.
    + right. destruct Hres as (pg & Hpg & Hr).
      exists response, chunks, pages, pg. split_and!; done.
  - destruct (mem (c :: ext') raster_exts); [|done].
    rewrite insert_image_eq.
    destruct (image_open world fp) as [sz|e0].
    + destruct (cell_ref row start_col) as [a|e0]; [done|].
      intros [= <- <-].
      exists [EGet (link_url link); EOpenWrite fp; EImageOpen fp], []. leaf.
    + intros [= <- <-].
      exists [EGet (link_url link); EOpenWrite fp; EImageOpen fp], []. leaf.
Qed.

Lemma raster_is_not_pdf ext :
  mem ext raster_exts = true -> Py.str_eqb ext "pdf" = false.
Proof.
  intros [<- | [<- | [<- | []]]]%mem_In; reflexivity.
Qed.

(** C5, as the code has it. The worker never raises. When its [try]
    block raises [e], the exception is logged once, as an error record
    with the url, the row and the column of the link, and nothing else
    happens after it. Images are not taken back: the link then has no
    image, unless it is a PDF that was fetched, stored and rasterised
    and [e] was raised for one of its pages; the pages before that one
    stay embedded, fewer than the PDF has pages. Every stage can be the
    one that fails: the request, the status of the answer, the
    classification of the URL, storing the download, the conversion and
    the embedding. The dispatch goes on: every planned link is
    requested, once, whatever happens to the others. *)
Theorem worker_isolates_failures st :
  snd (worker st) = Ok tt /\
  (forall st1 e, try_block st = (st1, Raise e) ->
     fst (worker st) = record (ELog (error_record link row e)) st1 /\
     logs (since st (fst (worker st))) = [error_record link row e] /\
     (error_record link row e = DownloadFailed (link_url link) e row (link_col link) \/
      error_record link row e = ProcessingError (link_url link) e row (link_col link)) /\
     exists imgs,
       images (fst (worker st)) = images st ++ imgs /\
       (imgs = [] \/
        exists response chunks pages pg,
          classified = Ok (py "pdf") /\
          requests_get world (link_url link) = Ok response /\
          bad_status response = false /\
          open_wb world (file_path "pdf") = Ok tt /\
          iter_content response = Ok chunks /\
          convert_from_path world (file_path "pdf") poppler_path = Ok pages /\
          (length imgs < length pages)%nat /\
          (forall k, 1 <= k <= Z.of_nat (length imgs) ->
             exists a, imgs !! Z.to_nat (k - 1) = Some (thumb (page_file k) a) /\
                       names_cell a row (start_col + k - 1)) /\
          pages !! length imgs = Some pg /\
          raises (1 + Z.of_nat (length imgs)) pg e)) /\
  (forall e,
     requests_get world (link_url link) = Raise e ->
     exists st1, try_block st = (st1, Raise e)) /\
  (forall response,
     requests_get world (link_url link) = Ok response ->
     bad_status response = true ->
     exists st1,
       try_block st =
         (st1, Raise (RequestException (Py.str_of_int (status_code response))))) /\
  (forall response e,
     requests_get world (link_url link) = Ok response ->
     bad_status response = false ->
     classified = Raise e ->
     (exists st1, try_block st = (st1, Raise e)) /\
     exists msg, e = ValueError msg) /\
  (forall response ext e,
     requests_get world (link_url link) = Ok response ->
     bad_status response = false ->
     classified = Ok ext -> ext <> [] -> mem ext video_exts = false ->
     open_wb world (file_path ext) = Raise e \/
     (open_wb world (file_path ext) = Ok tt /\
      (iter_content response = Raise e \/
       exists chunks, iter_content response = Ok chunks /\
         ((ext = py "pdf" /\
           convert_from_path world (file_path ext) poppler_path = Raise e) \/
          (mem ext raster_exts = true /\
           (image_open world (file_path ext) = Raise e \/
            ((exists sz, image_open world (file_path ext) = Ok sz) /\
             cell_ref row start_col = Raise e)))))) ->
     exists st1, try_block st = (st1, Raise e)) /\
  (forall groups st0,
     let res := dispatch_all world temp_dir poppler_path video_exts groups st0 in
     snd res = Ok tt /\
     Permutation (gets (since st0 (fst res))) (task_url <$> plan (ws st0) groups)).
Proof.
  split_and!.
  - rewrite worker_eq.
    destruct (try_block st) as [st1 [[]|e]]; reflexivity.
  - intros st1 e Htry.
    destruct (try_raises st st1 e Htry) as (evs & imgs & Hx & Hlog & Himgs).
    destruct (worker_since st st1 _ _ _ Htry Hx) as [Hi Hs].
    split_and!.
    + by rewrite worker_eq, Htry.
    + by rewrite Hs, logs_app, Hlog.
    + destruct e; simpl; eauto.
    + exists imgs. split; [exact Hi|].
      destruct Himgs as [-> | (response & chunks & pages & pg & Hcl & Hget & Hst
                               & Hopen & Hbody & Hconv & Hthumbs & Hpg & Hr)];
        [by left | right].
      exists response, chunks, pages, pg. split_and!; try done.
      * by apply lookup_lt_Some in Hpg.
      * intros k Hk.
        destruct (lookup_lt_is_Some_2 imgs (Z.to_nat (k - 1))) as [img Hi']; [lia|].
        destruct (Hthumbs _ _ Hi') as (a & Ha & ->).
        replace (1 + Z.of_nat (Z.to_nat (k - 1))) with k in * by lia.
        exists a. split; [exact Hi'|]. by apply cell_ref_names.
  - intros e Hget. rewrite try_eq. cbv zeta. rewrite Hget. eauto.
  - intros response Hget Hst. rewrite try_eq. cbv zeta. rewrite Hget, Hst. eauto.
  - intros response e Hget Hst Hcl. split.
    + rewrite try_eq. cbv zeta. rewrite Hget, Hst, Hcl. eauto.
    + by apply get_file_extension_raises in Hcl.
  - intros response ext e Hget Hst Hcl Hne Hv Hfail.
    rewrite try_eq. cbv zeta. rewrite Hget, Hst, Hcl.
    destruct ext as [|c e']; [done|]. rewrite Hv.
    destruct Hfail as [-> | [-> [-> | (chunks & -> & Hfail)]]]; [eauto | eauto |].
    destruct Hfail as [[-> ->] | [Hr Hfail]].
    + change (Py.str_eqb (py "pdf") "pdf") with true. cbv iota. eauto.
    + rewrite (raster_is_not_pdf _ Hr), Hr, insert_image_eq.
      destruct Hfail as [-> | [[sz ->] ->]]; eauto.
  - intros groups st0.
    destruct (dispatch_all_spec world temp_dir poppler_path video_exts groups st0)
      as (Hr & evs & imgs & wss & Hx & _ & Hg & _).
    split; [exact Hr|]. by rewrite (since_extends _ _ _ _ Hx), Hg.
Qed.

End WorkerClaims.

Section ScratchDirClaims.
Variable world : World.
Variables (link : Link) (row start_col : Z) (temp_dir poppler_path : str).
Variable vexts : list str.

Lemma join_forms os a b :
  OsPath.join os a b = a ++ b \/ OsPath.join os a b = a ++ OsPath.sep os :: b.
Proof.
  unfold OsPath.join.
  assert (Hd : forall d p, d ++ p = a -> 
            match last p with
            | None => d ++ b
            | Some c => if OsPath.is_sep os c then d ++ p ++ b else d ++ p ++ OsPath.sep os :: b
            end = a ++ b \/
            match last p with
            | None => d ++ b
            | Some c => if OsPath.is_sep os c then d ++ p ++ b else d ++ p ++ OsPath.sep os :: b
            end = a ++ OsPath.sep os :: b).
  { intros d p <-. destruct (last p) as [c|] eqn:Hl.
    - destruct (OsPath.is_sep os c); rewrite !app_assoc; auto.
    - apply last_None in Hl as ->. rewrite app_nil_r. auto. }
  destruct (OsPath.splitdrive os a) as [d p] eqn:Hs. apply Hd.
  unfold OsPath.splitdrive in Hs. destruct os.
  - by injection Hs as <- <-.
  - destruct a as [|x [|y a']]; try by injection Hs as <- <-.
    destruct (Ascii.eqb y ":"); by injection Hs as <- <-.
Qed.

Lemma int_char_not_sep os c : int_char c = true -> OsPath.is_sep os c = false.
Proof.
  intros Hc. destruct (OsPath.is_sep os c) eqn:Hs; [|done].
  apply is_sep_chars in Hs as [-> | ->]; done.
Qed.

Lemma no_sep_app os a b : no_sep os a -> no_sep os b -> no_sep os (a ++ b).
Proof. intros Ha Hb c [?|?]%in_app_iff; auto. Qed.

Lemma no_sep_int os z : no_sep os (Py.str_of_int z).
Proof.
  intros c Hc. apply int_char_not_sep.
  pose proof (str_of_int_chars z) as H. rewrite Forall_forall in H.
  by apply H, list_elem_of_In.
Qed.

Lemma no_sep_literal os (s : string) :
  forallb (fun c => negb (OsPath.is_sep os c)) (py s) = true -> no_sep os (py s).
Proof.
  intros H c Hc. rewrite forallb_forall in H. specialize (H c Hc).
  by apply negb_true_iff in H.
Qed.

Lemma no_sep_extension os url : no_sep os (extension_of os url).
Proof. intros c Hc. by apply extension_chars in Hc as (_ & ? & _). Qed.

Lemma no_sep_scratch_name os r c e : no_sep os e -> no_sep os (scratch_name r c e).
Proof.
  intros He. unfold scratch_name.
  repeat (apply no_sep_app); try apply no_sep_int; try done;
    apply no_sep_literal; by destruct os.
Qed.

Lemma no_sep_page_name os r c k : no_sep os (page_name r c k).
Proof.
  unfold page_name.
  repeat (apply no_sep_app); try apply no_sep_int;
    apply no_sep_literal; by destruct os.
Qed.

(** X15. Whatever the URL of a link, the files its worker writes lie in the
    scratch directory itself: each path is [temp_dir] followed, after a
    separator when [temp_dir] needs one, by a file name that holds no
    path separator. *)
Theorem scratch_files_stay_in_the_scratch_dir st p :
  In p (writes (since st (fst (_process_single_link world link row start_col
                                 temp_dir poppler_path vexts st)))) ->
  exists name,
    no_sep (platform world) name /\
    p = OsPath.join (platform world) temp_dir name /\
    (p = temp_dir ++ name \/ p = temp_dir ++ OsPath.sep (platform world) :: name).
Proof.
  destruct (worker_frame world temp_dir poppler_path vexts link row start_col st)
    as (_ & evs & imgs & Hx & _ & _ & Hw).
  rewrite (since_extends _ _ _ _ Hx).
  destruct Hw as [-> | (e & j & He & ->)]; [by intros []|].
  apply get_file_extension_ok in He as ->.
  intros [<- | (k & <- & _)%in_map_iff].
  - eexists. split_and!; [|reflexivity|apply join_forms].
    apply no_sep_scratch_name, no_sep_extension.
  - eexists. split_and!; [|reflexivity|apply join_forms]. apply no_sep_page_name.
Qed.

End ScratchDirClaims.

Section RunExtras.

Lemma only_ret {A} P (a : A) : emits_only P (ret a).
Proof. intros st. exists []. by rewrite app_nil_r. Qed.

Lemma only_raise {A} P e : emits_only P (@raise A e).
Proof. intros st. exists []. by rewrite app_nil_r. Qed.

Lemma only_lift {A} P (r : result A) : emits_only P (lift r).
Proof. intros st. exists []. by rewrite app_nil_r. Qed.

Lemma only_get_ws P : emits_only P get_ws.
Proof. intros st. exists []. by rewrite app_nil_r. Qed.

Lemma only_modify_ws P f : emits_only P (modify_ws f).
Proof. intros st. exists []. by rewrite app_nil_r. Qed.

Lemma only_bind {A B} P (m : M A) (k : A -> M B) :
  emits_only P m -> (forall a, emits_only P (k a)) -> emits_only P (bind m k).
Proof.
  intros Hm Hk st. unfold bind. destruct (Hm st) as (evs & Ht & Hc).
  destruct (m st) as [st1 [a|e]]; simpl in *; [|by exists evs].
  destruct (Hk a st1) as (evs' & Ht' & Hc'). exists (evs ++ evs').
  rewrite Ht', Ht, app_assoc. split; [done|]. by apply Forall_app.
Qed.

Lemma only_try_except {A} P (m : M A) (h : exn -> M A) :
  emits_only P m -> (forall e, emits_only P (h e)) -> emits_only P (try_except m h).
Proof.
  intros Hm Hh st. unfold try_except. destruct (Hm st) as (evs & Ht & Hc).
  destruct (m st) as [st1 [a|e]]; simpl in *; [by exists evs|].
  destruct (Hh e st1) as (evs' & Ht' & Hc'). exists (evs ++ evs').
  rewrite Ht', Ht, app_assoc. split; [done|]. by apply Forall_app.
Qed.

Lemma only_emit (P : event -> Prop) e : P e -> emits_only P (emit e).
Proof. intros He st. exists [e]. split; [done|]. by constructor. Qed.

Lemma only_call {A} (P : event -> Prop) e (r : result A) :
  P e -> emits_only P (call e r).
Proof. intros He. apply only_bind; [by apply only_emit | intros; apply only_lift]. Qed.

Lemma only_for_each {A} P (l : list A) (body : A -> M unit) :
  (forall x, emits_only P (body x)) -> emits_only P (for_each l body).
Proof.
  intros Hb. induction l as [|x l IH]; [apply only_ret|].
  simpl. apply only_bind; [apply Hb | by intros _].
Qed.

Ltac only_step :=
  first
    [ apply only_call; exact I
    | apply only_emit; exact I
    | apply only_lift
    | apply only_ret
    | apply only_raise
    | apply only_get_ws
    | apply only_modify_ws
    | apply only_for_each; intros ?
    | apply only_try_except; [|intros ?]
    | apply only_bind; [|intros ?] ].

Lemma only_insert_image world p r c : emits_only pool_event (_insert_image world p r c).
Proof. unfold _insert_image. repeat only_step. Qed.

Lemma only_worker world link row col temp_dir poppler_path vexts :
  emits_only pool_event
    (_process_single_link world link row col temp_dir poppler_path vexts).
Proof.
  unfold _process_single_link. only_step.
  - unfold _process_single_link_try, logging.
    only_step; [only_step|]. only_step.
    { unfold raise_for_status. destruct (_ && _); only_step. }
    apply only_bind; [apply only_lift | intros ext0]. destruct ext0; [only_step|].
    destruct (mem _ _); [only_step|].
    only_step; [only_step|]. only_step; [only_step|].
    destruct (Py.str_eqb _ _).
    + only_step; [only_step|]. only_step. destruct x as [page_num img].
      unfold _process_single_link_page. only_step; [only_step|].
      apply only_insert_image.
    + destruct (mem _ _); [apply only_insert_image | only_step].
  - unfold _process_single_link_except, logging. destruct e; only_step.
Qed.

Lemma only_dispatch_all world temp_dir poppler_path vexts groups :
  emits_only pool_event (dispatch_all world temp_dir poppler_path vexts groups).
Proof.
  unfold dispatch_all. only_step. destruct x as [row links].
  unfold dispatch_row. only_step; [only_step|]. only_step.
  destruct x as [idx link]. unfold submit.
  apply only_bind; [by apply only_emit|]. intros _ st. simpl. apply only_worker.
Qed.

Lemma adjust_dimensions_trace st : trace (fst (_adjust_dimensions st)) = trace st.
Proof.
  rewrite adjust_dimensions_eq.
  destruct (for_each (range 1 (max_column (ws st) + 1)) _ st) as [st1 r] eqn:Hcols.
  pose proof (columns_loop_any _ _ _ _ Hcols) as (_ & _ & _ & Ht & _).
  destruct r as [[]|e]; [|done].
  destruct (rows_loop_eq (range 1 (max_row (ws st1) + 1)) st1)
    as (st2 & Hrows & _ & _ & _ & Ht' & _).
  rewrite Hrows. simpl. congruence.
Qed.

Lemma adjust_dimensions_ok st :
  snd (_adjust_dimensions st) = Ok tt <-> max_column (ws st) <= 18278.
Proof.
  rewrite adjust_dimensions_eq.
  destruct (for_each (range 1 (max_column (ws st) + 1)) _ st) as [st1 r] eqn:Hcols.
  pose proof (columns_loop_any _ _ _ _ Hcols) as (_ & _ & _ & _ & _ & _ & Hok).
  assert (Hrange : (forall col, In col (range 1 (max_column (ws st) + 1)) -> 1 <= col <= 18278)
                   <-> max_column (ws st) <= 18278).
  { split.
    - intros H. pose proof (max_of_pos ((fun kv => snd (fst kv)) <$> map_to_list (_cells (ws st)))) as Hp.
      fold (max_column (ws st)) in Hp.
      specialize (H (max_column (ws st))). apply H.
      apply list_elem_of_In, elem_of_seqZ. lia.
    - intros H col Hin%list_elem_of_In%elem_of_seqZ. lia. }
  destruct r as [[]|e].
  - destruct (rows_loop_eq (range 1 (max_row (ws st1) + 1)) st1) as (st2 & Hrows & _).
    rewrite Hrows. cbn [snd]. split; [intros _; exact (proj1 Hrange (proj1 Hok eq_refl)) | done].
  - cbn [snd]. split; [done|]. intros H. by pose proof (proj2 Hok (proj2 Hrange H)).
Qed.

Variable world : World.
Variables (excel_path output_path temp_dir poppler_path : str) (max_workers : Z).

(** From the dispatch loop to the end of the run. *)
Lemma run_tail groups st4 :
  (dispatch_all world temp_dir poppler_path video_exts groups ;;
   _adjust_dimensions ;;
   call (ESaveWorkbook output_path) (wb_save world output_path) ;;
   call (ERmtree temp_dir) (shutil_rmtree world temp_dir)) st4 =
  let st5 := fst (dispatch_all world temp_dir poppler_path video_exts groups st4) in
  match _adjust_dimensions st5 with
  | (st6, Raise e) => (st6, Raise e)
  | (st6, Ok _) =>
    let st7 := record (ESaveWorkbook output_path) st6 in
    match wb_save world output_path with
    | Raise e => (st7, Raise e)
    | Ok _ => (record (ERmtree temp_dir) st7, shutil_rmtree world temp_dir)
    end
  end.
Proof.
  unfold bind at 1.
  pose proof (dispatch_all_spec world temp_dir poppler_path video_exts groups st4)
    as [Hok _]. cbv zeta in Hok. cbv zeta.
  destruct (dispatch_all world temp_dir poppler_path video_exts groups st4) as [st5 r].
  cbn [fst snd] in *. subst r.
  unfold bind at 1. destruct (_adjust_dimensions st5) as [st6 [[]|e]]; [|done].
  unfold bind at 1, call at 1, bind at 1, emit at 1, lift at 1.
  cbv beta iota zeta.
  destruct (wb_save world output_path) as [[]|e]; reflexivity.
Qed.

(** The run, step by step. *)
Lemma run_steps :
  process_excel_hyperlinks world excel_path output_path temp_dir poppler_path
    max_workers initial =
  let st1 := record (EMakedirs temp_dir) initial in
  match os_makedirs world temp_dir with
  | Raise e => (st1, Raise e)
  | Ok _ =>
    let st2 := record (EListdir poppler_path) st1 in
    match os_listdir world poppler_path with
    | Raise e => (st2, Raise e)
    | Ok poppler_bin =>
      match List.filter (fun f => negb (mem f poppler_bin)) required_files with
      | f :: fs => (st2, Raise (FileNotFoundError (missing_message (f :: fs))))
      | [] =>
        let st3 := record (ELoadWorkbook excel_path) st2 in
        match xl_load_workbook world excel_path with
        | Raise e => (st3, Raise e)
        | Ok wb =>
          let st4 := {| ws := wb; trace := trace st3 |} in
          if max_workers <=? 0
          then (st4, Raise (ValueError "max_workers must be greater than 0"))
          else
          let st5 := fst (dispatch_all world temp_dir poppler_path video_exts
                            (_group_hyperlinks wb) st4) in
          match _adjust_dimensions st5 with
          | (st6, Raise e) => (st6, Raise e)
          | (st6, Ok _) =>
            let st7 := record (ESaveWorkbook output_path) st6 in
            match wb_save world output_path with
            | Raise e => (st7, Raise e)
            | Ok _ => (record (ERmtree temp_dir) st7, shutil_rmtree world temp_dir)
            end
          end
        end
      end
    end
  end.
Proof.
  rewrite run_eq. cbv zeta.
  destruct (os_makedirs world temp_dir) as [[]|e]; [|done].
  destruct (os_listdir world poppler_path) as [poppler_bin|e]; [|done].
  destruct (List.filter _ required_files); [|done].
  unfold bind at 1, call at 1, bind at 1, emit at 1, lift at 1.
  cbv beta iota zeta.
  destruct (xl_load_workbook world excel_path) as [wb|e]; [|done].
  unfold bind at 1, modify_ws at 1. unfold bind at 1, get_ws at 1.
  cbv beta iota zeta. cbn [ws]. unfold bind at 1, ThreadPoolExecutor.
  destruct (max_workers <=? 0); [reflexivity|]. unfold ret at 1. apply run_tail.
Qed.

(** X17. With a positive number of workers, once the scratch directory
    is made, poppler is found and the workbook is loaded (with a last
    column that has a letter), the run comes to its end whatever happens
    to the links, provided the workbook can be saved and the scratch
    directory removed: between the loading and the saving there are only
    the tasks' own events, one task for each hyperlinked cell; the
    workbook is saved once, after all of them, and removing the scratch
    directory comes last. *)
Theorem run_saves_whatever_the_links_do sheet poppler_bin :
  0 < max_workers ->
  os_makedirs world temp_dir = Ok tt ->
  os_listdir world poppler_path = Ok poppler_bin ->
  In (py "pdftoppm.exe") poppler_bin -> In (py "pdfinfo.exe") poppler_bin ->
  xl_load_workbook world excel_path = Ok sheet ->
  max_column sheet <= 18278 ->
  wb_save world output_path = Ok tt ->
  shutil_rmtree world temp_dir = Ok tt ->
  let res := process_excel_hyperlinks world excel_path output_path temp_dir
               poppler_path max_workers initial in
  snd res = Ok tt /\
  exists evs,
    trace (fst res) =
      [EMakedirs temp_dir; EListdir poppler_path; ELoadWorkbook excel_path]
      ++ evs ++ [ESaveWorkbook output_path; ERmtree temp_dir] /\
    Forall pool_event evs /\
    task_key <$> submits evs = hyperlinked_cells sheet /\
    _cells (ws (fst res)) = _cells sheet /\
    exists imgs, images (fst res) = _images sheet ++ imgs.
Proof.
  intros Hpos Hmk Hls Hp1 Hp2 Hload Hcol Hsave Hrm. cbv zeta.
  rewrite run_steps. cbv zeta. rewrite Hmk, Hls.
  assert (Hw : (max_workers <=? 0) = false) by lia.
  assert (Hf : List.filter (fun f => negb (mem f poppler_bin)) required_files = []).
  { unfold required_files. cbn [List.filter].
    apply mem_In in Hp1, Hp2. by rewrite Hp1, Hp2. }
  rewrite Hf, Hload, Hw.
  set (st4 := {| ws := sheet; trace := _ |}).
  destruct (dispatch_all_spec world temp_dir poppler_path video_exts
              (_group_hyperlinks sheet) st4) as (_ & evs & imgs & wss & Hx & Hsub & _).
  destruct (only_dispatch_all world temp_dir poppler_path video_exts
              (_group_hyperlinks sheet) st4) as (evs' & Ht & Honly).
  set (st5 := fst (dispatch_all _ _ _ _ _ st4)) in *.
  assert (evs' = evs) as ->.
  { pose proof (ext_trace _ _ _ _ Hx) as Ht'. rewrite Ht in Ht'. by apply app_inv_head in Ht'. }
  assert (Hmc : max_column (ws st5) = max_column sheet).
  { unfold max_column. by rewrite (ext_cells _ _ _ _ Hx). }
  pose proof (proj2 (adjust_dimensions_ok st5) ltac:(lia)) as Hadj.
  pose proof (adjust_dimensions_trace st5) as Htr.
  pose proof (adjust_dimensions_spec st5) as Hspec.
  destruct (_adjust_dimensions st5) as [st6 r]. cbn [fst snd] in *. subst r.
  destruct (Hspec st6 eq_refl) as (Hc6 & Hi6 & _).
  rewrite Hsave, Hrm. cbn [fst snd]. split; [done|].
  exists evs. split_and!; [|done| | |].
  - unfold record. cbn [trace]. rewrite Htr, Ht. subst st4. cbn [trace].
    unfold record, initial. cbn [trace]. by rewrite <- !app_assoc.
  - rewrite Hsub. apply (plan_keys_eq sheet).
  - unfold record. cbn [ws]. rewrite Hc6. apply (ext_cells _ _ _ _ Hx).
  - exists imgs. unfold images, record. cbn [ws]. rewrite Hi6.
    apply (ext_images _ _ _ _ Hx).
Qed.

(** X18. The scratch directory is removed only at the very end, after the
    workbook has been saved: a run that ends earlier, with any
    exception, leaves the directory and its files behind. Every run
    that returns has removed it, and a run that raises after removing
    it raises what the removal raised. *)
Theorem scratch_dir_outlives_a_failed_run :
  let res := process_excel_hyperlinks world excel_path output_path temp_dir
               poppler_path max_workers initial in
  (forall p, In (ERmtree p) (trace (fst res)) ->
     p = temp_dir /\ wb_save world output_path = Ok tt /\
     exists evs,
       trace (fst res) = evs ++ [ESaveWorkbook output_path; ERmtree temp_dir] /\
       snd res = shutil_rmtree world temp_dir) /\
  (snd res = Ok tt -> In (ERmtree temp_dir) (trace (fst res))).
Proof.
  cbv zeta. rewrite run_steps. cbv zeta.
  assert (Hne : forall p evs, Forall pool_event evs -> ~ In (ERmtree p) evs).
  { intros p evs Hall Hin. rewrite Forall_forall in Hall.
    by apply (Hall (ERmtree p)), list_elem_of_In. }
  destruct (os_makedirs world temp_dir) as [[]|e].
  2: { split; [|done]. intros p [[=]|[]]. }
  destruct (os_listdir world poppler_path) as [poppler_bin|e].
  2: { split; [|done]. intros p [[=]|[[=]|[]]]. }
  destruct (List.filter _ required_files).
  2: { split; [|done]. intros p [[=]|[[=]|[]]]. }
  destruct (xl_load_workbook world excel_path) as [sheet|e].
  2: { split; [|done]. intros p [[=]|[[=]|[[=]|[]]]]. }
  destruct (max_workers <=? 0).
  { split; [|done]. intros p [[=]|[[=]|[[=]|[]]]]. }
  set (st4 := {| ws := sheet; trace := _ |}).
  destruct (only_dispatch_all world temp_dir poppler_path video_exts
              (_group_hyperlinks sheet) st4) as (evs & Ht & Honly).
  set (st5 := fst (dispatch_all _ _ _ _ _ st4)) in *.
  pose proof (adjust_dimensions_trace st5) as Htr.
  destruct (_adjust_dimensions st5) as [st6 r]. cbn [fst] in Htr.
  assert (Hpre : forall p, ~ In (ERmtree p) (trace st6)).
  { intros p. rewrite Htr, Ht. intros [Hin | Hin]%in_app_iff; [|by apply Hne in Hin].
    subst st4. cbn in Hin. destruct Hin as [[=]|[[=]|[[=]|[]]]]. }
  destruct r as [[]|e].
  2: { cbn [fst snd]. split; [|done]. intros p Hin. by apply Hpre in Hin. }
  destruct (wb_save world output_path) as [[]|e].
  2: { cbn [fst snd]. split; [|done]. unfold record. cbn [trace].
       intros p [Hin | [[=]|[]]]%in_app_iff. by apply Hpre in Hin. }
  cbn [fst snd]. unfold record. cbn [trace]. split.
  - intros p [[Hin | [[=]|[]]]%in_app_iff | [[= <-]|[]]]%in_app_iff; [by apply Hpre in Hin|].
    split_and!; [done..|]. exists (trace st6). split; [|done]. by rewrite <- app_assoc.
  - intros _. apply in_or_app. right. by left.
Qed.

End RunExtras.

Section ImageFacts.
Variable world : World.
Variables (temp_dir poppler_path : str) (vexts : list str).

Lemma try_images link row start_col st :
  let res := _process_single_link_try world link row start_col temp_dir
               poppler_path vexts st in
  exists imgs evs,
    extends st (fst res) evs imgs /\
    task_images world (link, row, start_col) imgs.
Proof.
  cbv zeta. rewrite try_eq. cbv zeta.
  assert (Hnil : task_images world (link, row, start_col) []).
  { split; [by intros i img Hi | left; simpl; lia]. }
  destruct (requests_get world (link_url link)) as [response|e].
  2: { exists [], [EGet (link_url link)]. split; [ext_solve | done]. }
  destruct (bad_status response).
  { exists [], [EGet (link_url link)]. split; [ext_solve | done]. }
  destruct (_get_file_extension (platform world) (link_url link)) as [[|c ext']|e].
  3: { exists [], [EGet (link_url link)]. split; [ext_solve | done]. }
  { exists [], [EGet (link_url link); ELog (UnrecognizedType (link_url link) row (link_col link))].
    split; [ext_solve | done]. }
  destruct (mem (c :: ext') vexts).
  { exists [], [EGet (link_url link); ELog (SkippedVideo (link_url link) row (link_col link))].
    split; [ext_solve | done]. }
  set (fp := scratch_path world temp_dir row (link_col link) (c :: ext')).
  destruct (open_wb world fp) as [[]|e].
  2: { exists [], [EGet (link_url link); EOpenWrite fp]. split; [ext_solve | done]. }
  destruct (iter_content response) as [chunks|e].
  2: { exists [], [EGet (link_url link); EOpenWrite fp]. split; [ext_solve | done]. }
  destruct (Py.str_eqb (c :: ext') "pdf") eqn:Hpdf.
  - destruct (convert_from_path world fp poppler_path) as [pages|e] eqn:Hconv.
    2: { exists [], [EGet (link_url link); EOpenWrite fp; EConvert fp].
         split; [ext_solve | done]. }
    destruct (pages_loop_spec world link row start_col temp_dir pages 1
                (record (EConvert fp) (record (EOpenWrite fp) (record (EGet (link_url link)) st))))
      as (imgs & evs & j & Hx & Hw & Hj & Hg & Hs & Hl & Himgs & Hres).
    exists imgs, ([EGet (link_url link); EOpenWrite fp; EConvert fp] ++ evs).
    split.
    + refine (extends_trans st _ _ [_; _; _] evs [] imgs _ Hx). ext_solve.
    + split.
      * intros i img Hi. destruct (Himgs i img Hi) as (a & Ha & ->).
        eexists _, a. split; [|done]. cbn [task_slot fst snd]. rewrite <- Ha. f_equal. lia.
      * right. exists fp, poppler_path, pages. split; [done|].
        destruct (snd (for_each _ _ _)); lia.
  - destruct (mem (c :: ext') raster_exts) eqn:Hras.
    + rewrite insert_image_eq.
      destruct (image_open world fp) as [sz|e].
      * destruct (cell_ref row start_col) as [a|e] eqn:Hc.
        -- exists [thumb fp a], [EGet (link_url link); EOpenWrite fp; EImageOpen fp].
           split; [ext_solve|]. split; [|left; simpl; lia].
           intros [|i] img [= <-]. exists fp, a. cbn [task_slot fst snd].
           rewrite Z.add_0_r. done.
        -- exists [], [EGet (link_url link); EOpenWrite fp; EImageOpen fp].
           split; [ext_solve | done].
      * exists [], [EGet (link_url link); EOpenWrite fp; EImageOpen fp].
        split; [ext_solve | done].
    + exists [], [EGet (link_url link); EOpenWrite fp;
                  ELog (UnsupportedType (c :: ext') row (link_col link))].
      split; [ext_solve | done].
Qed.

Lemma submit_images link row col st :
  let res := submit link row col
               (_process_single_link world link row col temp_dir poppler_path vexts) st in
  snd res = Ok tt /\
  exists evs imgs,
    extends st (fst res) evs imgs /\ task_images world (link, row, col) imgs.
Proof.
  cbv zeta. unfold submit, bind, emit. cbn [fst snd].
  fold (record (ESubmit link row col) st). split; [done|].
  set (st0 := record (ESubmit link row col) st).
  rewrite worker_eq.
  destruct (try_images link row col st0) as (imgs & evs & Hx & Hi). cbv zeta in Hx.
  destruct (_process_single_link_try _ _ _ _ _ _ _ st0) as [st1 [[]|e]]; cbn [fst] in *.
  - exists ([ESubmit link row col] ++ evs), imgs. split; [|done].
    refine (extends_trans st _ _ [_] evs [] imgs _ Hx). ext_solve.
  - exists ([ESubmit link row col] ++ evs ++ [ELog (error_record link row e)]), imgs.
    split; [|done].
    refine (extends_trans st st0 _ [_] _ [] imgs _ _); [ext_solve|].
    rewrite <- (app_nil_r imgs). apply (extends_trans _ _ _ _ _ _ _ Hx). ext_solve.
Qed.

Lemma row_loop_images row start_col links : forall k st,
  let res :=
    for_each (enumerate k links)
      (fun '(idx, link) =>
         submit link row (start_col + idx)
           (_process_single_link world link row (start_col + idx)
              temp_dir poppler_path vexts)) st in
  exists evs imgss,
    extends st (fst res) evs (concat imgss) /\
    Forall2 (task_images world)
      ((fun '(idx, link) => (link, row, start_col + idx)) <$> enumerate k links) imgss.
Proof.
  induction links as [|l links IH]; intros k st; cbv zeta.
  - exists [], []. split; [apply extends_refl | constructor].
  - simpl enumerate. rewrite for_each_cons.
    destruct (submit_images l row (start_col + k) st) as (Hr & evs & imgs & Hx & Hi).
    destruct (submit l row (start_col + k) _ st) as [st1 r]. cbn [fst snd] in Hr, Hx. subst r.
    destruct (IH (k + 1) st1) as (evs' & imgss & Hx' & Hf).
    exists (evs ++ evs'), (imgs :: imgss). split.
    + apply (extends_trans _ _ _ _ _ _ _ Hx Hx').
    + rewrite fmap_cons. by constructor.
Qed.

Lemma dispatch_all_images sheet groups : forall st,
  _cells (ws st) = _cells sheet ->
  let res := dispatch_all world temp_dir poppler_path vexts groups st in
  exists evs imgss,
    extends st (fst res) evs (concat imgss) /\
    Forall2 (task_images world) (plan sheet groups) imgss.
Proof.
  induction groups as [|g groups IH]; intros st Hcells; cbv zeta.
  - exists [], []. split; [apply extends_refl | constructor].
  - unfold dispatch_all. rewrite for_each_cons.
    fold (dispatch_all world temp_dir poppler_path vexts groups).
    destruct (dispatch_row_spec world temp_dir poppler_path vexts g st) as (Hr & _).
    assert (Hrow : exists evs imgss,
              extends st (fst (dispatch_row world temp_dir poppler_path vexts g st))
                evs (concat imgss) /\
              Forall2 (task_images world) (row_plan sheet g) imgss).
    { destruct g as [row links]. unfold dispatch_row.
      unfold bind at 1, get_ws at 1.
      rewrite <- (row_plan_cells (ws st) sheet) by done.
      apply row_loop_images. }
    destruct Hrow as (evs & imgss & Hx & Hf).
    destruct (dispatch_row world temp_dir poppler_path vexts g st) as [st1 r].
    cbn [fst snd] in Hr, Hx. subst r.
    destruct (IH st1) as (evs' & imgss' & Hx' & Hf').
    { by rewrite (ext_cells _ _ _ _ Hx). }
    exists (evs ++ evs'), (imgss ++ imgss'). split.
    + rewrite concat_app. apply (extends_trans _ _ _ _ _ _ _ Hx Hx').
    + unfold plan. rewrite bind_cons. by apply Forall2_app.
Qed.

Lemma Forall2_concat_elem {A B} (R : A -> list B -> Prop) l k x :
  Forall2 R l k -> In x (concat k) ->
  exists t xs, In t l /\ R t xs /\ In x xs.
Proof.
  induction 1 as [|t xs l k Hr Hf IH]; [by intros []|].
  simpl. intros [Hx | Hx]%in_app_iff.
  - exists t, xs. split_and!; [by left | done..].
  - destruct (IH Hx) as (t' & xs' & Ht & Hr' & Hx'). exists t', xs'.
    split_and!; [by right | done..].
Qed.

Lemma enumerate_elem {A} (l : list A) : forall k i x,
  In (i, x) (enumerate k l) -> k <= i /\ In x l.
Proof.
  induction l as [|y l IH]; intros k i x; [by intros []|].
  simpl. intros [[= <- <-] | Hin]; [split; [lia | by left]|].
  apply IH in Hin as [? ?]. split; [lia | by right].
Qed.

(** A planned task belongs to a row with a hyperlink, and its column
    lies to the right of all of them. *)
Lemma plan_slot_free ws t :
  In t (plan ws (_group_hyperlinks ws)) ->
  (exists c0, hyperlinked ws (fst (task_slot t)) c0) /\
  forall c0, hyperlinked ws (fst (task_slot t)) c0 -> c0 < snd (task_slot t).
Proof.
  intros Ht%list_elem_of_In. unfold plan in Ht.
  apply list_elem_of_bind in Ht as (g & Ht & Hg).
  destruct (group_elem _ _ Hg) as [Heq Hne].
  unfold row_plan in Ht. apply list_elem_of_fmap in Ht as ([i l] & -> & Hl).
  apply list_elem_of_In, enumerate_elem in Hl as [Hi Hl].
  cbn [task_slot fst snd].
  assert (Hn : 0 < Z.of_nat (length (sort_by_col (snd g)))).
  { destruct (sort_by_col (snd g)); [done | simpl; lia]. }
  destruct (start_col_spec ws (fst g) _ Hn Hne) as [Hlast Hall]. cbv zeta in *.
  split; [eauto|]. intros c0 Hc0%Hall. lia.
Qed.

Lemma enumerate_fst {A} (l : list A) : forall k,
  fst <$> enumerate k l = seqZ k (Z.of_nat (length l)).
Proof.
  induction l as [|x l IH]; intros k; [done|].
  simpl enumerate. rewrite fmap_cons, IH. cbn [fst length].
  rewrite Nat2Z.inj_succ, (seqZ_cons k) by lia. rewrite Z.pred_succ.
  by replace (Z.succ k) with (k + 1) by lia.
Qed.

Lemma row_plan_slots ws g :
  task_slot <$> row_plan ws g =
  (fun idx => (fst g,
               _find_insert_start_col ws (fst g)
                 (Z.of_nat (length (sort_by_col (snd g)))) + idx))
    <$> seqZ 0 (Z.of_nat (length (sort_by_col (snd g)))).
Proof.
  unfold row_plan. rewrite <- enumerate_fst, <- !list_fmap_compose.
  apply list_fmap_ext. by intros _ [idx link] _.
Qed.

Lemma plan_slots_NoDup ws : NoDup (task_slot <$> plan ws (_group_hyperlinks ws)).
Proof.
  unfold plan.
  assert (Heq : forall groups,
    task_slot <$> (groups ≫= row_plan ws) =
    groups ≫= (fun g => task_slot <$> row_plan ws g)).
  { induction groups as [|g groups IH]; [done|].
    by rewrite !bind_cons, fmap_app, IH. }
  rewrite Heq. apply NoDup_bind.
  - intros g1 g2 y Hg1 Hg2. rewrite !row_plan_slots.
    intros (i1 & -> & _)%list_elem_of_fmap (i2 & [= Hr _] & _)%list_elem_of_fmap.
    destruct (group_elem _ _ Hg1) as [-> _], (group_elem _ _ Hg2) as [-> _].
    simpl in Hr. by rewrite Hr.
  - intros g Hg. rewrite row_plan_slots.
    apply NoDup_fmap_2; [|apply NoDup_seqZ]. intros i j [= ?]. lia.
  - eapply NoDup_fmap_1, groups_NoDup.
Qed.

Lemma anchors_NoDup tasks imgss :
  Forall2 (fun t imgs =>
             (length imgs <= 1)%nat /\
             forall img, In img imgs ->
               cell_ref (fst (task_slot t)) (snd (task_slot t)) = Ok (Image.anchor img))
    tasks imgss ->
  NoDup (task_slot <$> tasks) ->
  NoDup (Image.anchor <$> concat imgss) /\
  forall a, In a (Image.anchor <$> concat imgss) ->
    exists t, In t tasks /\ cell_ref (fst (task_slot t)) (snd (task_slot t)) = Ok a.
Proof.
  induction 1 as [|t imgs tasks imgss [Hlen Hanc] Hf IH]; intros Hnd.
  - split; [constructor | by intros a []].
  - rewrite fmap_cons in Hnd. apply NoDup_cons in Hnd as [Ht Hnd].
    destruct (IH Hnd) as [IH1 IH2]. simpl concat. rewrite fmap_app.
    destruct imgs as [|img [|img' imgs]]; [| |simpl in Hlen; lia].
    + simpl. split; [done|]. intros a Ha. destruct (IH2 a Ha) as (t' & ? & ?).
      exists t'. split; [by right | done].
    + simpl. split.
      * constructor; [|done]. intros Hin%list_elem_of_In.
        destruct (IH2 _ Hin) as (t' & Ht' & Hc').
        pose proof (Hanc img ltac:(by left)) as Hc.
        destruct (cell_ref_inj _ _ _ _ _ Hc Hc') as [Hr Hcol].
        apply Ht. apply list_elem_of_fmap. exists t'.
        split; [|by apply list_elem_of_In].
        unfold task_slot in *. simpl in *. by rewrite Hr, Hcol.
      * intros a [<- | Ha].
        -- exists t. split; [by left|]. apply Hanc. by left.
        -- destruct (IH2 a Ha) as (t' & ? & ?). exists t'. split; [by right | done].
Qed.

(** X19. The thumbnails of a run are added after the images the sheet had,
    each 180 by 120 and anchored in a row that has a hyperlink, to the
    right of every hyperlink of that row: no thumbnail covers a
    hyperlinked cell of its row, and the cells themselves are not
    touched. *)
Theorem thumbnails_lie_right_of_the_hyperlinks st :
  let st' := fst (dispatch_all world temp_dir poppler_path vexts
                    (_group_hyperlinks (ws st)) st) in
  _cells (ws st') = _cells (ws st) /\
  exists imgs,
    images st' = images st ++ imgs /\
    forall img, In img imgs ->
      Image.width img = 180 /\ Image.height img = 120 /\
      exists r c,
        cell_ref r c = Ok (Image.anchor img) /\
        (exists c0, hyperlinked (ws st) r c0) /\
        (forall c0, hyperlinked (ws st) r c0 -> c0 < c).
Proof.
  cbv zeta.
  destruct (dispatch_all_images (ws st) (_group_hyperlinks (ws st)) st eq_refl)
    as (evs & imgss & Hx & Hf). cbv zeta in Hx.
  split; [apply (ext_cells _ _ _ _ Hx)|].
  exists (concat imgss). split; [apply (ext_images _ _ _ _ Hx)|].
  intros img Himg.
  destruct (Forall2_concat_elem _ _ _ _ Hf Himg) as (t & imgs & Ht & [Hslot _] & Hin).
  apply list_elem_of_In, list_elem_of_lookup in Hin as [i Hi].
  destruct (Hslot i img Hi) as (p & a & Ha & ->).
  split_and!; [done..|].
  destruct (plan_slot_free _ _ Ht) as [Hrow Hfree].
  exists (fst (task_slot t)), (snd (task_slot t) + Z.of_nat i).
  split_and!; [exact Ha | exact Hrow |].
  intros c0 Hc0%Hfree. lia.
Qed.

(** X20. When no PDF has more than one page, no two thumbnails of a run
    share a cell: the links of a row get columns of their own, and
    different rows give different anchors. *)
Theorem single_page_links_never_share_a_cell st :
  (forall p q pages, convert_from_path world p q = Ok pages ->
     (length pages <= 1)%nat) ->
  let st' := fst (dispatch_all world temp_dir poppler_path vexts
                    (_group_hyperlinks (ws st)) st) in
  exists imgs,
    images st' = images st ++ imgs /\ NoDup (Image.anchor <$> imgs).
Proof.
  intros Hone. cbv zeta.
  destruct (dispatch_all_images (ws st) (_group_hyperlinks (ws st)) st eq_refl)
    as (evs & imgss & Hx & Hf). cbv zeta in Hx.
  exists (concat imgss). split; [apply (ext_images _ _ _ _ Hx)|].
  apply anchors_NoDup with (tasks := plan (ws st) (_group_hyperlinks (ws st)));
    [|apply plan_slots_NoDup].
  eapply Forall2_impl; [exact Hf|]. intros t imgs [Hslot Hlen].
  assert (Hl : (length imgs <= 1)%nat).
  { destruct Hlen as [? | (p & q & pages & Hc & ?)]; [done|].
    specialize (Hone _ _ _ Hc). lia. }
  split; [done|]. intros img Hin.
  destruct imgs as [|img0 [|? ?]]; [done | | simpl in Hl; lia].
  destruct Hin as [<- | []].
  destruct (Hslot 0%nat img0 eq_refl) as (p & a & Ha & ->).
  rewrite Z.add_0_r in Ha. done.
Qed.

End ImageFacts.

Section SizedRows.
Variable world : World.
Variables (temp_dir poppler_path : str) (vexts : list str).

(** X21. After the dispatch and the sizing, every row that holds a
    thumbnail has height 120: a thumbnail lies in a row with a hyperlinked
    cell, and such a row is within [max_row]. Its column has width 25
    when it is not beyond the sheet's last column of cells. *)
Theorem thumbnail_rows_are_sized st :
  max_column (ws st) <= 18278 ->
  let st1 := fst (dispatch_all world temp_dir poppler_path vexts
                    (_group_hyperlinks (ws st)) st) in
  let st2 := fst (_adjust_dimensions st1) in
  snd (_adjust_dimensions st1) = Ok tt /\
  exists imgs,
    images st2 = images st ++ imgs /\
    forall img, In img imgs ->
      exists r c,
        cell_ref r c = Ok (Image.anchor img) /\
        row_dimensions (ws st2) !! r = Some 120 /\
        (c <= max_column (ws st) ->
           exists l, get_column_letter c = Ok l /\
                     column_dimensions (ws st2) !! l = Some 25).
Proof.
  intros Hmc. cbv zeta.
  destruct (dispatch_all_images world temp_dir poppler_path vexts
              (ws st) (_group_hyperlinks (ws st)) st eq_refl)
    as (evs & imgss & Hx & Hf). cbv zeta in Hx.
  set (st1 := fst (dispatch_all _ _ _ _ _ st)) in *.
  assert (Hc1 : _cells (ws st1) = _cells (ws st)) by apply (ext_cells _ _ _ _ Hx).
  assert (Hmc1 : max_column (ws st1) = max_column (ws st))
    by (unfold max_column; by rewrite Hc1).
  assert (Hmr1 : max_row (ws st1) = max_row (ws st))
    by (unfold max_row; by rewrite Hc1).
  pose proof (proj2 (adjust_dimensions_ok st1) ltac:(lia)) as Hok.
  split; [exact Hok|].
  pose proof (adjust_dimensions_spec st1) as Hspec.
  destruct (_adjust_dimensions st1) as [st2 r]. cbn [fst snd] in *. subst r.
  destruct (Hspec st2 eq_refl) as (_ & Hi2 & Hcols & Hrows).
  exists (concat imgss). split.
  { unfold images. rewrite Hi2. apply (ext_images _ _ _ _ Hx). }
  intros img Himg.
  destruct (Forall2_concat_elem _ _ _ _ Hf Himg) as (t & imgs & Ht & [Hslot _] & Hin).
  apply list_elem_of_In, list_elem_of_lookup in Hin as [i Hi].
  destruct (Hslot i img Hi) as (p & a & Ha & ->).
  destruct (plan_slot_free _ _ Ht) as [[c0 Hc0] Hfree].
  pose proof (hyperlinked_inside _ _ _ Hc0) as [Hr0 Hcc0].
  specialize (Hfree c0 Hc0).
  exists (fst (task_slot t)), (snd (task_slot t) + Z.of_nat i).
  split_and!; [exact Ha | apply Hrows; lia |].
  intros Hle. apply Hcols. lia.
Qed.

End SizedRows.

Section Examples.

Lemma allocator_witness :
  In (1, [ link_at 1 2 "http://h/a.png"; link_at 1 4 "http://h/b.pdf" ])
     (_group_hyperlinks gap_sheet) /\
  hyperlinked gap_sheet 1 (_find_insert_start_col gap_sheet 1 2 - 1) /\
  (forall c, hyperlinked gap_sheet 1 c -> c <= _find_insert_start_col gap_sheet 1 2 - 1) /\
  (forall i, 0 <= i -> ~ hyperlinked gap_sheet 1 (_find_insert_start_col gap_sheet 1 2 + i)).
Proof.
  assert (H : In (1, [ link_at 1 2 "http://h/a.png"; link_at 1 4 "http://h/b.pdf" ])
                (_group_hyperlinks gap_sheet)) by (vm_compute; left; reflexivity).
  split; [exact H|].
  destruct (allocator_starts_after_last_hyperlink gap_sheet 1 _ H)
    as (_ & _ & [Hmax Hall] & Hfree & _).
  split; [exact Hmax | split; [exact Hall | exact Hfree]].
Defined.

(** C1 fails as stated: with one hyperlink, in B1, the allocator returns
    column 3, while column 1 already starts a free block of one column. *)
Lemma start_col_is_not_first_free_block :
  ~ first_free_block hole_sheet 1 1 (_find_insert_start_col hole_sheet 1 1).
Proof.
  intros [_ H]. apply (H 1); [split; reflexivity|].
  intros i Hi [t Ht]. assert (i = 0) as -> by lia.
  vm_compute in Ht. discriminate.
Qed.

Lemma pdf_pages_witness :
  _get_file_extension nt "http://h/a.pdf" = Ok (py "pdf") /\
  exists imgs,
    images (fst (_process_single_link (fair_world Openpyxl.empty two_pages)
                   (link_at 1 1 "http://h/a.pdf") 1 3 "tmp" "poppler"
                   video_exts initial)) = images initial ++ imgs /\
    length imgs = length two_pages /\
    NoDup (Image.anchor <$> imgs).
Proof.
  split; [reflexivity|].
  destruct (pdf_link_embeds_every_page (fair_world Openpyxl.empty two_pages)
              (link_at 1 1 "http://h/a.pdf") 1 3 "tmp" "poppler" initial
              ok_response [] two_pages eq_refl eq_refl eq_refl eq_refl eq_refl
              eq_refl)
    as (imgs & Hi & _ & _ & _ & Hall & _ & Hnd).
  exists imgs. split; [exact Hi|]. split; [|exact Hnd].
  apply Hall. intros j pg Hj Hpg. apply lookup_lt_Some in Hpg. simpl in Hpg.
  split; [reflexivity|]. split; [eexists; reflexivity | lia].
Defined.

(** C3 fails as stated: a PDF is fetched and rasterised to two pages, and
    one image is embedded, when the second page cannot be saved, and
    also when the first page goes to the last column that has a
    letter. *)
Lemma some_page_is_not_embedded :
  ~ every_page_is_embedded disk_full_world (link_at 1 1 "http://h/a.pdf")
      1 2 "tmp" "poppler" initial /\
  ~ every_page_is_embedded (fair_world Openpyxl.empty two_pages)
      (link_at 1 1 "http://h/a.pdf") 1 18278 "tmp" "poppler" initial.
Proof.
  split; intros H;
    destruct (H ok_response [] two_pages eq_refl eq_refl eq_refl eq_refl
                eq_refl eq_refl) as (imgs & Hi & Hlen);
    vm_compute in Hi; rewrite <- Hi in Hlen; discriminate Hlen.
Qed.

Lemma raster_image_witness :
  _get_file_extension nt "http://h/b.jpg" = Ok (py "jpg") /\
  exists a,
    names_cell a 1 2 /\
    images (fst (_process_single_link (fair_world Openpyxl.empty [])
                   (link_at 1 1 "http://h/b.jpg") 1 2 "tmp" "poppler"
                   video_exts initial)) =
    images initial ++
      [ {| Image.path := scratch_path (fair_world Openpyxl.empty []) "tmp" 1 1
                           (py "jpg");
           Image.width := 180; Image.height := 120; Image.anchor := a |} ].
Proof.
  split; [reflexivity|].
  destruct (proj1 (raster_link_embeds_one_image (fair_world Openpyxl.empty [])
                     (link_at 1 1 "http://h/b.jpg") 1 2 "tmp" "poppler" initial)
              (py "jpg") ok_response [] eq_refl (or_introl eq_refl) eq_refl
              eq_refl eq_refl eq_refl) as (H & _).
  destruct H as (a & Ha & Hi & _); [eexists; reflexivity | lia |].
  exists a. split; [exact Ha | exact Hi].
Defined.

(** C4 fails as stated: a PNG link is fetched and stored, the file does
    not decode, and no image is embedded. *)
Lemma undecodable_image_is_not_embedded :
  ~ fetched_raster_is_embedded undecodable_world (link_at 1 1 "http://h/a.png")
      1 2 "tmp" "poppler" initial.
Proof.
  intros H.
  destruct (H (py "png") ok_response [] eq_refl eq_refl eq_refl eq_refl
              eq_refl eq_refl) as [img Hi].
  vm_compute in Hi. discriminate Hi.
Qed.

Lemma isolation_witness :
  logs (since initial
          (fst (_process_single_link disk_full_world (link_at 1 1 "http://h/a.pdf")
                  1 2 "tmp" "poppler" video_exts initial))) =
  [ ProcessingError "http://h/a.pdf" (OSError "No space left on device") 1 1 ] /\
  logs (since initial
          (fst (_process_single_link (fair_world Openpyxl.empty [])
                  (link_at 1 1 "http://[::1/a.png")
                  1 2 "tmp" "poppler" video_exts initial))) =
  [ ProcessingError "http://[::1/a.png" (ValueError "Invalid IPv6 URL") 1 1 ].
Proof.
  split.
  - destruct (worker_isolates_failures disk_full_world (link_at 1 1 "http://h/a.pdf")
                1 2 "tmp" "poppler" initial) as (_ & H & _).
    destruct (H (fst (_process_single_link_try disk_full_world
                        (link_at 1 1 "http://h/a.pdf") 1 2 "tmp" "poppler"
                        video_exts initial))
                (OSError "No space left on device")) as (_ & Hlog & _).
    + vm_compute. reflexivity.
    + exact Hlog.
  - destruct (worker_isolates_failures (fair_world Openpyxl.empty [])
                (link_at 1 1 "http://[::1/a.png")
                1 2 "tmp" "poppler" initial) as (_ & H & _).
    destruct (H (fst (_process_single_link_try (fair_world Openpyxl.empty [])
                        (link_at 1 1 "http://[::1/a.png") 1 2 "tmp" "poppler"
                        video_exts initial))
                (ValueError "Invalid IPv6 URL")) as (_ & Hlog & _).
    + vm_compute. reflexivity.
    + exact Hlog.
Defined.

(** C5 fails as stated: the second page of a PDF cannot be saved, the
    [try] block raises, and the image of the first page stays. *)
Lemma failed_pdf_keeps_first_page :
  ~ failure_leaves_no_image disk_full_world (link_at 1 1 "http://h/a.pdf")
      1 2 "tmp" "poppler" initial.
Proof.
  intros H.
  specialize (H (fst (_process_single_link_try disk_full_world
                        (link_at 1 1 "http://h/a.pdf") 1 2 "tmp" "poppler"
                        video_exts initial))
                (OSError "No space left on device")).
  assert (Hc := H ltac:(vm_compute; reflexivity)).
  vm_compute in Hc. discriminate.
Qed.

Lemma unrecognized_witness :
  _get_file_extension nt "http://h/readme" = Ok [] /\
  trace (fst (_process_single_link (fair_world Openpyxl.empty [])
                (link_at 1 1 "http://h/readme") 1 2 "tmp" "poppler"
                video_exts initial)) =
  trace initial ++ [ EGet "http://h/readme";
                     ELog (UnrecognizedType "http://h/readme" 1 1) ].
Proof.
  split; [reflexivity|].
  destruct (unembeddable_links_are_logged (fair_world Openpyxl.empty [])
              (link_at 1 1 "http://h/readme") 1 2 "tmp" "poppler" initial)
    as (_ & _ & _ & H & _).
  destruct (H ok_response [] eq_refl eq_refl eq_refl) as (Hu & _).
  apply Hu. reflexivity.
Defined.

(** C6 fails as stated: the request of a link without extension times
    out, and the only record is the download error. *)
Lemma offline_link_is_not_classified :
  ~ extensionless_is_logged offline_world (link_at 1 1 "http://h/readme")
      1 2 "tmp" "poppler" initial.
Proof.
  intros H. specialize (H eq_refl). vm_compute in H. discriminate.
Qed.




Lemma scratch_files_witness :
  NoDup (writes (since (loaded gap_sheet)
    (fst (dispatch_all (fair_world gap_sheet two_pages) "tmp" "poppler" video_exts
            (_group_hyperlinks (ws (loaded gap_sheet))) (loaded gap_sheet))))).
Proof.
  exact (proj1 (proj2 (scratch_files_are_private (fair_world gap_sheet two_pages)
                         "tmp" "poppler" (loaded gap_sheet)))).
Defined.

Lemma start_col_witness :
  _find_insert_start_col hole_sheet 1 0 = 1 /\
  _find_insert_start_col hole_sheet 1 1 = _find_insert_start_col hole_sheet 1 7.
Proof.
  destruct (start_col_ignores_how_many_links hole_sheet 1 ltac:(lia))
    as (H0 & Hsame & _).
  split; [apply H0; lia | apply Hsame; lia].
Defined.

Lemma anchors_witness :
  cell_ref 1 28 = Ok (py "AB1") /\
  forall r' c', cell_ref r' c' = Ok (py "AB1") -> r' = 1 /\ c' = 28.
Proof.
  split; [reflexivity|].
  exact (proj2 (proj2 (anchors_tell_cells_apart 1 28 (py "AB1") eq_refl))).
Defined.

Lemma failed_download_witness :
  _process_single_link offline_world (link_at 1 1 "http://h/a.png") 1 2
    "tmp" "poppler" video_exts initial =
  ({| ws := ws initial;
      trace := trace initial ++
        [ EGet "http://h/a.png";
          ELog (error_record (link_at 1 1 "http://h/a.png") 1
                  (RequestException "Read timed out")) ] |}, Ok tt).
Proof.
  apply (failed_download_leaves_nothing offline_world (link_at 1 1 "http://h/a.png")
           1 2 "tmp" "poppler" video_exts initial (RequestException "Read timed out")).
  left. reflexivity.
Defined.

Lemma scratch_dir_witness :
  exists name,
    no_sep nt name /\
    py "tmp\row1_col1.png" = OsPath.join nt "tmp" name /\
    (py "tmp\row1_col1.png" = py "tmp" ++ name \/
     py "tmp\row1_col1.png" = py "tmp" ++ OsPath.sep nt :: name).
Proof.
  apply (scratch_files_stay_in_the_scratch_dir (fair_world Openpyxl.empty [])
           (link_at 1 1 "http://h/a.png") 1 2 "tmp" "poppler" video_exts initial
           (py "tmp\row1_col1.png")).
  vm_compute. left. reflexivity.
Defined.

Lemma same_extension_witness :
  _get_file_extension nt "http://h/a.pdf" = _get_file_extension posix "http://h/a.pdf".
Proof.
  apply (extension_is_the_same_on_both_platforms (py "http://h/a.pdf")).
  simpl. intros Hc.
  repeat (destruct Hc as [Hc | Hc]; [discriminate Hc|]). destruct Hc.
Defined.


Lemma plain_word_witness :
  Py.lower (py "pdf") = py "pdf".
Proof.
  exact (proj1 (proj2 (extension_is_a_plain_word nt (py "http://h/a.B.Pdf")
                         (py "pdf") eq_refl))).
Defined.

Lemma run_saves_witness :
  snd (process_excel_hyperlinks (example_world gap_sheet
         (fun _ => Raise (RequestException "Read timed out")) [] (fun _ _ => Ok tt))
         "in.xlsx" "out.xlsx" "tmp" "poppler" 4 initial) = Ok tt.
Proof.
  apply (run_saves_whatever_the_links_do
           (example_world gap_sheet
              (fun _ => Raise (RequestException "Read timed out")) [] (fun _ _ => Ok tt))
           "in.xlsx" "out.xlsx" "tmp" "poppler" 4 gap_sheet
           [ py "pdfinfo.exe"; py "pdftoppm.exe" ]).
  - lia.
  - reflexivity.
  - reflexivity.
  - right. left. reflexivity.
  - left. reflexivity.
  - reflexivity.
  - vm_compute. discriminate.
  - reflexivity.
  - reflexivity.
Defined.

Lemma single_page_witness :
  exists imgs,
    images (fst (dispatch_all (fair_world gap_sheet [ (10, 20) ]) "tmp" "poppler"
                   video_exts (_group_hyperlinks (ws (loaded gap_sheet)))
                   (loaded gap_sheet)))
      = images (loaded gap_sheet) ++ imgs /\
    NoDup (Image.anchor <$> imgs).
Proof.
  apply (single_page_links_never_share_a_cell (fair_world gap_sheet [ (10, 20) ])
           "tmp" "poppler" video_exts (loaded gap_sheet)).
  intros p q pages Hc. injection Hc as <-. simpl. lia.
Defined.

Lemma sized_rows_witness :
  snd (_adjust_dimensions
         (fst (dispatch_all (fair_world gap_sheet two_pages) "tmp" "poppler"
                 video_exts (_group_hyperlinks (ws (loaded gap_sheet)))
                 (loaded gap_sheet)))) = Ok tt.
Proof.
  refine (proj1 (thumbnail_rows_are_sized (fair_world gap_sheet two_pages)
                   "tmp" "poppler" video_exts (loaded gap_sheet) _)).
  vm_compute. discriminate.
Defined.

End Examples.
